(** * Critical dependabot alerts: extraction and aggregation

    A shallow embedding of [src/main.py].  The script has two phases:

    - extraction ([get_dependabot_alerts_from_repository],
      [list_repositories_in_organisation], [generate_raw_alerts_table]):
      paginated HTTP GETs against the GitHub API, collected into the
      checkpoint [outputs/raw_alerts.csv];
    - aggregation ([generate_processed_alert_tables]): the checkpoint is
      loaded into an in-memory SQL table and a fixed sequence of SQL
      statements produces the report files.

    Effects are modelled by explicit state passing over a [world] (the
    files under [outputs/], the lines printed, the URLs requested).  The
    two [while True] loops take a fuel argument; running out of fuel is
    the outcome [Timeout], which stands for a loop that has not finished.

    What lies outside the script is modelled as follows.
    - The GitHub server is a function from the organisation, repository,
      token and page number to a response: the same request gets the
      same answer.
    - A CSV file is the table it holds (a header and rows of cells), not
      its text.
    - The conversions DuckDB applies to the cells of the DataFrame when
      they are inserted into the typed [alerts] table are parameters of
      the aggregation engine.
    - A SQL table is the list of its rows, NULL is [None], and the
      statements follow SQL's three-valued logic.  Where SQL leaves the
      order of rows open (groups, ties of [ORDER BY]) the model picks
      one; no statement below depends on the choice. *)

From stdpp Require Import base option list strings pretty gmap sorting.
From Stdlib Require Import ZArith Lia.

#[local] Set Warnings "-register-all".

#[local] Open Scope string_scope.
#[local] Open Scope Z_scope.
#[local] Open Scope nat_scope.
#[local] Open Scope list_scope.

(** ** JSON values and Python dictionaries *)

Inductive json : Type :=
  | JNull
  | JBool (b : bool)
  | JNum (n : Z)
  | JStr (s : string)
  | JArr (items : list json)
  | JObj (members : list (string * json)).

(** A Python [dict] with string keys: insertion-ordered, keys unique. *)
Definition dict (V : Type) : Type := list (string * V).

Fixpoint dict_get {V} (k : string) (d : dict V) : option V :=
  match d with
  | [] => None
  | (k', v) :: d' => if String.eqb k k' then Some v else dict_get k d'
  end.

(** [d[k] = v]: overwrites in place when [k] is present, else appends. *)
Fixpoint dict_set {V} (k : string) (v : V) (d : dict V) : dict V :=
  match d with
  | [] => [(k, v)]
  | (k', v') :: d' =>
      if String.eqb k k' then (k, v) :: d' else (k', v') :: dict_set k v d'
  end.

Definition dict_keys {V} (d : dict V) : list string := map fst d.

(** An alert as returned by [response.json()]: a JSON object. *)
Definition alert : Type := dict json.

(** An entry of the organisation's repository listing.  The code reads
    [repo["name"]] and [repo["archived"]] only. *)
Record repo_entry : Type := { name : string; archived : bool }.

(** ** Tables (DataFrames and CSV files) *)

Inductive value : Type :=
  | VNull                       (* NaN / None / SQL NULL / empty CSV cell *)
  | VBool (b : bool)
  | VInt (n : Z)
  | VStr (s : string)
  | VTimestamp (t : Z)          (* SQL TIMESTAMP, microseconds since epoch *)
  | VObject (j : json).         (* a list left in a cell by json_normalize *)

Record table : Type := { columns : list string; rows : list (list value) }.

(** ** The world and the outcome of a computation *)

Inductive exn : Type :=
  | Exception (msg : string)
  | KeyError (missing : list string)
  | EmptyDataError
  | FileNotFoundError (path : string)
  | ConversionError.

(** [str(e)]: exact for [Exception], which is all the fetcher raises. *)
Definition exn_str (e : exn) : string :=
  match e with
  | Exception msg => msg
  | KeyError _ => "KeyError"
  | EmptyDataError => "No columns to parse from file"
  | FileNotFoundError p => "No such file or directory: " +:+ p
  | ConversionError => "Conversion Error"
  end.

Record world : Type := {
  fs : gmap string table;       (* files, by path *)
  stdout : list string;         (* lines printed, oldest first *)
  http_log : list string;       (* URLs requested, oldest first *)
}.

Inductive outcome (A : Type) : Type :=
  | Return (a : A)
  | Raise (e : exn)
  | Timeout.
Arguments Return {A} a.
Arguments Raise {A} e.
Arguments Timeout {A}.

Definition M (A : Type) : Type := world → outcome A * world.

Definition ret {A} (a : A) : M A := fun w => (Return a, w).
Definition raise {A} (e : exn) : M A := fun w => (Raise e, w).
Definition timeout {A} : M A := fun w => (Timeout, w).

Definition bind {A B} (m : M A) (k : A → M B) : M B :=
  fun w =>
    match m w with
    | (Return a, w') => k a w'
    | (Raise e, w') => (Raise e, w')
    | (Timeout, w') => (Timeout, w')
    end.

(** [try: m  except Exception as e: h e] *)
Definition try_except {A} (m : M A) (h : exn → M A) : M A :=
  fun w =>
    match m w with
    | (Raise e, w') => h e w'
    | r => r
    end.

Declare Scope py_scope.
Delimit Scope py_scope with py.
Notation "x <- m ;; k" := (bind m (fun x => k))
  (at level 100, m at next level, right associativity) : py_scope.
Notation "m ;; k" := (bind m (fun _ => k))
  (at level 100, right associativity) : py_scope.

Definition print (line : string) : M unit :=
  fun w => (Return tt,
            {| fs := fs w; stdout := stdout w ++ [line]; http_log := http_log w |}).

Definition os_path_exists (path : string) : M bool :=
  fun w => (Return (bool_decide (is_Some (fs w !! path))), w).

Definition write_file (path : string) (t : table) : M unit :=
  fun w => (Return tt,
            {| fs := <[path := t]> (fs w); stdout := stdout w; http_log := http_log w |}).

(** ** The GitHub API *)

Record response (A : Type) : Type := {
  status_code : Z;
  reason : string;
  body : list A;                (* response.json() *)
}.
Arguments status_code {A} r.
Arguments reason {A} r.
Arguments body {A} r.

(** The server: what each of the two endpoints answers for a page. *)
Record github : Type := {
  org_repos : string → string → nat → response repo_entry;
      (* org, token, page *)
  repo_alerts : string → string → string → nat → response alert;
      (* org, repo, token, page *)
}.

Definition headers_of (token : string) : dict string :=
  [("Authorization", "token " +:+ token);
   ("Accept", "application/vnd.github.v3+json")].

(** [repr] of a [str].  A string is read as the sequence of its
    characters' code points, all below 256.  The string is put between
    single quotes, or between double quotes when it holds a single quote
    and no double quote; the quote in use and the backslash are escaped
    with a backslash, tab, newline and carriage return become their
    two-character escapes, and every other character that is not printable
    (the control characters, the no-break space and the soft hyphen)
    becomes a two-digit hexadecimal escape. *)
Definition backslash : Ascii.ascii := Ascii.ascii_of_nat 92.
Definition single_quote : Ascii.ascii := Ascii.ascii_of_nat 39.
Definition double_quote : Ascii.ascii := Ascii.ascii_of_nat 34.

Definition hex_digit (n : nat) : string := String.substring n 1 "0123456789abcdef".

Definition py_repr_char (quote c : Ascii.ascii) : string :=
  let n := Ascii.nat_of_ascii c in
  if Ascii.eqb c quote || Ascii.eqb c backslash then String backslash (String c "")
  else if n =? 9 then String backslash "t"
  else if n =? 10 then String backslash "n"
  else if n =? 13 then String backslash "r"
  else if (n <? 32) || (n =? 127) || ((127 <? n) && (n <? 161)) || (n =? 173)
  then String backslash ("x" +:+ hex_digit (n / 16) +:+ hex_digit (n mod 16))
  else String c "".

Fixpoint py_repr_chars (quote : Ascii.ascii) (s : string) : string :=
  match s with
  | EmptyString => ""
  | String c s' => py_repr_char quote c +:+ py_repr_chars quote s'
  end.

Fixpoint has_char (c : Ascii.ascii) (s : string) : bool :=
  match s with
  | EmptyString => false
  | String c' s' => Ascii.eqb c c' || has_char c s'
  end.

Definition py_repr (s : string) : string :=
  let quote :=
    if has_char single_quote s && negb (has_char double_quote s)
    then double_quote else single_quote in
  String quote (py_repr_chars quote s +:+ String quote "").

Fixpoint py_repr_items (d : dict string) : string :=
  match d with
  | [] => ""
  | [(k, v)] => py_repr k +:+ ": " +:+ py_repr v
  | (k, v) :: d' => py_repr k +:+ ": " +:+ py_repr v +:+ ", " +:+ py_repr_items d'
  end.

Definition py_repr_dict (d : dict string) : string := "{" +:+ py_repr_items d +:+ "}".

Definition alerts_url (org repo : string) (page : nat) : string :=
  "https://api.github.com/repos/" +:+ org +:+ "/" +:+ repo
    +:+ "/dependabot/alerts?page=" +:+ pretty page +:+ "&per_page=100".

Definition repos_url (org : string) (page : nat) : string :=
  "https://api.github.com/orgs/" +:+ org +:+ "/repos?page=" +:+ pretty page
    +:+ "&per_page=100".

Definition log_request (url : string) : M unit :=
  fun w => (Return tt,
            {| fs := fs w; stdout := stdout w; http_log := http_log w ++ [url] |}).

Section Extraction.

Variable api : github.

Open Scope py_scope.

Definition get_alerts_page (org repo token : string) (page : nat)
  : M (response alert) :=
  log_request (alerts_url org repo page) ;;
  ret (repo_alerts api org repo token page).

Definition get_repos_page (org token : string) (page : nat)
  : M (response repo_entry) :=
  log_request (repos_url org page) ;;
  ret (org_repos api org token page).

(** The body of [while True] in [get_dependabot_alerts_from_repository],
    with the loop variables [page] and [alerts] as arguments. *)
Fixpoint fetch_alerts_loop (fuel : nat) (token org repo : string)
    (page : nat) (alerts : list alert) : M (list alert) :=
  match fuel with
  | O => timeout
  | S fuel' =>
      response <- get_alerts_page org repo token page ;;
      if (status_code response =? 200)%Z then
        let page_alerts := body response in
        match page_alerts with
        | [] => ret alerts
        | _ :: _ =>
            let page_alerts :=
              map (dict_set "repository" (JStr repo)) page_alerts in
            fetch_alerts_loop fuel' token org repo (S page) (alerts ++ page_alerts)
        end
      else
        raise (Exception ("API call failed with status code "
                            +:+ pretty (status_code response) +:+ ", "
                            +:+ reason response))
  end.

Definition get_dependabot_alerts_from_repository (fuel : nat)
    (token org repo : string) : M (list alert) :=
  fetch_alerts_loop fuel token org repo 1 [].

(** The body of [while True] in [list_repositories_in_organisation]. *)
Fixpoint list_repos_loop (fuel : nat) (org token : string)
    (page : nat) (repos : list string) : M (list string) :=
  match fuel with
  | O => timeout
  | S fuel' =>
      let url := repos_url org page in
      response <- get_repos_page org token page ;;
      if (status_code response =? 200)%Z then
        let page_repos := body response in
        match page_repos with
        | [] => ret repos
        | _ :: _ =>
            list_repos_loop fuel' org token (S page)
              (repos ++ map name (filter (fun repo => archived repo = false) page_repos))
        end
      else
        raise (Exception ("API call failed with status code "
                            +:+ pretty (status_code response) +:+ ", "
                            +:+ reason response +:+ "."
                            +:+ " " +:+ url +:+ " "
                            +:+ py_repr_dict (headers_of token)))
  end.

Definition list_repositories_in_organisation (fuel : nat)
    (org token : string) : M (list string) :=
  list_repos_loop fuel org token 1 [].

End Extraction.

(** ** Flattening alerts into the checkpoint table ([pd.json_normalize]) *)

(** [_normalise_json]: nested objects are flattened, keys joined by ".". *)
Fixpoint normalise_json (data : json) (key_string : string)
    (normalized_dict : dict json) : dict json :=
  match data with
  | JObj members =>
      (fix each (items : list (string * json)) (acc : dict json) : dict json :=
         match items with
         | [] => acc
         | (key, v) :: items' =>
             let new_key :=
               if String.eqb key_string "" then key
               else key_string +:+ "." +:+ key in
             each items' (normalise_json v new_key acc)
         end) members normalized_dict
  | _ => dict_set key_string data normalized_dict
  end.

Definition is_dict (j : json) : bool :=
  match j with JObj _ => true | _ => false end.

(** [{**a, **b}] *)
Definition dict_merge {V} (a b : dict V) : dict V :=
  fold_left (fun acc kv => dict_set (fst kv) (snd kv) acc) b a.

(** [_normalise_json_ordered]: top-level scalars first, then the
    flattened nested objects. *)
Definition normalise_json_ordered (data : alert) : dict json :=
  let top_dict := filter (fun kv => is_dict (snd kv) = false) data in
  let nested_dict :=
    normalise_json (JObj (filter (fun kv => is_dict (snd kv) = true) data)) "" [] in
  dict_merge top_dict nested_dict.

Definition cell_of_json (j : json) : value :=
  match j with
  | JNull => VNull
  | JBool b => VBool b
  | JNum n => VInt n
  | JStr s => VStr s
  | JArr _ | JObj _ => VObject j
  end.

(** Union of the records' keys, in order of first appearance. *)
Fixpoint union_keys (seen : list string) (records : list (dict json)) : list string :=
  match records with
  | [] => seen
  | r :: records' =>
      union_keys
        (fold_left (fun acc k => if bool_decide (k ∈ acc) then acc else acc ++ [k])
                   (dict_keys r) seen)
        records'
  end.

(** [pd.DataFrame(records)]: a missing key gives NaN. *)
Definition data_frame (records : list (dict json)) : table :=
  let cols := union_keys [] records in
  {| columns := cols;
     rows := map (fun r => map (fun c => from_option cell_of_json VNull (dict_get c r)) cols)
                 records |}.

Definition json_normalize (data : list alert) : table :=
  match data with
  | [] => {| columns := []; rows := [] |}
  | _ :: _ => data_frame (map normalise_json_ordered data)
  end.

(** ** The extraction orchestrator *)

Definition raw_alerts_csv : string := "outputs/raw_alerts.csv".

Definition fetched_line (i n : nat) (repo : string) : string :=
  " > " +:+ pretty i +:+ "/" +:+ pretty n +:+ " : Fetched alerts for " +:+ repo.

Definition error_line (i n : nat) (repo : string) (e : exn) : string :=
  " > " +:+ pretty i +:+ "/" +:+ pretty n +:+ " : Error fetching alerts for "
    +:+ repo +:+ ": " +:+ exn_str e.

Section Orchestrator.

Variable api : github.

Open Scope py_scope.

(** [for i, repo in enumerate(repositories): try: ... except ...],
    from position [i] on; [n] is [len(repositories)]. *)
Fixpoint fetch_each (fuel : nat) (org token : string) (n i : nat)
    (repositories : list string) (alerts : list alert) : M (list alert) :=
  match repositories with
  | [] => ret alerts
  | repo :: rest =>
      alerts' <-
        try_except
          (fetched <- get_dependabot_alerts_from_repository api fuel token org repo ;;
           print (fetched_line i n repo) ;;
           ret (alerts ++ fetched))
          (fun e =>
             print (error_line i n repo e) ;;
             ret alerts) ;;
      fetch_each fuel org token n (S i) rest alerts'
  end.

Definition generate_raw_alerts_table (fuel : nat)
    (github_organisation github_token : string) : M unit :=
  present <- os_path_exists raw_alerts_csv ;;
  if (present : bool) then
    print "Raw alerts file already exists, skipping..."
  else
    print "Generating raw alerts table..." ;;
    repositories <- list_repositories_in_organisation api fuel
                     github_organisation github_token ;;
    print ("Found " +:+ pretty (length repositories) +:+ " repositories") ;;
    alerts <- fetch_each fuel github_organisation github_token
               (length repositories) 0 repositories [] ;;
    let df := json_normalize alerts in
    write_file raw_alerts_csv df.

End Orchestrator.

(** ** The aggregation engine: loading the checkpoint *)

(** [pd.read_csv]: a file with no header columns cannot be parsed. *)
Definition read_csv (path : string) : M table :=
  fun w =>
    match fs w !! path with
    | None => (Raise (FileNotFoundError path), w)
    | Some t =>
        match columns t with
        | [] => (Raise EmptyDataError, w)
        | _ :: _ => (Return t, w)
        end
    end.

Fixpoint index_of (c : string) (cols : list string) : option nat :=
  match cols with
  | [] => None
  | c' :: cols' => if String.eqb c c' then Some 0 else S <$> index_of c cols'
  end.

Definition cell (cols : list string) (r : list value) (c : string) : value :=
  match index_of c cols with
  | Some i => default VNull (r !! i)
  | None => VNull
  end.

(** [df[[c1, ..., cn]]]: a [KeyError] names the columns that are missing. *)
Definition select_columns (wanted : list string) (df : table) : M table :=
  match filter (fun c => c ∉ columns df) wanted with
  | [] => ret {| columns := wanted;
                 rows := map (fun r => map (cell (columns df) r) wanted) (rows df) |}
  | missing => raise (KeyError missing)
  end.

(** [df.rename(columns=mapping, inplace=True)] *)
Definition rename_columns (mapping : dict string) (df : table) : table :=
  {| columns := map (fun c => default c (dict_get c mapping)) (columns df);
     rows := rows df |}.

Definition fixed_columns : list string :=
  [ "repository"; "number"; "state"; "created_at"; "fixed_at"; "dismissed_at";
    "dismissed_by"; "dismissed_reason"; "dismissed_comment";
    "security_advisory.summary"; "security_advisory.ghsa_id";
    "security_advisory.severity"; "url" ].

Definition advisory_renames : dict string :=
  [ ("security_advisory.summary", "summary");
    ("security_advisory.ghsa_id", "ghsa_id");
    ("security_advisory.severity", "severity") ].

(** ** The [alerts] table

    [None] is SQL NULL.  A row of [alerts] is the twelve columns that
    stay to the end, plus [severity] until [DROP COLUMN] removes it. *)

Record alert_fields : Type := {
  repository : option string;
  number : option Z;
  state : option string;
  created_at : option Z;
  fixed_at : option Z;
  dismissed_at : option Z;
  dismissed_by : option string;
  dismissed_reason : option string;
  dismissed_comment : option string;
  summary : option string;
  ghsa_id : option string;
  url : option string;
}.

Record alert_row : Type := {
  fields :> alert_fields;
  severity : option string;
}.

(** The columns of [CREATE TABLE alerts], in order. *)
Definition alerts_columns : list string :=
  [ "repository"; "number"; "state"; "created_at"; "fixed_at"; "dismissed_at";
    "dismissed_by"; "dismissed_reason"; "dismissed_comment";
    "summary"; "ghsa_id"; "severity"; "url" ].

(** *** SQL's three-valued comparisons *)

Definition sql_ne (a : option string) (b : string) : option bool :=
  (fun s => negb (String.eqb s b)) <$> a.

Definition sql_eq (a : option string) (b : string) : option bool :=
  (fun s => String.eqb s b) <$> a.

Definition sql_gt (a : option Z) (b : Z) : option bool :=
  (fun n => (b <? n)%Z) <$> a.

(** A [WHERE] clause selects the rows on which it is TRUE (not NULL). *)
Definition sql_where (p : option bool) : bool :=
  match p with Some true => true | _ => false end.

Definition coalesce (a : option Z) (b : Z) : Z := default b a.

(** [SUM] over no row is NULL. *)
Definition sql_sum (l : list Z) : option Z :=
  match l with
  | [] => None
  | _ :: _ => Some (foldr Z.add 0%Z l)
  end.

(** [MAX] ignores NULLs and is NULL when nothing else is left. *)
Fixpoint sql_max (l : list (option Z)) : option Z :=
  match l with
  | [] => None
  | None :: l' => sql_max l'
  | Some t :: l' =>
      match sql_max l' with
      | None => Some t
      | Some m => Some (Z.max t m)
      end
  end.

(** [ORDER BY key DESC]; NULLs come last (DuckDB's default null order). *)
Definition desc_nulls_last (a b : option Z) : Prop :=
  match a, b with
  | Some x, Some y => (y ≤ x)%Z
  | Some _, None => True
  | None, Some _ => False
  | None, None => True
  end.

#[global] Instance desc_nulls_last_dec a b : Decision (desc_nulls_last a b).
Proof. destruct a, b; simpl; apply _. Defined.

Definition order_by_desc {A} (key : A → option Z) (l : list A) : list A :=
  merge_sort (fun x y => desc_nulls_last (key x) (key y)) l.

(** *** The statements of [generate_processed_alert_tables] *)

Definition set_state (s : option string) (r : alert_row) : alert_row :=
  {| fields :=
       {| repository := repository r; number := number r; state := s;
          created_at := created_at r; fixed_at := fixed_at r;
          dismissed_at := dismissed_at r; dismissed_by := dismissed_by r;
          dismissed_reason := dismissed_reason r;
          dismissed_comment := dismissed_comment r;
          summary := summary r; ghsa_id := ghsa_id r; url := url r |};
     severity := severity r |}.

(** [UPDATE alerts SET state = 'dismissed' WHERE dismissed_at IS NOT NULL] *)
Definition update_state_dismissed (alerts : list alert_row) : list alert_row :=
  map (fun r : alert_row =>
         if bool_decide (is_Some (dismissed_at r))
         then set_state (Some "dismissed") r else r) alerts.

(** [DELETE FROM alerts WHERE severity != 'critical'] *)
Definition delete_not_critical (alerts : list alert_row) : list alert_row :=
  filter (fun r : alert_row => sql_where (sql_ne (severity r) "critical") = false)
         alerts.

(** [ALTER TABLE alerts DROP COLUMN severity] *)
Definition drop_column_severity (alerts : list alert_row) : list alert_fields :=
  map fields alerts.

Definition columns_after_drop : list string :=
  filter (fun c => c ≠ "severity") alerts_columns.

(** [SELECT repository, state, COUNT( * ) as count FROM alerts
     GROUP BY repository, state] *)
Definition count_by_repository_state (alerts : list alert_fields)
  : list (option string * option string * Z) :=
  map (fun k =>
         (k.1, k.2,
          Z.of_nat (length (filter (fun r : alert_fields => (repository r, state r) = k)
                                   alerts))))
      (remove_dups (map (fun r : alert_fields => (repository r, state r)) alerts)).

Record count_row : Type := {
  repo : option string;
  open : option Z;
  dismissed : option Z;
  fixed : option Z;
}.

(** [PIVOT (SUM(count) FOR state IN ('open', 'dismissed', 'fixed'))]:
    one row per [repository], one summed column per listed state. *)
Definition pivot_sum (src : list (option string * option string * Z))
    (R : option string) (s : string) : option Z :=
  sql_sum (map snd (filter (fun g => g.1.1 = R ∧ g.1.2 = Some s) src)).

Definition pivot_state (src : list (option string * option string * Z))
  : list count_row :=
  map (fun R => {| repo := R;
                   open := pivot_sum src R "open";
                   dismissed := pivot_sum src R "dismissed";
                   fixed := pivot_sum src R "fixed" |})
      (remove_dups (map (fun g => g.1.1) src)).

(** [CREATE TABLE critical_alert_count AS ... ORDER BY open DESC] *)
Definition critical_alert_count (alerts : list alert_fields) : list count_row :=
  order_by_desc open (pivot_state (count_by_repository_state alerts)).

(** The column a report names through the loop variable [state]. *)
Definition state_column (s : string) (r : count_row) : option Z :=
  if String.eqb s "open" then open r
  else if String.eqb s "dismissed" then dismissed r
  else fixed r.

(** [select repository, COALESCE(s, 0) as s from critical_alert_count
     where s > 0 ORDER BY s DESC] *)
Definition state_count_report (s : string) (counts : list count_row)
  : list (option string * Z) :=
  order_by_desc (fun row => Some row.2)
    (map (fun r => (repo r, coalesce (state_column s r) 0))
         (filter (fun r => sql_where (sql_gt (state_column s r) 0) = true) counts)).

(** [select repository, COALESCE(open, 0) as open, COALESCE(dismissed, 0)
     as dismissed, COALESCE(fixed, 0) as fixed from critical_alert_count
     ORDER BY open DESC] *)
Definition all_count_report (counts : list count_row)
  : list (option string * Z * Z * Z) :=
  order_by_desc (fun row => Some row.1.1.2)
    (map (fun r => (repo r, coalesce (open r) 0, coalesce (dismissed r) 0,
                    coalesce (fixed r) 0))
         counts).

(** [select max(created_at) as created_at, ghsa_id from alerts
     where state = 'open' group by ghsa_id ORDER BY created_at DESC] *)
Definition alerts_by_date (alerts : list alert_fields)
  : list (option Z * option string) :=
  let opened :=
    filter (fun r : alert_fields => sql_where (sql_eq (state r) "open") = true) alerts in
  order_by_desc fst
    (map (fun g => (sql_max (map created_at
                              (filter (fun r : alert_fields => ghsa_id r = g) opened)), g))
         (remove_dups (map ghsa_id opened))).

(** *** Writing a query's result: [COPY (...) TO path (HEADER)] *)

Definition sql_value {A} (f : A → value) (o : option A) : value :=
  from_option f VNull o.

Definition cells_of_alert (r : alert_fields) : list value :=
  [ sql_value VStr (repository r); sql_value VInt (number r);
    sql_value VStr (state r); sql_value VTimestamp (created_at r);
    sql_value VTimestamp (fixed_at r); sql_value VTimestamp (dismissed_at r);
    sql_value VStr (dismissed_by r); sql_value VStr (dismissed_reason r);
    sql_value VStr (dismissed_comment r); sql_value VStr (summary r);
    sql_value VStr (ghsa_id r); sql_value VStr (url r) ].

Definition critical_alerts_table (alerts : list alert_fields) : table :=
  {| columns := columns_after_drop; rows := map cells_of_alert alerts |}.

Definition state_count_table (s : string) (report : list (option string * Z)) : table :=
  {| columns := ["repository"; s];
     rows := map (fun row => [sql_value VStr row.1; VInt row.2]) report |}.

Definition all_count_table (report : list (option string * Z * Z * Z)) : table :=
  {| columns := ["repository"; "open"; "dismissed"; "fixed"];
     rows := map (fun row => [sql_value VStr row.1.1.1; VInt row.1.1.2;
                              VInt row.1.2; VInt row.2]) report |}.

Definition alerts_by_date_table (report : list (option Z * option string)) : table :=
  {| columns := ["created_at"; "ghsa_id"];
     rows := map (fun row => [sql_value VTimestamp row.1; sql_value VStr row.2]) report |}.

Definition critical_alerts_csv : string := "outputs/critical_alerts.csv".
Definition state_count_csv (s : string) : string :=
  "outputs/" +:+ s +:+ "_critical_alert_count.csv".
Definition all_count_csv : string := "outputs/all_critical_alert_count.csv".
Definition alerts_by_date_csv : string := "outputs/alerts_by_date.csv".

(** The report files the aggregation engine writes. *)
Definition report_paths : list string :=
  [ critical_alerts_csv; state_count_csv "open"; state_count_csv "dismissed";
    state_count_csv "fixed"; all_count_csv; alerts_by_date_csv ].

Fixpoint for_each {A} (l : list A) (f : A → M unit) : M unit :=
  match l with
  | [] => ret tt
  | x :: l' => bind (f x) (fun _ => for_each l' f)
  end.

Section Aggregation.

(** DuckDB's conversion of a DataFrame cell to the type of the column it
    is inserted into; the outer [None] is a conversion error.  The
    statements below hold whatever these conversions accept. *)
Variable cast_varchar : value → option (option string).
Variable cast_integer : value → option (option Z).
Variable cast_timestamp : value → option (option Z).

(** One row of [INSERT INTO alerts SELECT * FROM df], by position. *)
Definition insert_row (cells : list value) : option alert_row :=
  match cells with
  | [c_repository; c_number; c_state; c_created_at; c_fixed_at; c_dismissed_at;
     c_dismissed_by; c_dismissed_reason; c_dismissed_comment;
     c_summary; c_ghsa_id; c_severity; c_url] =>
      v_repository ← cast_varchar c_repository;
      v_number ← cast_integer c_number;
      v_state ← cast_varchar c_state;
      v_created_at ← cast_timestamp c_created_at;
      v_fixed_at ← cast_timestamp c_fixed_at;
      v_dismissed_at ← cast_timestamp c_dismissed_at;
      v_dismissed_by ← cast_varchar c_dismissed_by;
      v_dismissed_reason ← cast_varchar c_dismissed_reason;
      v_dismissed_comment ← cast_varchar c_dismissed_comment;
      v_summary ← cast_varchar c_summary;
      v_ghsa_id ← cast_varchar c_ghsa_id;
      v_severity ← cast_varchar c_severity;
      v_url ← cast_varchar c_url;
      Some {| fields :=
                {| repository := v_repository; number := v_number;
                   state := v_state; created_at := v_created_at;
                   fixed_at := v_fixed_at; dismissed_at := v_dismissed_at;
                   dismissed_by := v_dismissed_by;
                   dismissed_reason := v_dismissed_reason;
                   dismissed_comment := v_dismissed_comment;
                   summary := v_summary; ghsa_id := v_ghsa_id; url := v_url |};
              severity := v_severity |}
  | _ => None
  end.

Definition insert_into_alerts (df : table) : M (list alert_row) :=
  match mapM insert_row (rows df) with
  | Some alerts => ret alerts
  | None => raise ConversionError
  end.

Open Scope py_scope.

Definition generate_processed_alert_tables : M unit :=
  print "Generating processed alert tables..." ;;
  df <- read_csv raw_alerts_csv ;;
  df <- select_columns fixed_columns df ;;
  let df := rename_columns advisory_renames df in
  alerts <- insert_into_alerts df ;;
  let alerts := update_state_dismissed alerts in
  let alerts := delete_not_critical alerts in
  let alerts := drop_column_severity alerts in
  write_file critical_alerts_csv (critical_alerts_table alerts) ;;
  let counts := critical_alert_count alerts in
  for_each ["open"; "dismissed"; "fixed"]%string
    (fun s => write_file (state_count_csv s)
                (state_count_table s (state_count_report s counts))) ;;
  write_file all_count_csv (all_count_table (all_count_report counts)) ;;
  write_file alerts_by_date_csv (alerts_by_date_table (alerts_by_date alerts)).

End Aggregation.

(** ** The whole job

    [main] with the two environment values as arguments.  Creating the
    output directory and reading the environment are left out. *)

Section Main.
Variable api : github.
Variable cast_varchar : value → option (option string).
Variable cast_integer : value → option (option Z).
Variable cast_timestamp : value → option (option Z).

Open Scope py_scope.

Definition main (fuel : nat) (GITHUB_TOKEN GITHUB_ORGANISATION : string) : M unit :=
  print "Generating tables for critical dependabot alerts..." ;;
  generate_raw_alerts_table api fuel GITHUB_ORGANISATION GITHUB_TOKEN ;;
  generate_processed_alert_tables cast_varchar cast_integer cast_timestamp ;;
  print "Alert tables generated".

End Main.

(** * Vocabulary of the statements *)

(** ** Pagination, abstractly

    Both [while True] loops have the same shape.  [paginate] is that shape
    as a function of the server's answers alone: it gives the outcome of
    the loop and the URLs requested. *)

Section Pagination.
Context {A B : Type}.
Variable url_of : nat → string.
Variable respond : nat → response A.
Variable collect : list A → list B.
Variable failure : nat → response A → exn.

Fixpoint paginate (fuel page : nat) (acc : list B) : outcome (list B) * list string :=
  match fuel with
  | O => (Timeout, [])
  | S fuel' =>
      let response := respond page in
      if (status_code response =? 200)%Z then
        match body response with
        | [] => (Return acc, [url_of page])
        | _ :: _ =>
            let r := paginate fuel' (S page) (acc ++ collect (body response)) in
            (r.1, url_of page :: r.2)
        end
      else (Raise (failure page response), [url_of page])
  end.

(** What [n] pages starting at [page] contribute. *)
Definition collect_pages (page n : nat) : list B :=
  flat_map (fun j => collect (body (respond j))) (seq page n).
End Pagination.

(** A page that is answered with status 200 and is not empty. *)
Definition full_page {A} (r : response A) : Prop :=
  status_code r = 200%Z ∧ body r ≠ [].

(** The empty page, answered with status 200, that ends a listing. *)
Definition last_page {A} (r : response A) : Prop :=
  status_code r = 200%Z ∧ body r = [].

(** Page [p] is requested and answered with a status other than 200. *)
Definition listing_fails_at {A} (respond : nat → response A) (p : nat) : Prop :=
  1 ≤ p
  ∧ status_code (respond p) ≠ 200%Z
  ∧ ∀ j, 1 ≤ j < p → full_page (respond j).

(** Page [k] is requested and is the empty page that ends the listing. *)
Definition listing_ends_at {A} (respond : nat → response A) (k : nat) : Prop :=
  1 ≤ k
  ∧ last_page (respond k)
  ∧ ∀ j, 1 ≤ j < k → full_page (respond j).

(** The [p]-th page (from 1) of [items], 100 per page. *)
Definition page_slice {A} (items : list A) (p : nat) : list A :=
  take 100 (drop (100 * (p - 1)) items).

(** A server that lists [items] 100 per page and nothing after them. *)
Definition serves {A} (respond : nat → response A) (items : list A) : Prop :=
  ∀ p : nat, 1 ≤ p → status_code (respond p) = 200%Z ∧ body (respond p) = page_slice items p.

Definition ceil_div (n d : nat) : nat := (n + d - 1) / d.

Definition tag_repository (repo : string) (a : alert) : alert :=
  dict_set "repository" (JStr repo) a.

Definition alerts_failure (r : response alert) : exn :=
  Exception ("API call failed with status code " +:+ pretty (status_code r)
               +:+ ", " +:+ reason r).

Definition repos_failure (org token : string) (page : nat) (r : response repo_entry) : exn :=
  Exception ("API call failed with status code " +:+ pretty (status_code r)
               +:+ ", " +:+ reason r +:+ "." +:+ " " +:+ repos_url org page
               +:+ " " +:+ py_repr_dict (headers_of token)).

Definition unarchived_names (page_repos : list repo_entry) : list string :=
  map name (filter (fun repo => archived repo = false) page_repos).

(** ** Worlds *)

Definition initial_world : world := {| fs := ∅; stdout := []; http_log := [] |}.

Definition add_requests (urls : list string) (w : world) : world :=
  {| fs := fs w; stdout := stdout w; http_log := http_log w ++ urls |}.

(** What fetching one repository's alerts comes to. *)
Definition fetch_outcome (api : github) (fuel : nat) (token org repo : string)
  : outcome (list alert) :=
  (get_dependabot_alerts_from_repository api fuel token org repo initial_world).1.

Definition fetch_succeeds (api : github) (fuel : nat) (token org repo : string) : Prop :=
  ∃ alerts, fetch_outcome api fuel token org repo = Return alerts.

#[global] Instance fetch_succeeds_dec api fuel token org repo :
  Decision (fetch_succeeds api fuel token org repo).
Proof.
  unfold fetch_succeeds.
  destruct (fetch_outcome api fuel token org repo) as [alerts| |];
    [left; by exists alerts | right; by intros [? ?] ..].
Defined.

(** The alerts a repository contributes: none when its fetch fails. *)
Definition fetched_alerts (api : github) (fuel : nat) (token org repo : string)
  : list alert :=
  match fetch_outcome api fuel token org repo with
  | Return alerts => alerts
  | _ => []
  end.

Definition listing_outcome (api : github) (fuel : nat) (org token : string)
  : outcome (list string) :=
  (list_repositories_in_organisation api fuel org token initial_world).1.

(** The alerts of repository [R] that are in state [s]. *)
Definition alerts_in_state (R : option string) (s : string)
    (alerts : list alert_fields) : list alert_fields :=
  filter (fun r : alert_fields => repository r = R ∧ state r = Some s) alerts.

(** The URLs a listing requests. *)
Definition fetch_requests (api : github) (fuel : nat) (token org repo : string)
  : list string :=
  http_log (get_dependabot_alerts_from_repository api fuel token org repo initial_world).2.

Definition listing_requests (api : github) (fuel : nat) (org token : string)
  : list string :=
  http_log (list_repositories_in_organisation api fuel org token initial_world).2.

(** The line the orchestrator prints for the repository at position [i]. *)
Definition progress_line (api : github) (fuel : nat) (token org : string)
    (n i : nat) (repo : string) : string :=
  match fetch_outcome api fuel token org repo with
  | Return _ => fetched_line i n repo
  | Raise e => error_line i n repo e
  | Timeout => ""
  end.

Fixpoint progress_lines (api : github) (fuel : nat) (token org : string)
    (n i : nat) (repositories : list string) : list string :=
  match repositories with
  | [] => []
  | repo :: rest =>
      progress_line api fuel token org n i repo
        :: progress_lines api fuel token org n (S i) rest
  end.

(** The open alerts that reference advisory [g]. *)
Definition open_alerts_of (g : option string) (alerts : list alert_fields)
  : list alert_fields :=
  filter (fun r : alert_fields => state r = Some "open" ∧ ghsa_id r = g) alerts.

(** Alert [a] has the field [k], at top level, and it is not an object. *)
Definition has_field (a : alert) (k : string) : Prop :=
  ∃ v, (k, v) ∈ a ∧ is_dict v = false.

(** Alert [a] has the field [k] inside its [security_advisory] object. *)
Definition has_advisory_field (a : alert) (k : string) : Prop :=
  ∃ advisory v,
    ("security_advisory", JObj advisory) ∈ a ∧ (k, v) ∈ advisory ∧ is_dict v = false.

(** The number of alerts of repository [R] in state [s], as SQL counts. *)
Definition alert_count (R : option string) (s : string)
    (alerts : list alert_fields) : Z :=
  Z.of_nat (length (alerts_in_state R s alerts)).

(** What the [UPDATE] statement makes of one row. *)
Definition normalised (r : alert_row) : alert_row :=
  if bool_decide (is_Some (dismissed_at r)) then set_state (Some "dismissed") r else r.

(** The [alerts] table when the reports are computed. *)
Definition critical_alerts (loaded : list alert_row) : list alert_fields :=
  drop_column_severity (delete_not_critical (update_state_dismissed loaded)).

(** The world after the aggregation engine has written the reports for
    the rows [loaded] from the checkpoint. *)
Definition with_reports (loaded : list alert_row) (files : gmap string table)
  : gmap string table :=
  let alerts := critical_alerts loaded in
  let counts := critical_alert_count alerts in
  <[alerts_by_date_csv := alerts_by_date_table (alerts_by_date alerts)]>
    (<[all_count_csv := all_count_table (all_count_report counts)]>
       (<[state_count_csv "fixed" :=
            state_count_table "fixed" (state_count_report "fixed" counts)]>
          (<[state_count_csv "dismissed" :=
               state_count_table "dismissed" (state_count_report "dismissed" counts)]>
             (<[state_count_csv "open" :=
                  state_count_table "open" (state_count_report "open" counts)]>
                (<[critical_alerts_csv := critical_alerts_table alerts]> files))))).

(** Whether a column name contains a dot, the separator of flattening. *)
Fixpoint has_dot (s : string) : bool :=
  match s with
  | EmptyString => false
  | String a s' => String.eqb (String a EmptyString) "." || has_dot s'
  end.

(** The top-level fields of the checkpoint the aggregation engine reads. *)
Definition plain_fields : list string :=
  [ "repository"; "number"; "state"; "created_at"; "fixed_at"; "dismissed_at";
    "dismissed_by"; "dismissed_reason"; "dismissed_comment"; "url" ].

(** The fields it reads from the nested advisory. *)
Definition advisory_fields : list string := [ "summary"; "ghsa_id"; "severity" ].

(** ** Loading the checkpoint *)

(** The rows of [alerts] after the [INSERT]: the rows of the checkpoint,
    projected to the fixed columns and converted; [None] when some cell
    does not convert. *)
Definition loaded_rows (cast_varchar : value → option (option string))
    (cast_integer cast_timestamp : value → option (option Z)) (df : table)
  : option (list alert_row) :=
  mapM (insert_row cast_varchar cast_integer cast_timestamp)
       (map (fun r => map (cell (columns df) r) fixed_columns) (rows df)).

(** The alerts of repository [R] whose severity is ['critical'] and whose
    state is [s], among the rows loaded from the checkpoint. *)
Definition critical_in_state (R s : string) (loaded : list alert_row) : list alert_row :=
  filter (fun r : alert_row =>
            severity r = Some "critical" ∧ repository r = Some R ∧ state r = Some s)
         loaded.

(** The open alerts of severity ['critical'] that reference advisory [g]. *)
Definition open_critical_of (g : string) (loaded : list alert_row) : list alert_row :=
  filter (fun r : alert_row =>
            severity r = Some "critical" ∧ state r = Some "open" ∧ ghsa_id r = Some g)
         loaded.

(** A status code of the success class of HTTP. *)
Definition http_success (status : Z) : Prop := (200 ≤ status < 300)%Z.

(** * Sample inputs

    Concrete tables and servers on which the statements below are run. *)

(** A checkpoint with one open alert whose severity cell is empty, and
    the row of [alerts] it is loaded as. *)
Definition null_severity_checkpoint : table :=
  {| columns := fixed_columns;
     rows := [ [ VStr "B"; VInt 1; VStr "open"; VStr "2024-01-01T00:00:00Z";
                 VNull; VNull; VNull; VNull; VNull;
                 VStr "advisory"; VStr "GHSA-1"; VNull; VNull ] ] |}.

Definition null_severity_alert : alert_row :=
  {| fields :=
       {| repository := Some "B"; number := Some 1%Z; state := Some "open";
          created_at := Some 1704067200000000%Z; fixed_at := None;
          dismissed_at := None; dismissed_by := None; dismissed_reason := None;
          dismissed_comment := None; summary := Some "advisory";
          ghsa_id := Some "GHSA-1"; url := None |};
     severity := None |}.

(** The organisation of the end-to-end example: [A] is archived, [B] has
    one open critical alert, fetching the alerts of [C] fails. *)
Definition sample_alert : alert :=
  [ ("number", JNum 1); ("state", JStr "open");
    ("security_advisory",
      JObj [ ("ghsa_id", JStr "GHSA-1"); ("severity", JStr "critical");
             ("summary", JStr "advisory");
             ("identifiers", JArr [JObj [("type", JStr "GHSA");
                                         ("value", JStr "GHSA-1")]]) ]);
    ("url", JStr "https://api.github.com/repos/acme/B/dependabot/alerts/1");
    ("created_at", JStr "2024-01-01T00:00:00Z");
    ("dismissed_at", JNull); ("dismissed_by", JNull);
    ("dismissed_reason", JNull); ("dismissed_comment", JNull);
    ("fixed_at", JNull) ].

Definition sample_repos : list repo_entry :=
  [ {| name := "A"; archived := true |};
    {| name := "B"; archived := false |};
    {| name := "C"; archived := false |} ].

Definition sample_github : github :=
  {| org_repos := fun org token page =>
       {| status_code := 200; reason := "OK";
          body := if Nat.eqb page 1 then sample_repos else [] |};
     repo_alerts := fun org repo token page =>
       if String.eqb repo "B" then
         {| status_code := 200; reason := "OK";
            body := if Nat.eqb page 1 then [sample_alert] else [] |}
       else
         {| status_code := 500; reason := "Internal Server Error"; body := [] |} |}.

(** A server that refuses the token. *)
Definition unauthorized_github : github :=
  {| org_repos := fun org token page =>
       {| status_code := 401; reason := "Unauthorized"; body := [] |};
     repo_alerts := fun org repo token page =>
       {| status_code := 401; reason := "Unauthorized"; body := [] |} |}.

(** An organisation whose only repository has no alerts. *)
Definition quiet_github : github :=
  {| org_repos := fun org token page =>
       {| status_code := 200; reason := "OK";
          body := if Nat.eqb page 1 then [ {| name := "B"; archived := false |} ] else [] |};
     repo_alerts := fun org repo token page =>
       {| status_code := 200; reason := "OK"; body := [] |} |}.

(** Rows of the [alerts] table used below. *)
Definition alert_of (R s : string) (created dismissed : option Z) (g : string)
  : alert_fields :=
  {| repository := Some R; number := Some 1%Z; state := Some s;
     created_at := created; fixed_at := None; dismissed_at := dismissed;
     dismissed_by := None; dismissed_reason := None; dismissed_comment := None;
     summary := Some "advisory"; ghsa_id := Some g; url := None |}.

(** An alert still reported as open although it carries a dismissal date. *)
Definition stale_open_alert : alert_row :=
  {| fields := alert_of "B" "open" (Some 1%Z) (Some 5%Z) "GHSA-1";
     severity := Some "critical" |}.

(** Repository [B] with three open and two fixed alerts, next to a
    repository [C] with one dismissed alert. *)
Definition sample_alerts : list alert_fields :=
  [ alert_of "B" "open" (Some 1%Z) None "GHSA-1";
    alert_of "C" "dismissed" (Some 2%Z) (Some 3%Z) "GHSA-1";
    alert_of "B" "fixed" (Some 3%Z) None "GHSA-2";
    alert_of "B" "open" (Some 4%Z) None "GHSA-1";
    alert_of "B" "fixed" (Some 5%Z) None "GHSA-3";
    alert_of "B" "open" (Some 6%Z) None "GHSA-2" ].

(** Conversions that cover the cells of the sample checkpoint. *)
Definition sample_cast_varchar (v : value) : option (option string) :=
  match v with
  | VNull => Some None
  | VStr s => Some (Some s)
  | _ => None
  end.

Definition sample_cast_integer (v : value) : option (option Z) :=
  match v with
  | VNull => Some None
  | VInt n => Some (Some n)
  | _ => None
  end.

Definition sample_cast_timestamp (v : value) : option (option Z) :=
  match v with
  | VNull => Some None
  | VTimestamp t => Some (Some t)
  | VStr s =>
      if String.eqb s "2024-01-01T00:00:00Z" then Some (Some 1704067200000000%Z)
      else None
  | _ => None
  end.

(** A world in which a checkpoint was left by an earlier run. *)
Definition world_with_checkpoint : world :=
  {| fs := {[ raw_alerts_csv := json_normalize [tag_repository "B" sample_alert] ]};
     stdout := []; http_log := [] |}.

(** A server whose every page of alerts is full: the listing never ends. *)
Definition endless_github : github :=
  {| org_repos := fun org token page =>
       {| status_code := 200; reason := "OK";
          body := [ {| name := "B"; archived := false |} ] |};
     repo_alerts := fun org repo token page =>
       {| status_code := 200; reason := "OK"; body := [sample_alert] |} |}.

(** A checkpoint with the expected columns and no row. *)
Definition header_only_checkpoint : table :=
  {| columns := "id" :: fixed_columns; rows := [] |}.

(** A checkpoint that lacks the two dismissal columns. *)
Definition short_checkpoint : table :=
  {| columns := [ "repository"; "number"; "state"; "created_at"; "fixed_at";
                  "dismissed_at"; "dismissed_by"; "security_advisory.summary";
                  "security_advisory.ghsa_id"; "security_advisory.severity"; "url" ];
     rows := [] |}.

(** An alert that was dismissed: [dismissed_by] is an object. *)
Definition dismissed_sample_alert : alert :=
  [ ("number", JNum 2); ("state", JStr "dismissed");
    ("security_advisory",
      JObj [ ("ghsa_id", JStr "GHSA-2"); ("severity", JStr "critical");
             ("summary", JStr "advisory") ]);
    ("url", JStr "https://api.github.com/repos/acme/B/dependabot/alerts/2");
    ("created_at", JStr "2024-01-01T00:00:00Z");
    ("dismissed_at", JStr "2024-01-01T00:00:00Z");
    ("dismissed_by", JObj [("login", JStr "octocat"); ("id", JNum 1)]);
    ("dismissed_reason", JStr "tolerable_risk"); ("dismissed_comment", JNull);
    ("fixed_at", JNull); ("repository", JStr "B") ].

(** A server that answers every request with the success status 204. *)
Definition no_content_github : github :=
  {| org_repos := fun org token page =>
       {| status_code := 204; reason := "No Content"; body := [] |};
     repo_alerts := fun org repo token page =>
       {| status_code := 204; reason := "No Content"; body := [] |} |}.

(** A row of a checkpoint that has the fixed columns, in their order. *)
Definition checkpoint_row (R : string) (n : Z) (s : string)
    (created fixed dismissed : value) (g : string) (sev : value) : list value :=
  [ VStr R; VInt n; VStr s; created; fixed; dismissed; VNull; VNull; VNull;
    VStr "advisory"; VStr g; sev; VNull ].

(** A checkpoint whose only alert is critical and reported as open
    although it carries a dismissal date. *)
Definition stale_open_checkpoint : table :=
  {| columns := fixed_columns;
     rows := [ checkpoint_row "B" 1 "open" (VStr "2024-01-01T00:00:00Z") VNull
                 (VStr "2024-01-01T00:00:00Z") "GHSA-1" (VStr "critical") ] |}.

(** A checkpoint in which repository [B] has three open and two fixed
    critical alerts, and one dismissed alert whose severity cell is
    empty. *)
Definition unrated_dismissed_checkpoint : table :=
  {| columns := fixed_columns;
     rows :=
       [ checkpoint_row "B" 1 "open" (VStr "2024-01-01T00:00:00Z") VNull VNull
           "GHSA-1" (VStr "critical");
         checkpoint_row "B" 2 "open" (VStr "2024-01-01T00:00:00Z") VNull VNull
           "GHSA-2" (VStr "critical");
         checkpoint_row "B" 3 "open" (VStr "2024-01-01T00:00:00Z") VNull VNull
           "GHSA-3" (VStr "critical");
         checkpoint_row "B" 4 "fixed" (VStr "2024-01-01T00:00:00Z")
           (VStr "2024-01-01T00:00:00Z") VNull "GHSA-4" (VStr "critical");
         checkpoint_row "B" 5 "fixed" (VStr "2024-01-01T00:00:00Z")
           (VStr "2024-01-01T00:00:00Z") VNull "GHSA-5" (VStr "critical");
         checkpoint_row "B" 6 "dismissed" (VStr "2024-01-01T00:00:00Z") VNull
           (VStr "2024-01-01T00:00:00Z") "GHSA-6" VNull ] |}.

(** A conversion of timestamps that knows three dates. *)
Definition dated_cast_timestamp (v : value) : option (option Z) :=
  match v with
  | VNull => Some None
  | VTimestamp t => Some (Some t)
  | VStr s =>
      Some <$> dict_get s [ ("2024-01-01T00:00:00Z", 1704067200000000%Z);
                            ("2024-02-01T00:00:00Z", 1706745600000000%Z);
                            ("2024-03-01T00:00:00Z", 1709251200000000%Z) ]
  | _ => None
  end.

(** A checkpoint in which advisory [GHSA-1] has two open critical alerts,
    created in January and in February, and a later open alert whose
    severity cell is empty. *)
Definition unrated_latest_checkpoint : table :=
  {| columns := fixed_columns;
     rows :=
       [ checkpoint_row "B" 1 "open" (VStr "2024-01-01T00:00:00Z") VNull VNull
           "GHSA-1" (VStr "critical");
         checkpoint_row "C" 1 "open" (VStr "2024-02-01T00:00:00Z") VNull VNull
           "GHSA-1" (VStr "critical");
         checkpoint_row "D" 1 "open" (VStr "2024-03-01T00:00:00Z") VNull VNull
           "GHSA-1" VNull ] |}.

(** * Properties of the aggregation engine *)

(** ** Normalisation of the state of dismissed alerts *)

Lemma set_state_fields s (r : alert_row) :
  state (set_state s r) = s
  ∧ repository (set_state s r) = repository r
  ∧ dismissed_at (set_state s r) = dismissed_at r
  ∧ created_at (set_state s r) = created_at r
  ∧ ghsa_id (set_state s r) = ghsa_id r
  ∧ severity (set_state s r) = severity r.
Proof. by destruct r as [[] ?]. Qed.

Lemma update_state_dismissed_lookup (alerts : list alert_row) (i : nat) :
  update_state_dismissed alerts !! i =
    (fun r : alert_row =>
       if bool_decide (is_Some (dismissed_at r))
       then set_state (Some "dismissed") r else r) <$> alerts !! i.
Proof. unfold update_state_dismissed. apply (list_lookup_fmap _ alerts i). Qed.

(** Every row of [alerts] whose [dismissed_at] is not NULL leaves the
    [UPDATE] statement, at the same position, with state ['dismissed'],
    whatever state it carried; its other columns are unchanged. *)
Lemma update_sets_state_dismissed
    (alerts : list alert_row) (i : nat) (r : alert_row) :
  alerts !! i = Some r →
  is_Some (dismissed_at r) →
  ∃ r' : alert_row,
    update_state_dismissed alerts !! i = Some r'
    ∧ state r' = Some "dismissed"
    ∧ r' = set_state (Some "dismissed") r.
Proof.
  intros Hi Hd. exists (set_state (Some "dismissed") r).
  rewrite update_state_dismissed_lookup, Hi. simpl.
  rewrite bool_decide_eq_true_2 by done.
  done.
Qed.

(** Rows that were never dismissed keep the state they had. *)
Lemma not_dismissed_keeps_state (alerts : list alert_row) (i : nat) (r : alert_row) :
  alerts !! i = Some r →
  dismissed_at r = None →
  update_state_dismissed alerts !! i = Some r.
Proof.
  intros Hi Hd. rewrite update_state_dismissed_lookup, Hi. simpl.
  rewrite bool_decide_eq_false_2; [done|]. rewrite Hd. by intros [? ?].
Qed.

(** The invariant holds of every row of the persisted critical report. *)
Lemma critical_report_dismissed_invariant (alerts : list alert_row) :
  Forall (fun r : alert_fields => is_Some (dismissed_at r) → state r = Some "dismissed")
         (drop_column_severity (delete_not_critical (update_state_dismissed alerts))).
Proof.
  unfold drop_column_severity, delete_not_critical, update_state_dismissed.
  apply Forall_fmap, Forall_forall. intros r Hr Hd.
  apply list_elem_of_filter in Hr as [_ Hr].
  apply list_elem_of_fmap in Hr as (r0 & -> & _).
  simpl in *. case_bool_decide as Hd0.
  - apply set_state_fields.
  - done.
Qed.

(** ** The critical filter *)

Lemma delete_not_critical_keeps (alerts : list alert_row) (r : alert_row) :
  r ∈ delete_not_critical alerts ↔
  r ∈ alerts ∧ (severity r = Some "critical" ∨ severity r = None).
Proof.
  unfold delete_not_critical. rewrite list_elem_of_filter.
  split; intros [H1 H2]; split; try done.
  - destruct (severity r) as [s|] eqn:Hs; [left|by right].
    simpl in H1. destruct (String.eqb s "critical") eqn:E; [|done].
    apply String.eqb_eq in E. by subst.
  - destruct H2 as [-> | ->]; done.
Qed.

(** Every row with a severity other than ['critical'] is deleted. *)
Lemma delete_not_critical_removes (alerts : list alert_row) (r : alert_row) (s : string) :
  severity r = Some s → s ≠ "critical" → r ∉ delete_not_critical alerts.
Proof.
  intros Hs Hne Hin. apply delete_not_critical_keeps in Hin as [_ [H | H]];
    rewrite Hs in H; naive_solver.
Qed.

(** The persisted report has no [severity] column, and a cell per column. *)
Lemma critical_alerts_table_columns (alerts : list alert_fields) :
  ("severity" ∉ columns (critical_alerts_table alerts))
  ∧ Forall (fun row => length row = length (columns (critical_alerts_table alerts)))
           (rows (critical_alerts_table alerts)).
Proof.
  split.
  - simpl. unfold columns_after_drop. rewrite list_elem_of_filter.
    intros [Hne _]. by apply Hne.
  - simpl. apply Forall_fmap, Forall_forall. by intros r _.
Qed.

(** C3. A row whose severity is NULL is not ['critical'], yet the
    [DELETE] statement keeps it ([NULL != 'critical'] is not TRUE): run on
    a checkpoint with such a row, the aggregation engine writes it to the
    critical report and counts it. *)
Theorem null_severity_row_survives_critical_filter :
  let run :=
    generate_processed_alert_tables
      sample_cast_varchar sample_cast_integer sample_cast_timestamp
      {| fs := {[ raw_alerts_csv := null_severity_checkpoint ]};
         stdout := []; http_log := [] |} in
  mapM (insert_row sample_cast_varchar sample_cast_integer sample_cast_timestamp)
       (rows null_severity_checkpoint) = Some [null_severity_alert]
  ∧ severity null_severity_alert ≠ Some "critical"
  ∧ delete_not_critical (update_state_dismissed [null_severity_alert])
    = [null_severity_alert]
  ∧ run.1 = Return tt
  ∧ rows <$> fs run.2 !! critical_alerts_csv
    = Some [cells_of_alert null_severity_alert]
  ∧ rows <$> fs run.2 !! all_count_csv
    = Some [[VStr "B"; VInt 1; VInt 0; VInt 0]].
Proof.
  cbv zeta. split; [reflexivity|]. split; [done|]. split; [reflexivity|].
  split; [by vm_compute|]. split; by vm_compute.
Qed.

(** ** Ordering and grouping *)

Section OrderBy.
Context {A : Type} (key : A → option Z).

Lemma order_by_desc_perm (l : list A) : order_by_desc key l ≡ₚ l.
Proof. apply merge_sort_Permutation. Qed.

Lemma elem_of_order_by_desc (l : list A) (x : A) :
  x ∈ order_by_desc key l ↔ x ∈ l.
Proof. by rewrite order_by_desc_perm. Qed.

Lemma desc_nulls_last_total (a b : option Z) :
  desc_nulls_last a b ∨ desc_nulls_last b a.
Proof. destruct a, b; simpl; lia. Qed.

Lemma order_by_desc_sorted (l : list A) :
  Sorted (fun x y => desc_nulls_last (key x) (key y)) (order_by_desc key l).
Proof.
  apply Sorted_merge_sort. intros x y. apply desc_nulls_last_total.
Qed.
End OrderBy.

(** Filtering the image of a duplicate-free list of keys by a predicate
    that singles out one key. *)
Lemma filter_fmap_unique {K B} `{EqDecision K} (f : K → B) (P : B → Prop)
    `{∀ b, Decision (P b)} (k0 : K) (l : list K) :
  NoDup l →
  (∀ k, P (f k) ↔ k = k0) →
  filter P (f <$> l) = if decide (k0 ∈ l) then [f k0] else [].
Proof.
  intros Hnd HP. induction Hnd as [|k l Hk Hnd IH]; [done|].
  rewrite fmap_cons, filter_cons, IH.
  destruct (decide (P (f k))) as [Hp | Hp].
  - apply HP in Hp as ->.
    rewrite (decide_False (P := k0 ∈ l)) by done.
    by rewrite (decide_True (P := k0 ∈ k0 :: l)) by left.
  - assert (k ≠ k0) by (intros ->; by apply Hp, HP).
    destruct (decide (k0 ∈ l)) as [Hin | Hin].
    + rewrite decide_True; [done | by right].
    + rewrite decide_False; [done|]. by intros [?|?]%elem_of_cons.
Qed.

(** ** The pivot of counts by repository and state *)

Lemma pivot_sum_count (alerts : list alert_fields) (R : option string) (s : string) :
  pivot_sum (count_by_repository_state alerts) R s =
    match alerts_in_state R s alerts with
    | [] => None
    | _ :: _ => Some (Z.of_nat (length (alerts_in_state R s alerts)))
    end.
Proof.
  unfold pivot_sum, count_by_repository_state.
  rewrite (filter_fmap_unique _ _ (R, Some s)); cycle 1.
  { apply NoDup_remove_dups. }
  { intros [k1 k2]. simpl. split; [by intros [-> ->] | by intros [= -> ->]]. }
  assert (Hfilter :
    filter (fun r : alert_fields => (repository r, state r) = (R, Some s)) alerts
    = alerts_in_state R s alerts).
  { apply list_filter_iff. intros r. split; [by intros [= -> ->] | by intros [-> ->]]. }
  destruct (decide _) as [Hin | Hin].
  - simpl. rewrite Hfilter.
    apply elem_of_remove_dups, list_elem_of_fmap in Hin as (r & Hr & Hin).
    assert (r ∈ alerts_in_state R s alerts) as Hne.
    { apply list_elem_of_filter. split; [|done]. by injection Hr as <- <-. }
    destruct (alerts_in_state R s alerts); [by apply elem_of_nil in Hne|].
    by rewrite Z.add_0_r.
  - destruct (alerts_in_state R s alerts) as [|r l] eqn:E; [done|].
    exfalso. apply Hin, elem_of_remove_dups, list_elem_of_fmap.
    assert (r ∈ alerts_in_state R s alerts) as Hr by (rewrite E; left).
    apply list_elem_of_filter in Hr as [[HR Hs] Hr].
    exists r. by rewrite HR, Hs.
Qed.

Lemma elem_of_pivot_state (alerts : list alert_fields) (row : count_row) :
  row ∈ pivot_state (count_by_repository_state alerts) ↔
  (∃ r : alert_fields, r ∈ alerts ∧ repository r = repo row)
  ∧ open row = pivot_sum (count_by_repository_state alerts) (repo row) "open"
  ∧ dismissed row = pivot_sum (count_by_repository_state alerts) (repo row) "dismissed"
  ∧ fixed row = pivot_sum (count_by_repository_state alerts) (repo row) "fixed".
Proof.
  unfold pivot_state. rewrite list_elem_of_fmap.
  setoid_rewrite elem_of_remove_dups. setoid_rewrite list_elem_of_fmap.
  split.
  - intros (R & -> & g & -> & Hg). simpl. split; [|done].
    unfold count_by_repository_state in Hg.
    apply list_elem_of_fmap in Hg as (k & -> & Hk).
    apply elem_of_remove_dups, list_elem_of_fmap in Hk as (r & -> & Hr).
    by exists r.
  - intros ((r & Hr & HR) & Ho & Hd & Hf). exists (repo row). split.
    + destruct row; simpl in *; congruence.
    + exists (repository r, state r,
              Z.of_nat (length (filter (fun r' : alert_fields =>
                 (repository r', state r') = (repository r, state r)) alerts))).
      split; [done|]. unfold count_by_repository_state.
      apply list_elem_of_fmap. exists (repository r, state r). split; [done|].
      apply elem_of_remove_dups, list_elem_of_fmap. by exists r.
Qed.

Lemma elem_of_critical_alert_count (alerts : list alert_fields) (row : count_row) :
  row ∈ critical_alert_count alerts ↔
  row ∈ pivot_state (count_by_repository_state alerts).
Proof. apply elem_of_order_by_desc. Qed.

(** ** The advisory timeline *)

Lemma sql_max_None (l : list (option Z)) :
  sql_max l = None ↔ ∀ t : Z, Some t ∉ l.
Proof.
  induction l as [|[t|] l IH]; simpl.
  - split; [|done]. intros _ t. apply not_elem_of_nil.
  - split; [by destruct (sql_max l)|]. intros H. destruct (H t). left.
  - rewrite IH. split; intros H t.
    + intros [?|?]%elem_of_cons; [done | by apply (H t)].
    + intros ?. apply (H t). by right.
Qed.

Lemma sql_max_Some (l : list (option Z)) (m : Z) :
  sql_max l = Some m ↔ Some m ∈ l ∧ ∀ t : Z, Some t ∈ l → (t ≤ m)%Z.
Proof.
  revert m. induction l as [|[t|] l IH]; intros m; simpl.
  - split; [done|]. by intros [?%elem_of_nil _].
  - destruct (sql_max l) as [m'|] eqn:E.
    + specialize (IH m'). destruct IH as [IH _]. destruct (IH eq_refl) as [Hin Hle].
      split.
      * intros [= <-]. split.
        -- destruct (Z.max_spec t m') as [[_ ->] | [_ ->]]; [by right | left].
        -- intros t' [[= ->] | Ht']%elem_of_cons; [lia|]. apply Hle in Ht'. lia.
      * intros [Hm Hmax]. f_equal.
        assert (t ≤ m)%Z by (apply Hmax; left).
        assert (m' ≤ m)%Z by (apply Hmax; by right).
        apply elem_of_cons in Hm as [[= ->] | Hm]; [lia|].
        apply Hle in Hm. lia.
    + pose proof (proj1 (sql_max_None l) E) as E'. clear E. rename E' into E. split.
      * intros [= <-]. split; [left|].
        intros t' [[= ->] | Ht']%elem_of_cons; [lia | by destruct (E t')].
      * intros [[[= ->] | Hm]%elem_of_cons _]; [done | by destruct (E m)].
  - rewrite IH. split; intros [Hm Hmax]; split.
    + by right.
    + intros t [?|?]%elem_of_cons; [done | by apply Hmax].
    + by apply elem_of_cons in Hm as [?|?].
    + intros t ?. apply Hmax. by right.
Qed.

Lemma opened_of_advisory (alerts : list alert_fields) (g : option string) :
  filter (fun r : alert_fields => ghsa_id r = g)
    (filter (fun r : alert_fields => sql_where (sql_eq (state r) "open") = true) alerts)
  = open_alerts_of g alerts.
Proof.
  rewrite list_filter_filter. apply list_filter_iff. intros r.
  assert (sql_where (sql_eq (state r) "open") = true ↔ state r = Some "open") as ->.
  { destruct (state r) as [s|]; simpl; [|done].
    destruct (String.eqb s "open") eqn:E.
    - apply String.eqb_eq in E as ->. done.
    - apply String.eqb_neq in E. split; [done|]. by intros [= ->]. }
  tauto.
Qed.

(** The report is sorted, has one row per advisory, and each row carries
    the maximum over the open alerts of its advisory. *)
Lemma alerts_by_date_rows (alerts : list alert_fields) :
  Sorted (fun x y => desc_nulls_last x.1 y.1) (alerts_by_date alerts)
  ∧ NoDup (alerts_by_date alerts).*2
  ∧ ∀ (m : option Z) (g : option string),
      (m, g) ∈ alerts_by_date alerts ↔
      open_alerts_of g alerts ≠ []
      ∧ m = sql_max (created_at <$> open_alerts_of g alerts).
Proof.
  unfold alerts_by_date. split; [apply order_by_desc_sorted|]. split.
  - rewrite order_by_desc_perm, <-list_fmap_compose.
    rewrite (list_fmap_ext _ id) by done. rewrite list_fmap_id.
    apply NoDup_remove_dups.
  - intros m g. rewrite elem_of_order_by_desc, list_elem_of_fmap.
    setoid_rewrite elem_of_remove_dups. setoid_rewrite list_elem_of_fmap.
    split.
    + intros (g' & [= -> ->] & r & -> & Hr). rewrite opened_of_advisory.
      split; [|done].
      assert (r ∈ open_alerts_of (ghsa_id r) alerts) as Hin.
      { rewrite <-opened_of_advisory. by apply list_elem_of_filter. }
      intros E. rewrite E in Hin. by apply elem_of_nil in Hin.
    + intros [Hne ->]. exists g. rewrite opened_of_advisory. split; [done|].
      destruct (open_alerts_of g alerts) as [|r l] eqn:E; [done|].
      assert (r ∈ open_alerts_of g alerts) as Hin by (rewrite E; left).
      rewrite <-opened_of_advisory in Hin.
      apply list_elem_of_filter in Hin as [<- Hin]. by exists r.
Qed.

(** * The aggregation engine, from checkpoint to reports *)

Section AggregationRun.
Variable cast_varchar : value → option (option string).
Variable cast_integer : value → option (option Z).
Variable cast_timestamp : value → option (option Z).

(** When the checkpoint loads, the six reports are written from the
    [alerts] table as the statements above describe them. *)
Lemma generate_processed_alert_tables_writes (w : world) (df : table)
    (loaded : list alert_row) :
  fs w !! raw_alerts_csv = Some df →
  columns df ≠ [] →
  filter (fun c => c ∉ columns df) fixed_columns = [] →
  mapM (insert_row cast_varchar cast_integer cast_timestamp)
       (map (fun r => map (cell (columns df) r) fixed_columns) (rows df))
    = Some loaded →
  let alerts :=
    drop_column_severity (delete_not_critical (update_state_dismissed loaded)) in
  let counts := critical_alert_count alerts in
  ∃ w',
    generate_processed_alert_tables cast_varchar cast_integer cast_timestamp w
      = (Return tt, w')
    ∧ http_log w' = http_log w
    ∧ fs w' =
        <[alerts_by_date_csv := alerts_by_date_table (alerts_by_date alerts)]>
          (<[all_count_csv := all_count_table (all_count_report counts)]>
             (<[state_count_csv "fixed" :=
                  state_count_table "fixed" (state_count_report "fixed" counts)]>
                (<[state_count_csv "dismissed" :=
                     state_count_table "dismissed"
                       (state_count_report "dismissed" counts)]>
                   (<[state_count_csv "open" :=
                        state_count_table "open" (state_count_report "open" counts)]>
                      (<[critical_alerts_csv := critical_alerts_table alerts]>
                         (fs w)))))).
Proof.
  intros Hfile Hcolumns Hpresent Hinsert alerts counts.
  unfold generate_processed_alert_tables.
  unfold bind at 1, print. unfold bind at 1, read_csv. cbn [fs]. rewrite Hfile.
  destruct (columns df) as [|c cols] eqn:Hc; [done|]. rewrite <-Hc in *.
  unfold bind at 1, select_columns. rewrite Hpresent. unfold ret at 1.
  unfold bind at 1, insert_into_alerts. cbn [rename_columns rows].
  rewrite Hinsert. unfold ret at 1.
  eexists. split; [reflexivity|]. split; reflexivity.
Qed.
End AggregationRun.

(** * Properties of the extraction phase *)

(** ** The loops, as functions of the server's answers *)

Lemma add_requests_nil (w : world) : add_requests [] w = w.
Proof. destruct w. unfold add_requests. simpl. by rewrite app_nil_r. Qed.

Lemma fetch_alerts_loop_paginate (api : github) (fuel : nat)
    (token org repo : string) (page : nat) (acc : list alert) (w : world) :
  fetch_alerts_loop api fuel token org repo page acc w =
    let r := paginate (alerts_url org repo) (repo_alerts api org repo token)
               (map (tag_repository repo)) (fun _ => alerts_failure) fuel page acc in
    (r.1, add_requests r.2 w).
Proof.
  revert page acc w. induction fuel as [|fuel IH]; intros page acc w; simpl.
  - by rewrite add_requests_nil.
  - unfold bind, get_alerts_page, log_request, ret, raise. simpl.
    destruct (status_code (repo_alerts api org repo token page) =? 200)%Z; [|done].
    destruct (body (repo_alerts api org repo token page)) as [|a page_alerts] eqn:E;
      [done|].
    rewrite IH. unfold add_requests. simpl. by rewrite <-app_assoc.
Qed.

Lemma list_repos_loop_paginate (api : github) (fuel : nat)
    (org token : string) (page : nat) (acc : list string) (w : world) :
  list_repos_loop api fuel org token page acc w =
    let r := paginate (repos_url org) (org_repos api org token)
               unarchived_names (repos_failure org token) fuel page acc in
    (r.1, add_requests r.2 w).
Proof.
  revert page acc w. induction fuel as [|fuel IH]; intros page acc w; simpl.
  - by rewrite add_requests_nil.
  - unfold bind, get_repos_page, log_request, ret, raise. simpl.
    destruct (status_code (org_repos api org token page) =? 200)%Z; [|done].
    destruct (body (org_repos api org token page)) as [|a page_repos] eqn:E;
      [done|].
    rewrite IH. unfold add_requests. simpl. by rewrite <-app_assoc.
Qed.

Section PaginationFacts.
Context {A B : Type}.
Variable url_of : nat → string.
Variable respond : nat → response A.
Variable collect : list A → list B.
Variable failure : nat → response A → exn.

#[local] Abbreviation paginate := (paginate url_of respond collect failure).
#[local] Abbreviation collect_pages := (collect_pages respond collect).

Lemma collect_pages_S (page n : nat) :
  collect_pages page (S n) = collect (body (respond page)) ++ collect_pages (S page) n.
Proof. done. Qed.

Lemma collect_pages_snoc (page n : nat) :
  collect_pages page (S n) =
    collect_pages page n ++ collect (body (respond (page + n))).
Proof.
  unfold collect_pages. rewrite seq_S, flat_map_app. simpl. by rewrite app_nil_r.
Qed.

(** [n] full pages are walked through one by one. *)
Lemma paginate_full_pages (n fuel page : nat) (acc : list B) :
  (∀ j, page ≤ j < page + n → full_page (respond j)) →
  paginate (n + fuel) page acc =
    let r := paginate fuel (page + n) (acc ++ collect_pages page n) in
    (r.1, (url_of <$> seq page n) ++ r.2).
Proof.
  revert page acc. induction n as [|n IH]; intros page acc Hfull.
  - simpl. rewrite Nat.add_0_r, app_nil_r. by destruct (paginate fuel page acc).
  - destruct (Hfull page ltac:(lia)) as [Hstatus Hbody].
    change (S n + fuel) with (S (n + fuel)). simpl paginate at 1.
    rewrite Hstatus. simpl.
    destruct (body (respond page)) as [|a l] eqn:E; [done|].
    rewrite IH by (intros j Hj; apply Hfull; lia).
    rewrite collect_pages_S, E, <-app_assoc. simpl.
    by replace (page + S n) with (S page + n) by lia.
Qed.

Lemma paginate_last_page (fuel page : nat) (acc : list B) :
  last_page (respond page) →
  paginate (S fuel) page acc = (Return acc, [url_of page]).
Proof. intros [Hstatus Hbody]. simpl. by rewrite Hstatus, Hbody. Qed.

Lemma paginate_failed_page (fuel page : nat) (acc : list B) :
  status_code (respond page) ≠ 200%Z →
  paginate (S fuel) page acc = (Raise (failure page (respond page)), [url_of page]).
Proof.
  intros Hstatus. simpl.
  destruct (Z.eqb_spec (status_code (respond page)) 200); done.
Qed.

(** A listing that returns went through full pages up to an empty one. *)
Lemma paginate_Return_inv (fuel page : nat) (acc l : list B) (urls : list string) :
  paginate fuel page acc = (Return l, urls) →
  ∃ n, n < fuel
       ∧ (∀ j, page ≤ j < page + n → full_page (respond j))
       ∧ last_page (respond (page + n))
       ∧ l = acc ++ collect_pages page n
       ∧ urls = url_of <$> seq page (S n).
Proof.
  revert page acc urls. induction fuel as [|fuel IH]; intros page acc urls; [done|].
  simpl. destruct (Z.eqb_spec (status_code (respond page)) 200) as [Hs|Hs]; [|done].
  destruct (body (respond page)) as [|a rest] eqn:E.
  - intros [= <- <-]. exists 0. rewrite Nat.add_0_r, app_nil_r.
    split; [lia|]. split; [intros; lia|]. by repeat split.
  - destruct (paginate fuel (S page) (acc ++ collect (a :: rest))) as [o urls'] eqn:Hp.
    simpl. intros [= -> <-].
    apply IH in Hp as (n & Hn & Hfull & Hlast & -> & ->).
    exists (S n). replace (page + S n) with (S page + n) by lia.
    split; [lia|]. split; [|split; [done|]; split; [|done]].
    + intros j Hj. destruct (decide (j = page)) as [->|]; [|apply Hfull; lia].
      split; [done|]. by rewrite E.
    + by rewrite collect_pages_S, E, <-app_assoc.
Qed.
(** A listing that raises went through full pages up to a failed one. *)
Lemma paginate_Raise_inv (fuel page : nat) (acc : list B) (e : exn)
    (urls : list string) :
  paginate fuel page acc = (Raise e, urls) →
  ∃ n, n < fuel
       ∧ (∀ j, page ≤ j < page + n → full_page (respond j))
       ∧ status_code (respond (page + n)) ≠ 200%Z
       ∧ e = failure (page + n) (respond (page + n))
       ∧ urls = url_of <$> seq page (S n).
Proof.
  revert page acc urls. induction fuel as [|fuel IH]; intros page acc urls; [done|].
  simpl. destruct (Z.eqb_spec (status_code (respond page)) 200) as [Hs|Hs].
  - destruct (body (respond page)) as [|a rest] eqn:E; [done|].
    destruct (paginate fuel (S page) (acc ++ collect (a :: rest))) as [o urls'] eqn:Hp.
    simpl. intros [= -> <-].
    apply IH in Hp as (n & Hn & Hfull & Hfailed & -> & ->).
    exists (S n). replace (page + S n) with (S page + n) by lia.
    split; [lia|]. split; [|done].
    intros j Hj. destruct (decide (j = page)) as [->|]; [|apply Hfull; lia].
    split; [done|]. by rewrite E.
  - intros [= <- <-]. exists 0. rewrite Nat.add_0_r.
    split; [lia|]. split; [intros; lia|]. done.
Qed.
End PaginationFacts.

Section PaginationOutcomes.
Context {A B : Type}.
Variable url_of : nat → string.
Variable respond : nat → response A.
Variable collect : list A → list B.
Variable failure : nat → response A → exn.

#[local] Abbreviation paginate := (paginate url_of respond collect failure).
#[local] Abbreviation collect_pages := (collect_pages respond collect).

Lemma paginate_returns (n fuel page : nat) (acc : list B) :
  (∀ j, page ≤ j < page + n → full_page (respond j)) →
  last_page (respond (page + n)) →
  n < fuel →
  paginate fuel page acc =
    (Return (acc ++ collect_pages page n), url_of <$> seq page (S n)).
Proof.
  intros Hfull Hlast Hfuel.
  replace fuel with (n + S (fuel - S n)) by lia.
  rewrite paginate_full_pages by exact Hfull.
  rewrite paginate_last_page by exact Hlast. cbn [fst snd].
  by rewrite seq_S, fmap_app.
Qed.

Lemma paginate_raises (n fuel page : nat) (acc : list B) :
  (∀ j, page ≤ j < page + n → full_page (respond j)) →
  status_code (respond (page + n)) ≠ 200%Z →
  n < fuel →
  paginate fuel page acc =
    (Raise (failure (page + n) (respond (page + n))), url_of <$> seq page (S n)).
Proof.
  intros Hfull Hfailed Hfuel.
  replace fuel with (n + S (fuel - S n)) by lia.
  rewrite paginate_full_pages by exact Hfull.
  rewrite paginate_failed_page by exact Hfailed. cbn [fst snd].
  by rewrite seq_S, fmap_app.
Qed.

(** The listing returns, given enough fuel, exactly when an empty page
    is reached through full pages only. *)
Lemma paginate_returns_iff (page : nat) (acc : list B) :
  (∃ fuel l urls, paginate fuel page acc = (Return l, urls)) ↔
  (∃ n, last_page (respond (page + n))
        ∧ ∀ j, page ≤ j < page + n → full_page (respond j)).
Proof.
  split.
  - intros (fuel & l & urls & Hrun).
    apply paginate_Return_inv in Hrun as (n & _ & Hfull & Hlast & _).
    by exists n.
  - intros (n & Hlast & Hfull). exists (S n). do 2 eexists.
    apply paginate_returns; [done | done | lia].
Qed.

(** The listing raises exactly when a failed page is reached through
    full pages only. *)
Lemma paginate_raises_iff (page : nat) (acc : list B) :
  (∃ fuel e urls, paginate fuel page acc = (Raise e, urls)) ↔
  (∃ n, status_code (respond (page + n)) ≠ 200%Z
        ∧ ∀ j, page ≤ j < page + n → full_page (respond j)).
Proof.
  split.
  - intros (fuel & e & urls & Hrun).
    apply paginate_Raise_inv in Hrun as (n & _ & Hfull & Hfailed & _).
    by exists n.
  - intros (n & Hfailed & Hfull). exists (S n). do 2 eexists.
    apply paginate_raises; [done | done | lia].
Qed.

(** When [collect] goes page by page, the pages add up. *)
Lemma collect_pages_hom (page n : nat) :
  collect [] = [] →
  (∀ l1 l2, collect (l1 ++ l2) = collect l1 ++ collect l2) →
  collect_pages page n = collect (flat_map (fun j => body (respond j)) (seq page n)).
Proof.
  intros Hnil Happ. induction n as [|n IH]; [done|].
  rewrite collect_pages_snoc, IH, seq_S, flat_map_app, Happ. simpl.
  by rewrite app_nil_r.
Qed.
End PaginationOutcomes.

(** ** Running the fetcher and the lister *)

Lemma fetch_paginate (api : github) (fuel : nat) (token org repo : string) :
  (fetch_outcome api fuel token org repo, fetch_requests api fuel token org repo)
  = paginate (alerts_url org repo) (repo_alerts api org repo token)
      (map (tag_repository repo)) (fun _ => alerts_failure) fuel 1 [].
Proof.
  unfold fetch_outcome, fetch_requests, get_dependabot_alerts_from_repository.
  rewrite fetch_alerts_loop_paginate. simpl.
  by destruct (paginate _ _ _ _ fuel 1 []).
Qed.

Lemma listing_paginate (api : github) (fuel : nat) (org token : string) :
  (listing_outcome api fuel org token, listing_requests api fuel org token)
  = paginate (repos_url org) (org_repos api org token)
      unarchived_names (repos_failure org token) fuel 1 [].
Proof.
  unfold listing_outcome, listing_requests, list_repositories_in_organisation.
  rewrite list_repos_loop_paginate. simpl.
  by destruct (paginate _ _ _ _ fuel 1 []).
Qed.

(** The fetcher only adds to the log of requests; what it returns does
    not depend on the world it runs in. *)
Lemma fetch_run (api : github) (fuel : nat) (token org repo : string) (w : world) :
  get_dependabot_alerts_from_repository api fuel token org repo w =
    (fetch_outcome api fuel token org repo,
     add_requests (fetch_requests api fuel token org repo) w).
Proof.
  pose proof (fetch_paginate api fuel token org repo) as H.
  unfold get_dependabot_alerts_from_repository.
  rewrite fetch_alerts_loop_paginate. simpl. by rewrite <-H.
Qed.

Lemma listing_run (api : github) (fuel : nat) (org token : string) (w : world) :
  list_repositories_in_organisation api fuel org token w =
    (listing_outcome api fuel org token,
     add_requests (listing_requests api fuel org token) w).
Proof.
  pose proof (listing_paginate api fuel org token) as H.
  unfold list_repositories_in_organisation.
  rewrite list_repos_loop_paginate. simpl. by rewrite <-H.
Qed.

(** ** Failure of a page request *)

Lemma listing_fails_at_from_1 {A} (respond : nat → response A) :
  (∃ p, listing_fails_at respond p) ↔
  (∃ n, status_code (respond (1 + n)) ≠ 200%Z
        ∧ ∀ j, 1 ≤ j < 1 + n → full_page (respond j)).
Proof.
  split.
  - intros (p & Hp & Hfailed & Hfull). exists (p - 1).
    by replace (1 + (p - 1)) with p by lia.
  - intros (n & Hfailed & Hfull). exists (1 + n). split; [lia|]. done.
Qed.

Lemma listing_ends_at_from_1 {A} (respond : nat → response A) :
  (∃ k, listing_ends_at respond k) ↔
  (∃ n, last_page (respond (1 + n))
        ∧ ∀ j, 1 ≤ j < 1 + n → full_page (respond j)).
Proof.
  split.
  - intros (k & Hk & Hlast & Hfull). exists (k - 1).
    by replace (1 + (k - 1)) with k by lia.
  - intros (n & Hlast & Hfull). exists (1 + n). split; [lia|]. done.
Qed.

(** The outcomes of the fetcher, from the pages of the server. *)
Lemma fetch_outcomes (api : github) (token org repo : string) :
  (∀ p fuel,
     listing_fails_at (repo_alerts api org repo token) p → p ≤ fuel →
     fetch_outcome api fuel token org repo
       = Raise (alerts_failure (repo_alerts api org repo token p)))
  ∧ ((∃ fuel e, fetch_outcome api fuel token org repo = Raise e) ↔
     (∃ p, listing_fails_at (repo_alerts api org repo token) p))
  ∧ ((∃ fuel alerts, fetch_outcome api fuel token org repo = Return alerts) ↔
     (∃ k, listing_ends_at (repo_alerts api org repo token) k)).
Proof.
  split; [|split].
  - intros p fuel (Hp & Hfailed & Hfull) Hfuel.
    pose proof (fetch_paginate api fuel token org repo) as Hrun.
    rewrite (paginate_raises _ _ _ _ (p - 1) fuel 1) in Hrun;
      replace (1 + (p - 1)) with p in * by lia; [| | done | lia].
    + by injection Hrun as -> _.
    + intros j Hj. apply Hfull. lia.
  - rewrite listing_fails_at_from_1,
      <-(paginate_raises_iff (alerts_url org repo) (repo_alerts api org repo token)
           (map (tag_repository repo)) (fun _ => alerts_failure) 1 []). split.
    + intros (fuel & e & Hout). exists fuel, e. eexists.
      rewrite <-fetch_paginate, Hout. done.
    + intros (fuel & e & urls & Hrun). exists fuel, e.
      rewrite <-fetch_paginate in Hrun. by injection Hrun as -> _.
  - rewrite listing_ends_at_from_1,
      <-(paginate_returns_iff (alerts_url org repo) (repo_alerts api org repo token)
           (map (tag_repository repo)) (fun _ => alerts_failure) 1 []). split.
    + intros (fuel & alerts & Hout). exists fuel, alerts. eexists.
      rewrite <-fetch_paginate, Hout. done.
    + intros (fuel & alerts & urls & Hrun). exists fuel, alerts.
      rewrite <-fetch_paginate in Hrun. by injection Hrun as -> _.
Qed.

(** The outcomes of the lister, from the pages of the server. *)
Lemma listing_outcomes (api : github) (token org : string) :
  (∀ p fuel,
     listing_fails_at (org_repos api org token) p → p ≤ fuel →
     listing_outcome api fuel org token
       = Raise (repos_failure org token p (org_repos api org token p)))
  ∧ ((∃ fuel e, listing_outcome api fuel org token = Raise e) ↔
     (∃ p, listing_fails_at (org_repos api org token) p))
  ∧ ((∃ fuel repos, listing_outcome api fuel org token = Return repos) ↔
     (∃ k, listing_ends_at (org_repos api org token) k)).
Proof.
  split; [|split].
  - intros p fuel (Hp & Hfailed & Hfull) Hfuel.
    pose proof (listing_paginate api fuel org token) as Hrun.
    rewrite (paginate_raises _ _ _ _ (p - 1) fuel 1) in Hrun;
      replace (1 + (p - 1)) with p in * by lia; [| | done | lia].
    + by injection Hrun as -> _.
    + intros j Hj. apply Hfull. lia.
  - rewrite listing_fails_at_from_1,
      <-(paginate_raises_iff (repos_url org) (org_repos api org token)
           unarchived_names (repos_failure org token) 1 []). split.
    + intros (fuel & e & Hout). exists fuel, e. eexists.
      rewrite <-listing_paginate, Hout. done.
    + intros (fuel & e & urls & Hrun). exists fuel, e.
      rewrite <-listing_paginate in Hrun. by injection Hrun as -> _.
  - rewrite listing_ends_at_from_1,
      <-(paginate_returns_iff (repos_url org) (org_repos api org token)
           unarchived_names (repos_failure org token) 1 []). split.
    + intros (fuel & repos & Hout). exists fuel, repos. eexists.
      rewrite <-listing_paginate, Hout. done.
    + intros (fuel & repos & urls & Hrun). exists fuel, repos.
      rewrite <-listing_paginate in Hrun. by injection Hrun as -> _.
Qed.

(** C7, as the code has it.  In the alert fetcher and in the repository
    lister alike: when the request for page [p] is answered with a status
    other than 200, the call raises a plain [Exception] whose message
    carries that status code and reason (the lister adds the URL and the
    request headers), returns no list, writes no file and prints
    nothing; the call raises exactly when such a page is reached; and it
    returns, given enough fuel, exactly when an empty page answered with
    200 is reached through pages answered with 200. *)
Theorem page_failure_aborts_listing (api : github) (token org repo : string) :
  (∀ (p fuel : nat) (w : world),
     listing_fails_at (repo_alerts api org repo token) p →
     p ≤ fuel →
     ∃ w',
       get_dependabot_alerts_from_repository api fuel token org repo w =
         (Raise (Exception
                   ("API call failed with status code "
                      +:+ pretty (status_code (repo_alerts api org repo token p))
                      +:+ ", " +:+ reason (repo_alerts api org repo token p))), w')
       ∧ fs w' = fs w ∧ stdout w' = stdout w)
  ∧ (∀ w : world,
       (∃ fuel e w',
          get_dependabot_alerts_from_repository api fuel token org repo w =
            (Raise e, w')) ↔
       (∃ p, listing_fails_at (repo_alerts api org repo token) p))
  ∧ (∀ w : world,
       (∃ fuel alerts w',
          get_dependabot_alerts_from_repository api fuel token org repo w =
            (Return alerts, w')) ↔
       (∃ k, listing_ends_at (repo_alerts api org repo token) k))
  ∧ (∀ (p fuel : nat) (w : world),
       listing_fails_at (org_repos api org token) p →
       p ≤ fuel →
       ∃ w',
         list_repositories_in_organisation api fuel org token w =
           (Raise (Exception
                     ("API call failed with status code "
                        +:+ pretty (status_code (org_repos api org token p))
                        +:+ ", " +:+ reason (org_repos api org token p)
                        +:+ "." +:+ " " +:+ repos_url org p +:+ " "
                        +:+ py_repr_dict (headers_of token))), w')
         ∧ fs w' = fs w ∧ stdout w' = stdout w)
  ∧ (∀ w : world,
       (∃ fuel e w',
          list_repositories_in_organisation api fuel org token w =
            (Raise e, w')) ↔
       (∃ p, listing_fails_at (org_repos api org token) p))
  ∧ (∀ w : world,
       (∃ fuel repos w',
          list_repositories_in_organisation api fuel org token w =
            (Return repos, w')) ↔
       (∃ k, listing_ends_at (org_repos api org token) k)).
Proof.
  destruct (fetch_outcomes api token org repo) as (Hfetch & Hfetch_raise & Hfetch_ret).
  destruct (listing_outcomes api token org) as (Hlist & Hlist_raise & Hlist_ret).
  split; [|split; [|split; [|split; [|split]]]].
  - intros p fuel w Hp Hfuel. eexists.
    rewrite fetch_run, (Hfetch p fuel Hp Hfuel). by split.
  - intros w. rewrite <-Hfetch_raise. split.
    + intros (fuel & e & w' & Hrun). rewrite fetch_run in Hrun.
      exists fuel, e. by injection Hrun as -> _.
    + intros (fuel & e & Hout). exists fuel, e. eexists.
      by rewrite fetch_run, Hout.
  - intros w. rewrite <-Hfetch_ret. split.
    + intros (fuel & alerts & w' & Hrun). rewrite fetch_run in Hrun.
      exists fuel, alerts. by injection Hrun as -> _.
    + intros (fuel & alerts & Hout). exists fuel, alerts. eexists.
      by rewrite fetch_run, Hout.
  - intros p fuel w Hp Hfuel. eexists.
    rewrite listing_run, (Hlist p fuel Hp Hfuel). by split.
  - intros w. rewrite <-Hlist_raise. split.
    + intros (fuel & e & w' & Hrun). rewrite listing_run in Hrun.
      exists fuel, e. by injection Hrun as -> _.
    + intros (fuel & e & Hout). exists fuel, e. eexists.
      by rewrite listing_run, Hout.
  - intros w. rewrite <-Hlist_ret. split.
    + intros (fuel & repos & w' & Hrun). rewrite listing_run in Hrun.
      exists fuel, repos. by injection Hrun as -> _.
    + intros (fuel & repos & Hout). exists fuel, repos. eexists.
      by rewrite listing_run, Hout.
Qed.

(** ** Counting page requests *)

Lemma ceil_div_100 (N : nat) :
  N ≤ 100 * ceil_div N 100 ∧ 100 * ceil_div N 100 < N + 100.
Proof.
  unfold ceil_div.
  pose proof (Nat.div_mod_eq (N + 100 - 1) 100).
  pose proof (Nat.mod_upper_bound (N + 100 - 1) 100). lia.
Qed.

Section Serving.
Context {A : Type}.
Variable respond : nat → response A.
Variable items : list A.
Hypothesis Hserves : serves respond items.

Lemma serves_pages (n : nat) :
  flat_map (fun j => body (respond j)) (seq 1 n) = take (100 * n) items.
Proof.
  induction n as [|n IH]; [done|].
  rewrite seq_S, flat_map_app, IH. cbn [flat_map]. rewrite app_nil_r.
  change (1 + n) with (S n).
  destruct (Hserves (S n) ltac:(lia)) as [_ ->]. unfold page_slice.
  replace (S n - 1) with n by lia. rewrite take_take_drop. f_equal. lia.
Qed.

Lemma serves_full_page (j : nat) :
  1 ≤ j ≤ ceil_div (length items) 100 → full_page (respond j).
Proof.
  intros Hj. destruct (Hserves j ltac:(lia)) as [Hstatus Hbody].
  split; [done|]. rewrite Hbody. unfold page_slice. intros Hnil.
  apply (f_equal length) in Hnil. rewrite length_take, length_drop in Hnil.
  pose proof (ceil_div_100 (length items)). change (length []) with 0 in Hnil. lia.
Qed.

Lemma serves_last_page :
  last_page (respond (1 + ceil_div (length items) 100)).
Proof.
  destruct (Hserves (1 + ceil_div (length items) 100) ltac:(lia)) as [Hstatus Hbody].
  split; [done|]. rewrite Hbody. unfold page_slice.
  replace (1 + ceil_div (length items) 100 - 1) with (ceil_div (length items) 100) by lia.
  rewrite drop_ge; [done|]. apply ceil_div_100.
Qed.

(** A listing of [N] items costs [ceil (N / 100)] full pages and one
    empty page. *)
Lemma paginate_serves {B} (url_of : nat → string) (collect : list A → list B)
    (failure : nat → response A → exn) (fuel : nat) :
  collect [] = [] →
  (∀ l1 l2, collect (l1 ++ l2) = collect l1 ++ collect l2) →
  ceil_div (length items) 100 < fuel →
  paginate url_of respond collect failure fuel 1 [] =
    (Return (collect items),
     url_of <$> seq 1 (S (ceil_div (length items) 100))).
Proof.
  intros Hnil Happ Hfuel.
  rewrite (paginate_returns _ _ _ _ (ceil_div (length items) 100)); [| |
    apply serves_last_page | done].
  - rewrite collect_pages_hom, serves_pages by done.
    rewrite take_ge by apply ceil_div_100. done.
  - intros j Hj. apply serves_full_page. lia.
Qed.
End Serving.

Lemma unarchived_names_app (l1 l2 : list repo_entry) :
  unarchived_names (l1 ++ l2) = unarchived_names l1 ++ unarchived_names l2.
Proof. unfold unarchived_names. by rewrite filter_app, map_app. Qed.

Lemma add_requests_log (urls : list string) (w : world) :
  fs (add_requests urls w) = fs w
  ∧ stdout (add_requests urls w) = stdout w
  ∧ length (http_log (add_requests urls w)) = length (http_log w) + length urls.
Proof. unfold add_requests. simpl. by rewrite length_app. Qed.

(** C4, as the code has it.  Against a server that lists [N] items 100
    per page, each listing returns after exactly [ceil (N / 100) + 1]
    page requests: the alert fetcher with all [N] alerts, each tagged with
    its repository, the repository lister with the names of those of
    the [N] repositories that are not archived. *)
Theorem paginated_listing_page_requests (api : github) (token org repo : string)
    (alerts : list alert) (repos : list repo_entry) (fuel : nat) (w : world) :
  serves (repo_alerts api org repo token) alerts →
  serves (org_repos api org token) repos →
  ceil_div (length alerts) 100 < fuel →
  ceil_div (length repos) 100 < fuel →
  (∃ fetched w',
     get_dependabot_alerts_from_repository api fuel token org repo w = (Return fetched, w')
     ∧ fetched = map (tag_repository repo) alerts
     ∧ length fetched = length alerts
     ∧ length (http_log w') = length (http_log w) + (ceil_div (length alerts) 100 + 1))
  ∧ (∃ names w',
       list_repositories_in_organisation api fuel org token w = (Return names, w')
       ∧ names = unarchived_names repos
       ∧ length (http_log w') = length (http_log w) + (ceil_div (length repos) 100 + 1)).
Proof.
  intros Halerts Hrepos Hfuel_alerts Hfuel_repos. split.
  - pose proof (fetch_paginate api fuel token org repo) as Hrun.
    rewrite (paginate_serves _ alerts Halerts) in Hrun;
      [| done | apply map_app | done].
    pose proof (f_equal fst Hrun) as Hout. pose proof (f_equal snd Hrun) as Hreq.
    cbn [fst snd] in Hout, Hreq. do 2 eexists.
    rewrite fetch_run, Hout. split; [done|]. split; [done|].
    split; [apply length_map|].
    rewrite (proj2 (proj2 (add_requests_log _ w))), Hreq.
    rewrite length_fmap, length_seq. lia.
  - pose proof (listing_paginate api fuel org token) as Hrun.
    rewrite (paginate_serves _ repos Hrepos) in Hrun;
      [| done | apply unarchived_names_app | done].
    pose proof (f_equal fst Hrun) as Hout. pose proof (f_equal snd Hrun) as Hreq.
    cbn [fst snd] in Hout, Hreq. do 2 eexists.
    rewrite listing_run, Hout. split; [done|]. split; [done|].
    rewrite (proj2 (proj2 (add_requests_log _ w))), Hreq.
    rewrite length_fmap, length_seq. lia.
Qed.

Lemma sample_github_serves (org token : string) :
  serves (repo_alerts sample_github org "B" token) [sample_alert]
  ∧ serves (org_repos sample_github org token) sample_repos.
Proof.
  split; intros p Hp; (split; [done|]);
    (destruct p as [|[|p]]; [lia | done |]);
    unfold page_slice; (rewrite drop_ge; [done | simpl length; lia]).
Qed.

(** ** The orchestrator *)

Section OrchestratorFacts.
Variable api : github.
Variables (fuel : nat) (org token : string).

#[local] Abbreviation outcome_of := (fetch_outcome api fuel token org).
#[local] Abbreviation alerts_of := (fetched_alerts api fuel token org).
#[local] Abbreviation succeeds := (fetch_succeeds api fuel token org).

(** The loop over the repositories: every fetch that ends, well or
    badly, leaves a line; only the good ones leave alerts. *)
Lemma fetch_each_run (n i : nat) (repos : list string) (acc : list alert) (w : world) :
  (∀ repo, repo ∈ repos → outcome_of repo ≠ Timeout) →
  ∃ urls,
    fetch_each api fuel org token n i repos acc w =
      (Return (acc ++ flat_map alerts_of repos),
       {| fs := fs w;
          stdout := stdout w ++ progress_lines api fuel token org n i repos;
          http_log := http_log w ++ urls |}).
Proof.
  revert i acc w. induction repos as [|repo rest IH]; intros i acc w Hends.
  - exists []. destruct w. simpl. by rewrite !app_nil_r.
  - assert (∀ r, r ∈ rest → outcome_of r ≠ Timeout) as Hrest
      by (intros r Hr; apply Hends; by right).
    pose proof (Hends repo ltac:(left)) as Hrepo.
    cbn [fetch_each progress_lines flat_map].
    unfold bind at 1, try_except, bind at 1. rewrite fetch_run.
    unfold progress_line, fetched_alerts.
    destruct (outcome_of repo) as [fetched|e|] eqn:Hout; [| |done].
    + unfold bind, print, ret. cbn [fs stdout http_log add_requests].
      destruct (IH (S i) (acc ++ fetched)
                  {| fs := fs w; stdout := stdout w ++ [fetched_line i n repo];
                     http_log := http_log w ++ fetch_requests api fuel token org repo |}
                  Hrest) as [urls ->].
      exists (fetch_requests api fuel token org repo ++ urls).
      cbn [fs stdout http_log]. by rewrite <-!app_assoc.
    + unfold bind, print, ret. cbn [fs stdout http_log add_requests].
      destruct (IH (S i) acc
                  {| fs := fs w; stdout := stdout w ++ [error_line i n repo e];
                     http_log := http_log w ++ fetch_requests api fuel token org repo |}
                  Hrest) as [urls ->].
      exists (fetch_requests api fuel token org repo ++ urls).
      cbn [fs stdout http_log]. by rewrite <-!app_assoc.
Qed.

Lemma progress_lines_error (n i k : nat) (repos : list string) (repo : string) (e : exn) :
  repos !! k = Some repo →
  outcome_of repo = Raise e →
  error_line (i + k) n repo e ∈ progress_lines api fuel token org n i repos.
Proof.
  revert i k. induction repos as [|r rest IH]; intros i k Hk Hout; [done|].
  destruct k as [|k]; simpl in Hk.
  - injection Hk as ->. rewrite Nat.add_0_r. simpl. unfold progress_line.
    rewrite Hout. left.
  - simpl. right. replace (i + S k) with (S i + k) by lia. by apply IH.
Qed.

(** A failed fetch contributes what a repository without alerts does. *)
Lemma failed_fetch_contributes_nothing (repos : list string) :
  flat_map alerts_of (filter succeeds repos) = flat_map alerts_of repos.
Proof.
  induction repos as [|repo rest IH]; [done|].
  rewrite filter_cons. destruct (decide (succeeds repo)) as [Hok | Hfailed]; simpl.
  - by rewrite IH.
  - rewrite IH. unfold fetched_alerts at 2.
    destruct (outcome_of repo) as [fetched| |] eqn:Hout; [|done..].
    destruct Hfailed. exists fetched. done.
Qed.

(** A run that finds no checkpoint and lists the repositories. *)
Lemma generate_raw_alerts_table_fresh (repos : list string) (w : world) :
  fs w !! raw_alerts_csv = None →
  listing_outcome api fuel org token = Return repos →
  (∀ repo, repo ∈ repos → outcome_of repo ≠ Timeout) →
  ∃ urls,
    generate_raw_alerts_table api fuel org token w =
      (Return tt,
       {| fs := <[raw_alerts_csv := json_normalize (flat_map alerts_of repos)]> (fs w);
          stdout := stdout w
                      ++ ["Generating raw alerts table...";
                          "Found " +:+ pretty (length repos) +:+ " repositories"]
                      ++ progress_lines api fuel token org (length repos) 0 repos;
          http_log := http_log w ++ urls |}).
Proof.
  intros Habsent Hlist Hends. unfold generate_raw_alerts_table.
  unfold bind at 1, os_path_exists. rewrite Habsent.
  rewrite bool_decide_eq_false_2 by (by intros [? ?]).
  unfold bind at 1, print. unfold bind at 1. rewrite listing_run, Hlist.
  unfold bind at 1, bind at 1.
  destruct (fetch_each_run (length repos) 0 repos []
              (add_requests (listing_requests api fuel org token)
                 {| fs := fs w; stdout := (stdout w ++ ["Generating raw alerts table..."])
                                            ++ ["Found " +:+ pretty (length repos)
                                                  +:+ " repositories"];
                    http_log := http_log w |}) Hends) as [urls Hrun].
  unfold add_requests in Hrun. cbn [fs stdout http_log] in Hrun.
  unfold add_requests. cbn [fs stdout http_log]. rewrite Hrun.
  exists (listing_requests api fuel org token ++ urls).
  unfold write_file. cbn [fs stdout http_log]. by rewrite <-!app_assoc.
Qed.
End OrchestratorFacts.

(** A run that returns leaves a checkpoint behind. *)
Lemma generate_raw_alerts_table_checkpoint (api : github) (fuel : nat)
    (org token : string) (w w1 : world) :
  generate_raw_alerts_table api fuel org token w = (Return tt, w1) →
  is_Some (fs w1 !! raw_alerts_csv).
Proof.
  unfold generate_raw_alerts_table. unfold bind at 1, os_path_exists.
  destruct (fs w !! raw_alerts_csv) as [checkpoint|] eqn:Hfile.
  - rewrite bool_decide_eq_true_2 by done. unfold print. intros [= <-]. by simpl.
  - rewrite bool_decide_eq_false_2 by (by intros [? ?]).
    unfold bind at 1, print. unfold bind at 1. rewrite listing_run.
    destruct (listing_outcome api fuel org token) as [repos| |]; [|done..].
    unfold bind at 1, bind at 1.
    destruct (fetch_each _ _ _ _ _ _ _ _ _) as [[alerts| |] w2]; [|done..].
    unfold write_file. intros [= <-]. simpl. by rewrite lookup_insert_eq.
Qed.

Lemma generate_raw_alerts_table_skip (api : github) (fuel : nat)
    (org token : string) (w : world) :
  is_Some (fs w !! raw_alerts_csv) →
  generate_raw_alerts_table api fuel org token w =
    (Return tt,
     {| fs := fs w;
        stdout := stdout w ++ ["Raw alerts file already exists, skipping..."];
        http_log := http_log w |}).
Proof.
  intros Hfile. unfold generate_raw_alerts_table, bind, os_path_exists.
  by rewrite bool_decide_eq_true_2.
Qed.

(** C6. When the checkpoint file exists, the extraction orchestrator
    returns at once: it requests nothing and leaves every file as it was.
    So a run that follows a run that returned changes no file and
    requests nothing. *)
Theorem existing_checkpoint_skips_extraction (api : github) (fuel : nat)
    (org token : string) (w : world) :
  (∀ checkpoint : table,
     fs w !! raw_alerts_csv = Some checkpoint →
     ∃ w', generate_raw_alerts_table api fuel org token w = (Return tt, w')
           ∧ http_log w' = http_log w
           ∧ fs w' = fs w
           ∧ fs w' !! raw_alerts_csv = Some checkpoint)
  ∧ (∀ w1 : world,
       generate_raw_alerts_table api fuel org token w = (Return tt, w1) →
       ∃ w2, generate_raw_alerts_table api fuel org token w1 = (Return tt, w2)
             ∧ http_log w2 = http_log w1
             ∧ fs w2 = fs w1).
Proof.
  split.
  - intros checkpoint Hfile. eexists.
    rewrite generate_raw_alerts_table_skip by (by rewrite Hfile). done.
  - intros w1 Hrun. apply generate_raw_alerts_table_checkpoint in Hrun.
    eexists. by rewrite generate_raw_alerts_table_skip.
Qed.

(** C8. Without a checkpoint, once the repositories are listed: every
    repository whose fetch raises leaves the line that names its position
    and the error, the loop goes on, and the checkpoint written is the
    flattening of the alerts of the repositories whose fetch returned, in
    order; it is what would be written had the failed repositories had
    no alerts. *)
Theorem failed_fetches_are_skipped (api : github) (fuel : nat)
    (org token : string) (w : world) (repos : list string) :
  fs w !! raw_alerts_csv = None →
  listing_outcome api fuel org token = Return repos →
  (∀ repo, repo ∈ repos → fetch_outcome api fuel token org repo ≠ Timeout) →
  ∃ w',
    generate_raw_alerts_table api fuel org token w = (Return tt, w')
    ∧ fs w' =
        <[raw_alerts_csv :=
            json_normalize
              (flat_map (fetched_alerts api fuel token org)
                 (filter (fetch_succeeds api fuel token org) repos))]> (fs w)
    ∧ flat_map (fetched_alerts api fuel token org)
        (filter (fetch_succeeds api fuel token org) repos)
      = flat_map (fetched_alerts api fuel token org) repos
    ∧ (∀ (i : nat) (repo : string) (e : exn),
         repos !! i = Some repo →
         fetch_outcome api fuel token org repo = Raise e →
         error_line i (length repos) repo e ∈ stdout w').
Proof.
  intros Habsent Hlist Hends.
  destruct (generate_raw_alerts_table_fresh api fuel org token repos w
              Habsent Hlist Hends) as [urls ->].
  eexists. split; [done|]. cbn [fs stdout].
  rewrite failed_fetch_contributes_nothing. split; [done|]. split; [done|].
  intros i repo e Hi Hout. rewrite !elem_of_app. right. right.
  by apply (progress_lines_error api fuel org token (length repos) 0 i repos).
Qed.

(** C9. Without a checkpoint, when listing the repositories raises, the
    orchestrator raises the same exception and no file has changed: there
    is still no checkpoint. *)
Theorem listing_failure_leaves_no_checkpoint (api : github) (fuel : nat)
    (org token : string) (w : world) (e : exn) :
  fs w !! raw_alerts_csv = None →
  listing_outcome api fuel org token = Raise e →
  ∃ w',
    generate_raw_alerts_table api fuel org token w = (Raise e, w')
    ∧ fs w' = fs w
    ∧ fs w' !! raw_alerts_csv = None.
Proof.
  intros Habsent Hlist. unfold generate_raw_alerts_table.
  unfold bind at 1, os_path_exists. rewrite Habsent.
  rewrite bool_decide_eq_false_2 by (by intros [? ?]).
  unfold bind at 1, print. unfold bind at 1. rewrite listing_run, Hlist.
  eexists. split; [done|]. by cbn [fs add_requests].
Qed.

(** Loading a checkpoint that has no columns raises, and nothing is
    written. *)
Lemma generate_processed_alert_tables_no_columns
    (cast_varchar : value → option (option string))
    (cast_integer cast_timestamp : value → option (option Z))
    (w : world) (checkpoint : table) :
  fs w !! raw_alerts_csv = Some checkpoint →
  columns checkpoint = [] →
  generate_processed_alert_tables cast_varchar cast_integer cast_timestamp w =
    (Raise EmptyDataError,
     {| fs := fs w; stdout := stdout w ++ ["Generating processed alert tables..."];
        http_log := http_log w |}).
Proof.
  intros Hfile Hcolumns.
  unfold generate_processed_alert_tables, bind, print, read_csv. cbn [fs].
  by rewrite Hfile, Hcolumns.
Qed.

(** Were such a checkpoint loaded all the same, projecting it onto the
    fixed columns would raise: none of them is there. *)
Lemma select_columns_no_columns (df : table) (w : world) :
  columns df = [] →
  select_columns fixed_columns df w = (Raise (KeyError fixed_columns), w).
Proof. intros Hcolumns. unfold select_columns. by rewrite Hcolumns. Qed.

(** C10. Without a checkpoint, when the repositories are listed and no
    fetch brings an alert, the checkpoint is written as the table without
    columns; the aggregation engine then raises when it loads it, and
    writes no file; so does the whole job. *)
Theorem empty_checkpoint_aborts_aggregation (api : github) (fuel : nat)
    (org token : string) (w : world) (repos : list string)
    (cast_varchar : value → option (option string))
    (cast_integer cast_timestamp : value → option (option Z)) :
  fs w !! raw_alerts_csv = None →
  listing_outcome api fuel org token = Return repos →
  (∀ repo, repo ∈ repos → fetch_outcome api fuel token org repo ≠ Timeout) →
  (∀ repo, repo ∈ repos → fetched_alerts api fuel token org repo = []) →
  (∃ w1 w2,
     generate_raw_alerts_table api fuel org token w = (Return tt, w1)
     ∧ fs w1 = <[raw_alerts_csv := {| columns := []; rows := [] |}]> (fs w)
     ∧ generate_processed_alert_tables cast_varchar cast_integer cast_timestamp w1
       = (Raise EmptyDataError, w2)
     ∧ fs w2 = fs w1
     ∧ (∀ path, path ∈ report_paths → fs w2 !! path = fs w !! path))
  ∧ (∃ w3,
       main api cast_varchar cast_integer cast_timestamp fuel token org w
         = (Raise EmptyDataError, w3)
       ∧ fs w3 = <[raw_alerts_csv := {| columns := []; rows := [] |}]> (fs w)).
Proof.
  intros Habsent Hlist Hends Hnone.
  assert (flat_map (fetched_alerts api fuel token org) repos = []) as Hflat.
  { clear -Hnone. induction repos as [|repo rest IH]; [done|]. simpl.
    rewrite (Hnone repo) by left. apply IH. intros r Hr. apply Hnone. by right. }
  split.
  - destruct (generate_raw_alerts_table_fresh api fuel org token repos w
                Habsent Hlist Hends) as [urls ->].
    rewrite Hflat. do 2 eexists. split; [done|]. cbn [fs json_normalize].
    split; [done|].
    rewrite (generate_processed_alert_tables_no_columns _ _ _ _
               {| columns := []; rows := [] |});
      [| cbn [fs]; apply lookup_insert_eq | done].
    split; [done|]. cbn [fs]. split; [done|].
    intros path Hpath. apply lookup_insert_ne. intros <-.
    revert Hpath. by apply (bool_decide_unpack _).
  - unfold main. unfold bind at 1, print. unfold bind at 1.
    destruct (generate_raw_alerts_table_fresh api fuel org token repos
                {| fs := fs w;
                   stdout := stdout w
                               ++ ["Generating tables for critical dependabot alerts..."];
                   http_log := http_log w |}
                Habsent Hlist Hends) as [urls ->].
    rewrite Hflat. cbn [fs json_normalize]. unfold bind at 1.
    rewrite (generate_processed_alert_tables_no_columns _ _ _ _
               {| columns := []; rows := [] |});
      [| cbn [fs]; apply lookup_insert_eq | done].
    eexists. split; [done|]. done.
Qed.

(** * The statements, run on the sample inputs *)

Lemma paginated_listing_page_requests_witness :
  serves (repo_alerts sample_github "acme" "B" "t") [sample_alert]
  ∧ serves (org_repos sample_github "acme" "t") sample_repos
  ∧ ceil_div (length [sample_alert]) 100 < 5
  ∧ ceil_div (length sample_repos) 100 < 5
  ∧ (∃ fetched w',
       get_dependabot_alerts_from_repository sample_github 5 "t" "acme" "B" initial_world
         = (Return fetched, w')
       ∧ length fetched = 1
       ∧ length (http_log w') = 2)
  ∧ (∃ names w',
       list_repositories_in_organisation sample_github 5 "acme" "t" initial_world
         = (Return names, w')
       ∧ names = ["B"; "C"]
       ∧ length (http_log w') = 2).
Proof.
  pose proof (sample_github_serves "acme" "t") as [Halerts Hrepos].
  assert (ceil_div (length [sample_alert]) 100 < 5) as Hfuel_alerts
    by (vm_compute; lia).
  assert (ceil_div (length sample_repos) 100 < 5) as Hfuel_repos
    by (vm_compute; lia).
  do 4 (split; [assumption|]).
  destruct (paginated_listing_page_requests sample_github "t" "acme" "B"
              [sample_alert] sample_repos 5 initial_world
              Halerts Hrepos Hfuel_alerts Hfuel_repos)
    as [(fetched & w1 & Hrun1 & _ & Hlen & Hlog1) (names & w2 & Hrun2 & Hnames & Hlog2)].
  split.
  - exists fetched, w1. split; [exact Hrun1|]. split; [exact Hlen | exact Hlog1].
  - exists names, w2. split; [exact Hrun2|]. split; [exact Hnames | exact Hlog2].
Defined.

(** C4, as stated, at a repository with one alert and at an organisation
    with three repositories, one of them archived: the formula
    [ceil ((N + 1) / 100)] gives one page request where the code makes
    two, and the lister collects two names, not three. *)
Lemma claimed_page_requests_fail :
  let fetched :=
    get_dependabot_alerts_from_repository sample_github 5 "t" "acme" "B" initial_world in
  let listed :=
    list_repositories_in_organisation sample_github 5 "acme" "t" initial_world in
  serves (repo_alerts sample_github "acme" "B" "t") [sample_alert]
  ∧ fetched.1 = Return [tag_repository "B" sample_alert]
  ∧ length (http_log fetched.2) = 2
  ∧ length (http_log fetched.2) ≠ ceil_div (length [sample_alert] + 1) 100
  ∧ serves (org_repos sample_github "acme" "t") sample_repos
  ∧ listed.1 = Return ["B"; "C"]
  ∧ length (http_log listed.2) = 2
  ∧ length (http_log listed.2) ≠ ceil_div (length sample_repos + 1) 100
  ∧ length ["B"; "C"] ≠ length sample_repos.
Proof.
  pose proof (sample_github_serves "acme" "t") as [Halerts Hrepos].
  split; [exact Halerts|]. split; [reflexivity|]. split; [reflexivity|].
  split; [by vm_compute|]. split; [exact Hrepos|]. split; [reflexivity|].
  split; [reflexivity|]. split; by vm_compute.
Qed.

Lemma existing_checkpoint_skips_extraction_witness :
  fs world_with_checkpoint !! raw_alerts_csv
    = Some (json_normalize [tag_repository "B" sample_alert])
  ∧ ∃ w',
      generate_raw_alerts_table sample_github 5 "acme" "t" world_with_checkpoint
        = (Return tt, w')
      ∧ http_log w' = http_log world_with_checkpoint
      ∧ fs w' = fs world_with_checkpoint.
Proof.
  assert (fs world_with_checkpoint !! raw_alerts_csv
          = Some (json_normalize [tag_repository "B" sample_alert])) as Hfile
    by apply lookup_singleton_eq.
  split; [exact Hfile|].
  destruct (existing_checkpoint_skips_extraction sample_github 5 "acme" "t"
              world_with_checkpoint) as [Hskip _].
  destruct (Hskip _ Hfile) as (w' & Hrun & Hlog & Hfs & _).
  exists w'. split; [exact Hrun|]. split; [exact Hlog | exact Hfs].
Defined.

Lemma page_failure_aborts_listing_witness :
  listing_fails_at (repo_alerts sample_github "acme" "C" "t") 1
  ∧ listing_fails_at (org_repos unauthorized_github "acme" "t") 1
  ∧ listing_ends_at (repo_alerts sample_github "acme" "B" "t") 2
  ∧ (∃ w',
       get_dependabot_alerts_from_repository sample_github 5 "t" "acme" "C" initial_world
         = (Raise (Exception
                     "API call failed with status code 500, Internal Server Error"), w')
       ∧ fs w' = fs initial_world)
  ∧ (∃ w',
       list_repositories_in_organisation unauthorized_github 5 "acme" "t" initial_world
         = (Raise (repos_failure "acme" "t" 1
                     (org_repos unauthorized_github "acme" "t" 1)), w')
       ∧ fs w' = fs initial_world)
  ∧ (∃ fuel alerts w',
       get_dependabot_alerts_from_repository sample_github fuel "t" "acme" "B" initial_world
         = (Return alerts, w')).
Proof.
  assert (listing_fails_at (repo_alerts sample_github "acme" "C" "t") 1) as Hfails.
  { split; [lia|]. split; [done|]. intros j Hj. lia. }
  assert (listing_fails_at (org_repos unauthorized_github "acme" "t") 1) as Hrefused.
  { split; [lia|]. split; [done|]. intros j Hj. lia. }
  assert (listing_ends_at (repo_alerts sample_github "acme" "B" "t") 2) as Hends.
  { split; [lia|]. split; [done|]. intros j Hj. assert (j = 1) as -> by lia. done. }
  do 3 (split; [assumption|]).
  destruct (page_failure_aborts_listing sample_github "t" "acme" "C") as [Hraise _].
  destruct (page_failure_aborts_listing unauthorized_github "t" "acme" "C")
    as (_ & _ & _ & Hraise_listing & _).
  destruct (page_failure_aborts_listing sample_github "t" "acme" "B")
    as (_ & _ & Hreturns & _).
  split; [|split].
  - destruct (Hraise 1 5 initial_world Hfails) as (w' & Hrun & Hfs & _); [lia|].
    exists w'. split; [exact Hrun | exact Hfs].
  - destruct (Hraise_listing 1 5 initial_world Hrefused) as (w' & Hrun & Hfs & _); [lia|].
    exists w'. split; [exact Hrun | exact Hfs].
  - apply (Hreturns initial_world). by exists 2.
Defined.

(** C7, as stated, against a server whose every answer has a success
    status other than 200: every page request succeeds, yet both calls
    raise at the first page and never return; what is raised is a plain
    [Exception] that holds a message and nothing else. *)
Lemma claimed_success_status_fail :
  let fetched :=
    get_dependabot_alerts_from_repository no_content_github 5 "t" "acme" "B" initial_world in
  let listed :=
    list_repositories_in_organisation no_content_github 5 "acme" "t" initial_world in
  (∀ p, http_success (status_code (repo_alerts no_content_github "acme" "B" "t" p)))
  ∧ fetched.1 = Raise (Exception "API call failed with status code 204, No Content")
  ∧ (∀ fuel alerts, fetch_outcome no_content_github fuel "t" "acme" "B" ≠ Return alerts)
  ∧ (∀ p, http_success (status_code (org_repos no_content_github "acme" "t" p)))
  ∧ listed.1 =
      Raise (Exception
               ("API call failed with status code 204, No Content."
                  +:+ " https://api.github.com/orgs/acme/repos?page=1&per_page=100"
                  +:+ " {'Authorization': 'token t',"
                  +:+ " 'Accept': 'application/vnd.github.v3+json'}"))
  ∧ (∀ fuel repos, listing_outcome no_content_github fuel "acme" "t" ≠ Return repos).
Proof.
  cbv zeta. split; [intros p; unfold http_success; simpl; lia|].
  split; [reflexivity|]. split; [by intros [|fuel] alerts|].
  split; [intros p; unfold http_success; simpl; lia|].
  split; [reflexivity|]. by intros [|fuel] repos.
Qed.

Lemma failed_fetches_are_skipped_witness :
  fs initial_world !! raw_alerts_csv = None
  ∧ listing_outcome sample_github 5 "acme" "t" = Return ["B"; "C"]
  ∧ ∃ w',
      generate_raw_alerts_table sample_github 5 "acme" "t" initial_world
        = (Return tt, w')
      ∧ fs w' !! raw_alerts_csv
        = Some (json_normalize [tag_repository "B" sample_alert])
      ∧ " > 1/2 : Error fetching alerts for C: API call failed with status code 500, Internal Server Error"
          ∈ stdout w'.
Proof.
  split; [apply lookup_empty|]. split; [reflexivity|].
  destruct (failed_fetches_are_skipped sample_github 5 "acme" "t" initial_world
              ["B"; "C"]) as (w' & Hrun & Hfs & _ & Hlog);
    [apply lookup_empty | reflexivity | |].
  { intros repo Hrepo.
    apply elem_of_cons in Hrepo as [-> | Hrepo]; [done|].
    apply elem_of_cons in Hrepo as [-> | Hrepo]; [done|].
    by apply elem_of_nil in Hrepo. }
  exists w'. split; [exact Hrun|]. split.
  - rewrite Hfs. apply lookup_insert_eq.
  - apply (Hlog 1 "C"
             (Exception "API call failed with status code 500, Internal Server Error"));
      reflexivity.
Defined.

Lemma listing_failure_leaves_no_checkpoint_witness :
  fs initial_world !! raw_alerts_csv = None
  ∧ listing_outcome unauthorized_github 5 "acme" "t"
    = Raise (repos_failure "acme" "t" 1 (org_repos unauthorized_github "acme" "t" 1))
  ∧ ∃ w',
      generate_raw_alerts_table unauthorized_github 5 "acme" "t" initial_world
        = (Raise (repos_failure "acme" "t" 1
                    (org_repos unauthorized_github "acme" "t" 1)), w')
      ∧ fs w' !! raw_alerts_csv = None.
Proof.
  split; [apply lookup_empty|]. split; [reflexivity|].
  destruct (listing_failure_leaves_no_checkpoint unauthorized_github 5 "acme" "t"
              initial_world
              (repos_failure "acme" "t" 1 (org_repos unauthorized_github "acme" "t" 1)))
    as (w' & Hrun & _ & Habsent); [apply lookup_empty | reflexivity |].
  exists w'. split; [exact Hrun | exact Habsent].
Defined.

Lemma empty_checkpoint_aborts_aggregation_witness :
  fs initial_world !! raw_alerts_csv = None
  ∧ listing_outcome quiet_github 5 "acme" "t" = Return ["B"]
  ∧ ∃ w1 w2,
      generate_raw_alerts_table quiet_github 5 "acme" "t" initial_world = (Return tt, w1)
      ∧ fs w1 = <[raw_alerts_csv := {| columns := []; rows := [] |}]> (fs initial_world)
      ∧ generate_processed_alert_tables
          sample_cast_varchar sample_cast_integer sample_cast_timestamp w1
        = (Raise EmptyDataError, w2)
      ∧ fs w2 = fs w1.
Proof.
  split; [apply lookup_empty|]. split; [reflexivity|].
  destruct (empty_checkpoint_aborts_aggregation quiet_github 5 "acme" "t"
              initial_world ["B"]
              sample_cast_varchar sample_cast_integer sample_cast_timestamp)
    as [(w1 & w2 & Hrun & Hfs & Hfail & Hsame & _) _];
    [apply lookup_empty | reflexivity | | |].
  { intros repo Hrepo. apply elem_of_cons in Hrepo as [-> | Hrepo]; [done|].
    by apply elem_of_nil in Hrepo. }
  { intros repo Hrepo. apply elem_of_cons in Hrepo as [-> | Hrepo]; [reflexivity|].
    by apply elem_of_nil in Hrepo. }
  exists w1, w2. split; [exact Hrun|]. split; [exact Hfs|].
  split; [exact Hfail | exact Hsame].
Defined.

(** The example of the specification: repository [A] is archived, [B] has
    one open critical alert, the fetch for [C] fails. *)
Example end_to_end_example :
  let w1 := (generate_raw_alerts_table sample_github 5 "acme" "t" initial_world).2 in
  let run := generate_processed_alert_tables
               sample_cast_varchar sample_cast_integer sample_cast_timestamp w1 in
  listing_outcome sample_github 5 "acme" "t" = Return ["B"; "C"]
  ∧ rows <$> fs w1 !! raw_alerts_csv
    = Some (rows (json_normalize [tag_repository "B" sample_alert]))
  ∧ run.1 = Return tt
  ∧ length <$> (rows <$> fs run.2 !! critical_alerts_csv) = Some 1
  ∧ rows <$> fs run.2 !! all_count_csv = Some [[VStr "B"; VInt 1; VInt 0; VInt 0]]
  ∧ rows <$> fs run.2 !! state_count_csv "dismissed" = Some []
  ∧ rows <$> fs run.2 !! alerts_by_date_csv
    = Some [[VTimestamp 1704067200000000; VStr "GHSA-1"]].
Proof. vm_compute. done. Qed.

(** * Further properties of the extraction phase *)

(** ** Assignment to a key of a dictionary *)

Lemma dict_get_set_eq {V} (k : string) (v : V) (d : dict V) :
  dict_get k (dict_set k v d) = Some v.
Proof.
  induction d as [|[k' v'] d IH]; simpl.
  - by rewrite String.eqb_refl.
  - destruct (String.eqb k k') eqn:E; simpl.
    + by rewrite String.eqb_refl.
    + by rewrite E.
Qed.

Lemma dict_get_set_ne {V} (k k' : string) (v : V) (d : dict V) :
  k ≠ k' → dict_get k' (dict_set k v d) = dict_get k' d.
Proof.
  intros Hne. induction d as [|[k0 v0] d IH]; simpl.
  - destruct (String.eqb_spec k' k); [congruence | done].
  - destruct (String.eqb_spec k k0) as [<- | Hk]; simpl.
    + destruct (String.eqb_spec k' k); [congruence | done].
    + destruct (String.eqb_spec k' k0); [done | apply IH].
Qed.

Lemma dict_keys_set {V} (k : string) (v : V) (d : dict V) :
  dict_keys (dict_set k v d) =
    if bool_decide (k ∈ dict_keys d) then dict_keys d else dict_keys d ++ [k].
Proof.
  induction d as [|[k' v'] d IH]; simpl; [done|].
  destruct (String.eqb_spec k k') as [<- | Hk]; simpl.
  - by rewrite bool_decide_eq_true_2 by left.
  - rewrite IH. destruct (bool_decide_reflect (k ∈ dict_keys d)) as [Hin | Hin].
    + by rewrite bool_decide_eq_true_2 by (by right).
    + rewrite bool_decide_eq_false_2; [done|].
      by intros [?|?]%elem_of_cons.
Qed.

Lemma dict_set_NoDup {V} (k : string) (v : V) (d : dict V) :
  NoDup (dict_keys d) → NoDup (dict_keys (dict_set k v d)).
Proof.
  intros Hnd. rewrite dict_keys_set.
  destruct (bool_decide_reflect (k ∈ dict_keys d)) as [Hin | Hin]; [done|].
  apply NoDup_app. split; [done|]. split; [|apply NoDup_singleton].
  intros x Hx ->%list_elem_of_singleton. done.
Qed.

(** X2. [d[k] = v] followed by [d[k]] reads [v]; every other key reads
    as before; and keys that were distinct stay distinct. *)
Theorem dict_set_then_get {V} (k : string) (v : V) (d : dict V) :
  dict_get k (dict_set k v d) = Some v
  ∧ (∀ k', k ≠ k' → dict_get k' (dict_set k v d) = dict_get k' d)
  ∧ (NoDup (dict_keys d) → NoDup (dict_keys (dict_set k v d))).
Proof.
  split; [apply dict_get_set_eq|]. split; [|apply dict_set_NoDup].
  intros k' Hk. by apply dict_get_set_ne.
Qed.

Lemma dict_set_then_get_witness :
  NoDup (dict_keys sample_alert)
  ∧ NoDup (dict_keys (dict_set "repository" (JStr "B") sample_alert)).
Proof.
  assert (NoDup (dict_keys sample_alert)) as Hnd
    by (apply (bool_decide_unpack _); reflexivity).
  split; [exact Hnd|].
  destruct (dict_set_then_get "repository" (JStr "B") sample_alert)
    as (_ & _ & Hkeys).
  exact (Hkeys Hnd).
Defined.

(** ** What the fetcher returns *)

(** What a listing that returned has collected, read off the pages. *)
Lemma fetch_Return_pages (api : github) (fuel : nat) (token org repo : string)
    (alerts : list alert) :
  fetch_outcome api fuel token org repo = Return alerts →
  ∃ n, n < fuel
       ∧ listing_ends_at (repo_alerts api org repo token) (1 + n)
       ∧ alerts = flat_map (fun j => map (tag_repository repo)
                                       (body (repo_alerts api org repo token j)))
                           (seq 1 n)
       ∧ fetch_requests api fuel token org repo = alerts_url org repo <$> seq 1 (S n).
Proof.
  intros Hout. pose proof (fetch_paginate api fuel token org repo) as Hrun.
  rewrite Hout in Hrun. symmetry in Hrun.
  apply paginate_Return_inv in Hrun as (n & Hn & Hfull & Hlast & Halerts & Hurls).
  exists n. split; [done|]. split; [|split; [done | done]].
  split; [lia|]. split; [done|]. intros j Hj. apply Hfull. lia.
Qed.

(** X1. Every alert the fetcher returns is an alert of some page of the
    server with its [repository] field set to the repository fetched,
    whatever that field held; every other field is as the server sent
    it. *)
Theorem fetched_alerts_are_tagged (api : github) (fuel : nat)
    (token org repo : string) (w w' : world) (alerts : list alert) :
  get_dependabot_alerts_from_repository api fuel token org repo w = (Return alerts, w') →
  Forall (fun a : alert =>
            dict_get "repository" a = Some (JStr repo)
            ∧ ∃ (p : nat) (sent : alert),
                sent ∈ body (repo_alerts api org repo token p)
                ∧ a = dict_set "repository" (JStr repo) sent
                ∧ ∀ k, k ≠ "repository" → dict_get k a = dict_get k sent)
         alerts.
Proof.
  rewrite fetch_run. intros [= Hout _].
  apply fetch_Return_pages in Hout as (n & _ & _ & -> & _).
  apply Forall_forall. intros a Ha.
  apply list_elem_of_In, in_flat_map in Ha as (p & _ & Ha).
  apply list_elem_of_In, list_elem_of_fmap in Ha as (sent & -> & Hsent).
  split; [apply dict_get_set_eq|]. exists p, sent. split; [done|]. split; [done|].
  intros k Hk. apply dict_get_set_ne. congruence.
Qed.

Lemma fetched_alerts_are_tagged_witness :
  get_dependabot_alerts_from_repository sample_github 5 "t" "acme" "B" initial_world
    = (Return [tag_repository "B" sample_alert],
       add_requests (fetch_requests sample_github 5 "t" "acme" "B") initial_world)
  ∧ Forall (fun a : alert => dict_get "repository" a = Some (JStr "B"))
           [tag_repository "B" sample_alert].
Proof.
  assert (get_dependabot_alerts_from_repository sample_github 5 "t" "acme" "B"
            initial_world
          = (Return [tag_repository "B" sample_alert],
             add_requests (fetch_requests sample_github 5 "t" "acme" "B") initial_world))
    as Hrun by reflexivity.
  split; [exact Hrun|].
  eapply Forall_impl;
    [exact (fetched_alerts_are_tagged sample_github 5 "t" "acme" "B" _ _ _ Hrun)|].
  intros a [Ha _]. exact Ha.
Defined.

(** ** What the lister returns *)

Lemma listing_Return_pages (api : github) (fuel : nat) (org token : string)
    (names : list string) :
  listing_outcome api fuel org token = Return names →
  ∃ n, n < fuel
       ∧ listing_ends_at (org_repos api org token) (1 + n)
       ∧ names = unarchived_names
                   (flat_map (fun j => body (org_repos api org token j)) (seq 1 n))
       ∧ listing_requests api fuel org token = repos_url org <$> seq 1 (S n).
Proof.
  intros Hout. pose proof (listing_paginate api fuel org token) as Hrun.
  rewrite Hout in Hrun. symmetry in Hrun.
  apply paginate_Return_inv in Hrun as (n & Hn & Hfull & Hlast & Hnames & Hurls).
  exists n. split; [done|]. split; [|split; [|done]].
  - split; [lia|]. split; [done|]. intros j Hj. apply Hfull. lia.
  - rewrite Hnames. simpl.
    apply (collect_pages_hom (org_repos api org token) unarchived_names 1 n);
      [done | apply unarchived_names_app].
Qed.

(** X3. The names the lister returns are, in the order of the pages, the
    names of the repositories listed before the first empty page that are
    not archived: no archived repository is returned, and no repository
    that is not archived is left out. *)
Theorem listed_repositories_are_unarchived (api : github) (fuel : nat)
    (org token : string) (w w' : world) (names : list string) :
  list_repositories_in_organisation api fuel org token w = (Return names, w') →
  ∃ n,
    listing_ends_at (org_repos api org token) (1 + n)
    ∧ names = map name
                (filter (fun r => archived r = false)
                   (flat_map (fun j => body (org_repos api org token j)) (seq 1 n)))
    ∧ (∀ x, x ∈ names ↔
            ∃ (p : nat) (r : repo_entry),
              1 ≤ p ≤ n ∧ r ∈ body (org_repos api org token p)
              ∧ archived r = false ∧ name r = x).
Proof.
  rewrite listing_run. intros [= Hout _].
  apply listing_Return_pages in Hout as (n & _ & Hends & -> & _).
  exists n. split; [done|]. split; [done|].
  intros x. unfold unarchived_names. rewrite list_elem_of_fmap. split.
  - intros (r & -> & Hr). apply list_elem_of_filter in Hr as [Harchived Hr].
    apply list_elem_of_In, in_flat_map in Hr as (p & Hp & Hr).
    apply in_seq in Hp. exists p, r. split; [lia|].
    split; [by apply list_elem_of_In|]. done.
  - intros (p & r & Hp & Hr & Harchived & <-). exists r. split; [done|].
    apply list_elem_of_filter. split; [done|].
    apply list_elem_of_In, in_flat_map. exists p. split.
    + apply in_seq. lia.
    + by apply list_elem_of_In.
Qed.

Lemma listed_repositories_are_unarchived_witness :
  list_repositories_in_organisation sample_github 5 "acme" "t" initial_world
    = (Return ["B"; "C"],
       add_requests (listing_requests sample_github 5 "acme" "t") initial_world)
  ∧ ∃ n,
      listing_ends_at (org_repos sample_github "acme" "t") (1 + n)
      ∧ ["B"; "C"]
        = map name
            (filter (fun r => archived r = false)
               (flat_map (fun j => body (org_repos sample_github "acme" "t" j))
                  (seq 1 n))).
Proof.
  assert (list_repositories_in_organisation sample_github 5 "acme" "t" initial_world
          = (Return ["B"; "C"],
             add_requests (listing_requests sample_github 5 "acme" "t") initial_world))
    as Hrun by reflexivity.
  split; [exact Hrun|].
  destruct (listed_repositories_are_unarchived sample_github 5 "acme" "t" _ _ _ Hrun)
    as (n & Hends & Hnames & _).
  exists n. split; [exact Hends | exact Hnames].
Defined.

(** ** What a listing leaves behind *)

(** X4. Whatever their outcome, the fetcher and the lister write no file
    and print nothing; they only add to the requests made. *)
Theorem listings_only_request (api : github) (fuel : nat)
    (token org repo : string) (w : world) :
  let fetched := get_dependabot_alerts_from_repository api fuel token org repo w in
  let listed := list_repositories_in_organisation api fuel org token w in
  fs fetched.2 = fs w ∧ stdout fetched.2 = stdout w
  ∧ (∃ urls, http_log fetched.2 = http_log w ++ urls)
  ∧ fs listed.2 = fs w ∧ stdout listed.2 = stdout w
  ∧ (∃ urls, http_log listed.2 = http_log w ++ urls).
Proof.
  cbv zeta. rewrite fetch_run, listing_run. cbn [fst snd fs stdout http_log add_requests].
  split; [done|]. split; [done|]. split; [by eexists|].
  split; [done|]. split; [done|]. by eexists.
Qed.

(** X5. The pages are requested in order from page 1, each once.  A call
    that raises stops at the page that failed: having requested pages
    [1..p] it requests nothing more (it does not try again), and the
    exception is the one for page [p].  A call that returns has requested
    the pages up to the empty one. *)
Theorem pages_are_requested_in_order (api : github) (fuel : nat)
    (token org repo : string) (w w' : world) :
  (∀ e,
     get_dependabot_alerts_from_repository api fuel token org repo w = (Raise e, w') →
     ∃ p, listing_fails_at (repo_alerts api org repo token) p
          ∧ p ≤ fuel
          ∧ e = alerts_failure (repo_alerts api org repo token p)
          ∧ http_log w' = http_log w ++ (alerts_url org repo <$> seq 1 p))
  ∧ (∀ alerts,
       get_dependabot_alerts_from_repository api fuel token org repo w
         = (Return alerts, w') →
       ∃ k, listing_ends_at (repo_alerts api org repo token) k
            ∧ k ≤ fuel
            ∧ http_log w' = http_log w ++ (alerts_url org repo <$> seq 1 k))
  ∧ (∀ e,
       list_repositories_in_organisation api fuel org token w = (Raise e, w') →
       ∃ p, listing_fails_at (org_repos api org token) p
            ∧ p ≤ fuel
            ∧ e = repos_failure org token p (org_repos api org token p)
            ∧ http_log w' = http_log w ++ (repos_url org <$> seq 1 p))
  ∧ (∀ names,
       list_repositories_in_organisation api fuel org token w = (Return names, w') →
       ∃ k, listing_ends_at (org_repos api org token) k
            ∧ k ≤ fuel
            ∧ http_log w' = http_log w ++ (repos_url org <$> seq 1 k)).
Proof.
  split; [|split; [|split]].
  - intros e. rewrite fetch_run. intros [= Hout <-].
    pose proof (fetch_paginate api fuel token org repo) as Hrun.
    rewrite Hout in Hrun. symmetry in Hrun.
    apply paginate_Raise_inv in Hrun as (n & Hn & Hfull & Hfailed & -> & Hurls).
    exists (1 + n). split; [|split; [lia|]; split; [done|]].
    + split; [lia|]. split; [done|]. intros j Hj. apply Hfull. lia.
    + cbn [http_log add_requests]. by rewrite Hurls.
  - intros alerts. rewrite fetch_run. intros [= Hout <-].
    apply fetch_Return_pages in Hout as (n & Hn & Hends & _ & Hurls).
    exists (1 + n). split; [done|]. split; [lia|].
    cbn [http_log add_requests]. by rewrite Hurls.
  - intros e. rewrite listing_run. intros [= Hout <-].
    pose proof (listing_paginate api fuel org token) as Hrun.
    rewrite Hout in Hrun. symmetry in Hrun.
    apply paginate_Raise_inv in Hrun as (n & Hn & Hfull & Hfailed & -> & Hurls).
    exists (1 + n). split; [|split; [lia|]; split; [done|]].
    + split; [lia|]. split; [done|]. intros j Hj. apply Hfull. lia.
    + cbn [http_log add_requests]. by rewrite Hurls.
  - intros names. rewrite listing_run. intros [= Hout <-].
    apply listing_Return_pages in Hout as (n & Hn & Hends & _ & Hurls).
    exists (1 + n). split; [done|]. split; [lia|].
    cbn [http_log add_requests]. by rewrite Hurls.
Qed.

Lemma pages_are_requested_in_order_witness :
  get_dependabot_alerts_from_repository sample_github 5 "t" "acme" "C" initial_world
    = (Raise (alerts_failure (repo_alerts sample_github "acme" "C" "t" 1)),
       add_requests (fetch_requests sample_github 5 "t" "acme" "C") initial_world)
  ∧ ∃ p, listing_fails_at (repo_alerts sample_github "acme" "C" "t") p
         ∧ http_log (add_requests (fetch_requests sample_github 5 "t" "acme" "C")
                       initial_world)
           = http_log initial_world ++ (alerts_url "acme" "C" <$> seq 1 p).
Proof.
  assert (get_dependabot_alerts_from_repository sample_github 5 "t" "acme" "C"
            initial_world
          = (Raise (alerts_failure (repo_alerts sample_github "acme" "C" "t" 1)),
             add_requests (fetch_requests sample_github 5 "t" "acme" "C") initial_world))
    as Hrun by reflexivity.
  split; [exact Hrun|].
  destruct (pages_are_requested_in_order sample_github 5 "t" "acme" "C"
              initial_world
              (add_requests (fetch_requests sample_github 5 "t" "acme" "C")
                 initial_world)) as [Hraise _].
  destruct (Hraise _ Hrun) as (p & Hfails & _ & _ & Hlog).
  exists p. split; [exact Hfails | exact Hlog].
Defined.

(** ** A listing without end *)

Lemma paginate_Timeout {A B} (url_of : nat → string) (respond : nat → response A)
    (collect : list A → list B) (failure : nat → response A → exn)
    (fuel page : nat) (acc : list B) :
  (∀ j, page ≤ j → full_page (respond j)) →
  paginate url_of respond collect failure fuel page acc
    = (Timeout, url_of <$> seq page fuel).
Proof.
  intros Hfull.
  pose proof (paginate_full_pages url_of respond collect failure fuel 0 page acc) as H.
  rewrite Nat.add_0_r in H. rewrite H by (intros j Hj; apply Hfull; lia).
  simpl. by rewrite app_nil_r.
Qed.

(** X6. The loops have no bound on the number of pages: against a server
    that answers every page with status 200 and a page that is not empty,
    neither listing returns or raises, however long it runs; after
    [fuel] iterations it has requested the pages [1..fuel] and is still
    going. *)
Theorem endless_listing_never_returns (api : github) (token org repo : string)
    (fuel : nat) (w : world) :
  (∀ p, 1 ≤ p → full_page (repo_alerts api org repo token p)) →
  (∀ p, 1 ≤ p → full_page (org_repos api org token p)) →
  get_dependabot_alerts_from_repository api fuel token org repo w
    = (Timeout, add_requests (alerts_url org repo <$> seq 1 fuel) w)
  ∧ list_repositories_in_organisation api fuel org token w
    = (Timeout, add_requests (repos_url org <$> seq 1 fuel) w).
Proof.
  intros Halerts Hrepos. split.
  - pose proof (fetch_paginate api fuel token org repo) as Hrun.
    rewrite paginate_Timeout in Hrun by done.
    rewrite fetch_run. by injection Hrun as -> ->.
  - pose proof (listing_paginate api fuel org token) as Hrun.
    rewrite paginate_Timeout in Hrun by done.
    rewrite listing_run. by injection Hrun as -> ->.
Qed.

Lemma endless_listing_never_returns_witness :
  (∀ p, 1 ≤ p → full_page (repo_alerts endless_github "acme" "B" "t" p))
  ∧ (∀ p, 1 ≤ p → full_page (org_repos endless_github "acme" "t" p))
  ∧ (get_dependabot_alerts_from_repository endless_github 7 "t" "acme" "B" initial_world).1
    = Timeout.
Proof.
  assert (∀ p, 1 ≤ p → full_page (repo_alerts endless_github "acme" "B" "t" p))
    as Halerts by (intros p _; by split).
  assert (∀ p, 1 ≤ p → full_page (org_repos endless_github "acme" "t" p))
    as Hrepos by (intros p _; by split).
  split; [exact Halerts|]. split; [exact Hrepos|].
  destruct (endless_listing_never_returns endless_github "t" "acme" "B" 7
              initial_world Halerts Hrepos) as [-> _].
  reflexivity.
Defined.

(** ** The orchestrator, step by step *)

Section OrchestratorRun.
Variable api : github.
Variables (fuel : nat) (org token : string).

Lemma fetch_each_requests (n i : nat) (repos : list string) (acc : list alert)
    (w : world) :
  (∀ repo, repo ∈ repos → fetch_outcome api fuel token org repo ≠ Timeout) →
  fetch_each api fuel org token n i repos acc w =
    (Return (acc ++ flat_map (fetched_alerts api fuel token org) repos),
     {| fs := fs w;
        stdout := stdout w ++ progress_lines api fuel token org n i repos;
        http_log := http_log w ++ flat_map (fetch_requests api fuel token org) repos |}).
Proof.
  revert i acc w. induction repos as [|repo rest IH]; intros i acc w Hends.
  - destruct w. simpl. by rewrite !app_nil_r.
  - assert (∀ r, r ∈ rest → fetch_outcome api fuel token org r ≠ Timeout) as Hrest
      by (intros r Hr; apply Hends; by right).
    pose proof (Hends repo ltac:(left)) as Hrepo.
    cbn [fetch_each progress_lines flat_map].
    unfold bind at 1, try_except, bind at 1. rewrite fetch_run.
    assert (fetched_alerts api fuel token org repo
            = match fetch_outcome api fuel token org repo with
              | Return alerts => alerts
              | _ => []
              end) as -> by done.
    unfold progress_line.
    destruct (fetch_outcome api fuel token org repo) as [fetched|e|] eqn:Hout;
      [| |done].
    + unfold bind, print, ret. cbn [fs stdout http_log add_requests].
      rewrite IH by done. cbn [fs stdout http_log]. by rewrite <-!app_assoc.
    + unfold bind, print, ret. cbn [fs stdout http_log add_requests].
      rewrite IH by done. cbn [fs stdout http_log]. by rewrite <-!app_assoc.
Qed.

Lemma progress_lines_lookup (n i k : nat) (repos : list string) (repo : string) :
  repos !! k = Some repo →
  progress_lines api fuel token org n i repos !! k
    = Some (progress_line api fuel token org n (i + k) repo).
Proof.
  revert i k. induction repos as [|r rest IH]; intros i k Hk; [done|].
  destruct k as [|k]; simpl in *.
  - injection Hk as ->. by rewrite Nat.add_0_r.
  - replace (i + S k) with (S i + k) by lia. by apply IH.
Qed.

Lemma length_progress_lines (n i : nat) (repos : list string) :
  length (progress_lines api fuel token org n i repos) = length repos.
Proof. revert i. induction repos as [|r rest IH]; intros i; simpl; [done|]. by rewrite IH. Qed.
End OrchestratorRun.

(** X7. A run that finds no checkpoint and lists the repositories: it
    requests the listing first and then the alerts of each listed
    repository, in order, also after a repository has failed; it prints
    the two opening lines and then one line per repository, in order;
    and it writes the checkpoint, the flattened alerts of the
    repositories in listed order, and no other file. *)
Theorem extraction_runs_in_order (api : github) (fuel : nat)
    (org token : string) (w : world) (repos : list string) :
  fs w !! raw_alerts_csv = None →
  listing_outcome api fuel org token = Return repos →
  (∀ repo, repo ∈ repos → fetch_outcome api fuel token org repo ≠ Timeout) →
  ∃ w',
    generate_raw_alerts_table api fuel org token w = (Return tt, w')
    ∧ http_log w' =
        http_log w ++ listing_requests api fuel org token
          ++ flat_map (fetch_requests api fuel token org) repos
    ∧ stdout w' =
        stdout w
          ++ ["Generating raw alerts table...";
              "Found " +:+ pretty (length repos) +:+ " repositories"]
          ++ progress_lines api fuel token org (length repos) 0 repos
    ∧ length (progress_lines api fuel token org (length repos) 0 repos) = length repos
    ∧ (∀ i repo,
         repos !! i = Some repo →
         progress_lines api fuel token org (length repos) 0 repos !! i
           = Some (match fetch_outcome api fuel token org repo with
                   | Raise e => error_line i (length repos) repo e
                   | _ => fetched_line i (length repos) repo
                   end))
    ∧ fs w' !! raw_alerts_csv
        = Some (json_normalize (flat_map (fetched_alerts api fuel token org) repos))
    ∧ (∀ path, path ≠ raw_alerts_csv → fs w' !! path = fs w !! path).
Proof.
  intros Habsent Hlist Hends. unfold generate_raw_alerts_table.
  unfold bind at 1, os_path_exists. rewrite Habsent.
  rewrite bool_decide_eq_false_2 by (by intros [? ?]).
  unfold bind at 1, print. unfold bind at 1. rewrite listing_run, Hlist.
  unfold bind at 1, bind at 1. rewrite fetch_each_requests by done.
  unfold write_file. cbn [fs stdout http_log add_requests app].
  eexists. split; [reflexivity|]. cbn [fs stdout http_log].
  split; [by rewrite <-!app_assoc|]. split; [by rewrite <-!app_assoc|].
  split; [apply length_progress_lines|]. split; [|split].
  - intros i repo Hi.
    rewrite (progress_lines_lookup api fuel org token _ 0 i repos repo Hi).
    unfold progress_line. simpl.
    destruct (fetch_outcome api fuel token org repo) eqn:Hout; [done | done |].
    destruct (Hends repo); [|done]. by eapply list_elem_of_lookup_2.
  - apply lookup_insert_eq.
  - intros path Hpath. by apply lookup_insert_ne.
Qed.

Lemma extraction_runs_in_order_witness :
  fs initial_world !! raw_alerts_csv = None
  ∧ listing_outcome sample_github 5 "acme" "t" = Return ["B"; "C"]
  ∧ ∃ w',
      generate_raw_alerts_table sample_github 5 "acme" "t" initial_world
        = (Return tt, w')
      ∧ http_log w' =
          [ repos_url "acme" 1; repos_url "acme" 2;
            alerts_url "acme" "B" 1; alerts_url "acme" "B" 2;
            alerts_url "acme" "C" 1 ]
      ∧ stdout w' =
          [ "Generating raw alerts table..."; "Found 2 repositories";
            " > 0/2 : Fetched alerts for B";
            " > 1/2 : Error fetching alerts for C: API call failed with status code 500, Internal Server Error" ]
      ∧ fs w' !! raw_alerts_csv
        = Some (json_normalize [tag_repository "B" sample_alert]).
Proof.
  split; [apply lookup_empty|]. split; [reflexivity|].
  destruct (extraction_runs_in_order sample_github 5 "acme" "t" initial_world
              ["B"; "C"]) as (w' & Hrun & Hlog & Hout & _ & _ & Hfile & _);
    [apply lookup_empty | reflexivity | |].
  { intros repo Hrepo.
    apply elem_of_cons in Hrepo as [-> | Hrepo]; [done|].
    apply elem_of_cons in Hrepo as [-> | Hrepo]; [done|].
    by apply elem_of_nil in Hrepo. }
  exists w'. split; [exact Hrun|]. split; [|split].
  - rewrite Hlog. reflexivity.
  - rewrite Hout. reflexivity.
  - rewrite Hfile. reflexivity.
Defined.

(** X8. When listing the repositories raises, the orchestrator has
    requested pages of the repository listing only, up to the one that
    failed, and no alert of any repository; it has printed its opening
    line and nothing else. *)
Theorem listing_failure_requests_no_alerts (api : github) (fuel : nat)
    (org token : string) (w : world) (e : exn) :
  fs w !! raw_alerts_csv = None →
  listing_outcome api fuel org token = Raise e →
  ∃ w' p,
    generate_raw_alerts_table api fuel org token w = (Raise e, w')
    ∧ listing_fails_at (org_repos api org token) p
    ∧ http_log w' = http_log w ++ (repos_url org <$> seq 1 p)
    ∧ stdout w' = stdout w ++ ["Generating raw alerts table..."].
Proof.
  intros Habsent Hlist.
  pose proof (listing_paginate api fuel org token) as Hrun.
  rewrite Hlist in Hrun. symmetry in Hrun.
  apply paginate_Raise_inv in Hrun as (n & Hn & Hfull & Hfailed & _ & Hurls).
  unfold generate_raw_alerts_table.
  unfold bind at 1, os_path_exists. rewrite Habsent.
  rewrite bool_decide_eq_false_2 by (by intros [? ?]).
  unfold bind at 1, print. unfold bind at 1. rewrite listing_run, Hlist.
  eexists. exists (1 + n). split; [reflexivity|].
  cbn [fs stdout http_log add_requests]. split; [|split; [by rewrite Hurls | done]].
  split; [lia|]. split; [done|]. intros j Hj. apply Hfull. lia.
Qed.

Lemma listing_failure_requests_no_alerts_witness :
  fs initial_world !! raw_alerts_csv = None
  ∧ listing_outcome unauthorized_github 5 "acme" "t"
    = Raise (repos_failure "acme" "t" 1 (org_repos unauthorized_github "acme" "t" 1))
  ∧ ∃ w' p,
      generate_raw_alerts_table unauthorized_github 5 "acme" "t" initial_world
        = (Raise (repos_failure "acme" "t" 1
                    (org_repos unauthorized_github "acme" "t" 1)), w')
      ∧ http_log w' = http_log initial_world ++ (repos_url "acme" <$> seq 1 p).
Proof.
  split; [apply lookup_empty|]. split; [reflexivity|].
  destruct (listing_failure_requests_no_alerts unauthorized_github 5 "acme" "t"
              initial_world
              (repos_failure "acme" "t" 1 (org_repos unauthorized_github "acme" "t" 1)))
    as (w' & p & Hrun & _ & Hlog & _); [apply lookup_empty | reflexivity |].
  exists w', p. split; [exact Hrun | exact Hlog].
Defined.

(** * Further properties of the checkpoint table *)

(** ** Keys of the flattened records *)

Lemma dict_keys_set_mono {V} (k k' : string) (v : V) (d : dict V) :
  k ∈ dict_keys d → k ∈ dict_keys (dict_set k' v d).
Proof.
  intros Hk. rewrite dict_keys_set. case_bool_decide; [done|].
  apply elem_of_app. by left.
Qed.

Lemma dict_keys_set_new {V} (k : string) (v : V) (d : dict V) :
  k ∈ dict_keys (dict_set k v d).
Proof.
  rewrite dict_keys_set. case_bool_decide; [done|].
  apply elem_of_app. right. left.
Qed.

Lemma normalise_json_cons (k : string) (v : json) (members : list (string * json))
    (key_string : string) (acc : dict json) :
  normalise_json (JObj ((k, v) :: members)) key_string acc =
    normalise_json (JObj members) key_string
      (normalise_json v
         (if String.eqb key_string "" then k else key_string +:+ "." +:+ k) acc).
Proof. reflexivity. Qed.

Lemma normalise_json_leaf (v : json) (key_string : string) (acc : dict json) :
  is_dict v = false →
  normalise_json v key_string acc = dict_set key_string v acc.
Proof. by destruct v. Qed.

(** Flattening only adds keys. *)
Lemma normalise_json_keys_mono :
  ∀ (data : json) (key_string : string) (acc : dict json) (k : string),
    k ∈ dict_keys acc → k ∈ dict_keys (normalise_json data key_string acc).
Proof.
  fix IH 1. intros data key_string acc k Hk.
  destruct data as [| | | | |members];
    try (simpl; by apply dict_keys_set_mono).
  revert acc Hk. induction members as [|[k' v] members IHm]; intros acc Hk; [done|].
  rewrite normalise_json_cons. apply IHm. by apply IH.
Qed.

Lemma normalise_json_member (members : list (string * json)) (key_string : string)
    (acc : dict json) (k : string) (v : json) :
  (k, v) ∈ members → is_dict v = false → key_string ≠ "" →
  (key_string +:+ "." +:+ k) ∈ dict_keys (normalise_json (JObj members) key_string acc).
Proof.
  intros Hin Hleaf Hkey. revert acc.
  induction members as [|[k' v'] members IH]; intros acc;
    [by apply elem_of_nil in Hin|].
  rewrite normalise_json_cons. apply elem_of_cons in Hin as [[= <- <-] | Hin].
  - apply normalise_json_keys_mono.
    destruct (String.eqb_spec key_string ""); [done|].
    rewrite normalise_json_leaf by done. apply dict_keys_set_new.
  - by apply IH.
Qed.

Lemma normalise_json_nested_member (members advisory : list (string * json))
    (acc : dict json) (k k2 : string) (v : json) :
  (k, JObj advisory) ∈ members → (k2, v) ∈ advisory → is_dict v = false → k ≠ "" →
  (k +:+ "." +:+ k2) ∈ dict_keys (normalise_json (JObj members) "" acc).
Proof.
  intros Hin Hin2 Hleaf Hk. revert acc.
  induction members as [|[k' v'] members IH]; intros acc;
    [by apply elem_of_nil in Hin|].
  rewrite normalise_json_cons. apply elem_of_cons in Hin as [[= <- <-] | Hin].
  - apply normalise_json_keys_mono. simpl String.eqb. cbv iota.
    by apply (normalise_json_member advisory k acc k2 v).
  - by apply IH.
Qed.

Lemma dict_merge_keys {V} (a b : dict V) (k : string) :
  k ∈ dict_keys a ∨ k ∈ dict_keys b → k ∈ dict_keys (dict_merge a b).
Proof.
  unfold dict_merge. revert a. induction b as [|[k' v'] b IH]; intros a; simpl.
  - intros [?|?%elem_of_nil]; done.
  - intros [Ha | [-> | Hb]%elem_of_cons]; apply IH.
    + left. by apply dict_keys_set_mono.
    + left. apply dict_keys_set_new.
    + by right.
Qed.

Lemma normalise_json_ordered_keys (a : alert) :
  (∀ k, has_field a k → k ∈ dict_keys (normalise_json_ordered a))
  ∧ (∀ k, has_advisory_field a k →
          ("security_advisory" +:+ "." +:+ k) ∈ dict_keys (normalise_json_ordered a)).
Proof.
  unfold normalise_json_ordered. split.
  - intros k (v & Hin & Hleaf). apply dict_merge_keys. left.
    unfold dict_keys. apply list_elem_of_fmap. exists (k, v). split; [done|].
    by apply list_elem_of_filter.
  - intros k (advisory & v & Hin & Hin2 & Hleaf). apply dict_merge_keys. right.
    apply (normalise_json_nested_member _ advisory _ _ _ v); [|done..].
    by apply list_elem_of_filter.
Qed.

(** ** Columns of a DataFrame built from records *)

Lemma add_keys_spec (keys seen : list string) :
  let result :=
    fold_left (fun acc k => if bool_decide (k ∈ acc) then acc else acc ++ [k]) keys seen in
  (NoDup seen → NoDup result)
  ∧ (∀ k, k ∈ result ↔ k ∈ seen ∨ k ∈ keys).
Proof.
  revert seen. induction keys as [|k keys IH]; intros seen; simpl.
  - split; [done|]. intros k. split; [by left | by intros [?|?%elem_of_nil]].
  - destruct (IH (if bool_decide (k ∈ seen) then seen else seen ++ [k])) as [Hnd Hin].
    split.
    + intros Hseen. apply Hnd. case_bool_decide; [done|].
      apply NoDup_app. split; [done|]. split; [|apply NoDup_singleton].
      by intros x Hx ->%list_elem_of_singleton.
    + intros x. rewrite Hin, elem_of_cons. case_bool_decide as Hk.
      * split; [tauto|]. intros [?|[->|?]]; tauto.
      * rewrite elem_of_app, list_elem_of_singleton. tauto.
Qed.

Lemma union_keys_spec (records : list (dict json)) (seen : list string) :
  (NoDup seen → NoDup (union_keys seen records))
  ∧ (∀ k, k ∈ union_keys seen records ↔
          k ∈ seen ∨ ∃ r, r ∈ records ∧ k ∈ dict_keys r).
Proof.
  revert seen. induction records as [|r records IH]; intros seen; simpl.
  - split; [done|]. intros k. split; [by left|].
    intros [?|(r & ?%elem_of_nil & _)]; done.
  - destruct (add_keys_spec (dict_keys r) seen) as [Hnd1 Hin1].
    destruct (IH (fold_left (fun acc k => if bool_decide (k ∈ acc) then acc
                                           else acc ++ [k]) (dict_keys r) seen))
      as [Hnd2 Hin2].
    split; [by intros ?; apply Hnd2, Hnd1|].
    intros k. rewrite Hin2, Hin1. split.
    + intros [[?|?]|(r' & Hr' & ?)]; [by left | right; exists r | right; exists r'].
      * split; [left | done].
      * split; [by right | done].
    + intros [?|(r' & [->|Hr']%elem_of_cons & ?)];
        [by left; left | by left; right | right; by exists r'].
Qed.

Lemma json_normalize_table (alerts : list alert) :
  length (rows (json_normalize alerts)) = length alerts
  ∧ Forall (fun row => length row = length (columns (json_normalize alerts)))
           (rows (json_normalize alerts))
  ∧ NoDup (columns (json_normalize alerts))
  ∧ (∀ c, c ∈ columns (json_normalize alerts) ↔
          ∃ a, a ∈ alerts ∧ c ∈ dict_keys (normalise_json_ordered a)).
Proof.
  destruct alerts as [|a alerts].
  - simpl. split; [done|]. split; [done|]. split; [apply NoDup_nil_2|].
    intros c. split; [by intros ?%elem_of_nil | by intros (a & ?%elem_of_nil & _)].
  - unfold json_normalize, data_frame. cbn [rows columns].
    destruct (union_keys_spec (map normalise_json_ordered (a :: alerts)) [])
      as [Hnd Hin].
    split; [by rewrite !length_map|]. split; [|split; [apply Hnd, NoDup_nil_2|]].
    + apply Forall_fmap, Forall_forall. intros r _. simpl. by rewrite length_map.
    + intros c. rewrite Hin. split.
      * intros [?%elem_of_nil | (r & Hr & Hc)]; [done|].
        apply list_elem_of_fmap in Hr as (a' & -> & Ha'). by exists a'.
      * intros (a' & Ha' & Hc). right. exists (normalise_json_ordered a').
        split; [|done]. apply list_elem_of_fmap. by exists a'.
Qed.

(** X9. The checkpoint table is well formed: it has one row per alert,
    every row has one cell per column, no column name occurs twice, and
    the columns are the keys of the flattened alerts. *)
Theorem json_normalize_shape (alerts : list alert) :
  length (rows (json_normalize alerts)) = length alerts
  ∧ Forall (fun row => length row = length (columns (json_normalize alerts)))
           (rows (json_normalize alerts))
  ∧ NoDup (columns (json_normalize alerts))
  ∧ (∀ c, c ∈ columns (json_normalize alerts) ↔
          ∃ a, a ∈ alerts ∧ c ∈ dict_keys (normalise_json_ordered a)).
Proof. exact (json_normalize_table alerts). Qed.

Lemma fields_are_columns (alerts : list alert) (a : alert) (k : string) :
  a ∈ alerts →
  (has_field a k → k ∈ columns (json_normalize alerts))
  ∧ (has_advisory_field a k →
     ("security_advisory." +:+ k) ∈ columns (json_normalize alerts)).
Proof.
  intros Ha. destruct (json_normalize_table alerts) as (_ & _ & _ & Hcolumns).
  destruct (normalise_json_ordered_keys a) as [Htop Hnested].
  split; intros Hfield; apply Hcolumns; exists a; (split; [done|]).
  - by apply Htop.
  - by apply (Hnested k).
Qed.

(** X10. Flattening names the columns after the fields: a field of an
    alert that is not an object is a column under its own name, and a
    field of the nested [security_advisory] object is a column under
    ["security_advisory." ] followed by its name. *)
Theorem fields_become_columns (alerts : list alert) (a : alert) (k : string) :
  a ∈ alerts →
  (has_field a k → k ∈ columns (json_normalize alerts))
  ∧ (has_advisory_field a k →
     ("security_advisory." +:+ k) ∈ columns (json_normalize alerts)).
Proof. exact (fields_are_columns alerts a k). Qed.

Lemma fields_become_columns_witness :
  tag_repository "B" sample_alert ∈ [tag_repository "B" sample_alert]
  ∧ has_field (tag_repository "B" sample_alert) "repository"
  ∧ has_advisory_field (tag_repository "B" sample_alert) "ghsa_id"
  ∧ "repository" ∈ columns (json_normalize [tag_repository "B" sample_alert])
  ∧ "security_advisory.ghsa_id"
      ∈ columns (json_normalize [tag_repository "B" sample_alert]).
Proof.
  assert (tag_repository "B" sample_alert ∈ [tag_repository "B" sample_alert])
    as Hin by left.
  assert (has_field (tag_repository "B" sample_alert) "repository") as Hrepo.
  { exists (JStr "B"). split; [|reflexivity].
    apply list_elem_of_In. vm_compute.
    repeat (first [left; reflexivity | right]). }
  assert (has_advisory_field (tag_repository "B" sample_alert) "ghsa_id") as Hghsa.
  { eexists _, (JStr "GHSA-1"). split; [|split; [|reflexivity]].
    - right. right. left.
    - left. }
  do 3 (split; [assumption|]).
  split.
  - exact (proj1 (fields_become_columns _ _ "repository" Hin) Hrepo).
  - exact (proj2 (fields_become_columns _ _ "ghsa_id" Hin) Hghsa).
Defined.

(** * Further properties of the aggregation engine *)

(** ** Every way a run can go *)

Section AggregationCases.
Variable cast_varchar : value → option (option string).
Variable cast_integer : value → option (option Z).
Variable cast_timestamp : value → option (option Z).

#[local] Abbreviation run :=
  (generate_processed_alert_tables cast_varchar cast_integer cast_timestamp).
#[local] Abbreviation started w :=
  {| fs := fs w; stdout := stdout w ++ ["Generating processed alert tables..."];
     http_log := http_log w |}.
#[local] Abbreviation inserted df :=
  (mapM (insert_row cast_varchar cast_integer cast_timestamp)
        (map (fun r => map (cell (columns df) r) fixed_columns) (rows df))).

(** The outcome of the aggregation engine, by cases on the checkpoint. *)
Lemma aggregation_cases (w : world) :
  run w =
    match fs w !! raw_alerts_csv with
    | None => (Raise (FileNotFoundError raw_alerts_csv), started w)
    | Some df =>
        match columns df with
        | [] => (Raise EmptyDataError, started w)
        | _ :: _ =>
            match filter (fun c => c ∉ columns df) fixed_columns with
            | [] =>
                match inserted df with
                | Some loaded =>
                    (Return tt,
                     {| fs := with_reports loaded (fs w);
                        stdout := stdout w ++ ["Generating processed alert tables..."];
                        http_log := http_log w |})
                | None => (Raise ConversionError, started w)
                end
            | missing => (Raise (KeyError missing), started w)
            end
        end
    end.
Proof.
  unfold generate_processed_alert_tables.
  unfold bind at 1, print. unfold bind at 1, read_csv. cbn [fs].
  destruct (fs w !! raw_alerts_csv) as [df|]; [|done].
  destruct (columns df) as [|c cols] eqn:Hc; [done|]. rewrite <-Hc.
  unfold bind at 1, select_columns.
  destruct (filter (fun c => c ∉ columns df) fixed_columns) as [|m missing]; [|done].
  unfold ret at 1. unfold bind at 1, insert_into_alerts. cbn [rename_columns rows].
  destruct (inserted df) as [loaded|]; [|done].
  reflexivity.
Qed.
End AggregationCases.

Lemma with_reports_other (loaded : list alert_row) (files : gmap string table)
    (path : string) :
  path ∉ report_paths → with_reports loaded files !! path = files !! path.
Proof.
  intros Hpath. unfold with_reports. cbv zeta.
  rewrite !lookup_insert_ne; [done|..];
    intros <-; apply Hpath; apply (bool_decide_unpack _); reflexivity.
Qed.

(** Looks a report path up in the files written. *)
Ltac lookup_report :=
  unfold with_reports; cbv zeta;
  repeat (progress (rewrite ?lookup_insert_ne by (by vm_compute);
                    rewrite ?lookup_insert_eq)).

Ltac each_report_path H :=
  unfold report_paths in H;
  repeat (apply elem_of_cons in H as [-> | H]; [lookup_report|]);
  [..| by apply elem_of_nil in H].

Lemma with_reports_written (loaded : list alert_row) (files : gmap string table)
    (path : string) :
  path ∈ report_paths → is_Some (with_reports loaded files !! path).
Proof. intros Hpath. each_report_path Hpath. all: done. Qed.

(** Writing the reports again over reports of the same rows changes
    nothing, whatever was there before. *)
Lemma with_reports_idemp (loaded : list alert_row) (files : gmap string table) :
  with_reports loaded (with_reports loaded files) = with_reports loaded files.
Proof.
  apply map_eq. intros path. unfold with_reports. cbv zeta.
  rewrite !lookup_insert. repeat case_decide; done.
Qed.

Lemma with_reports_same (loaded : list alert_row) (files1 files2 : gmap string table)
    (path : string) :
  path ∈ report_paths →
  with_reports loaded files1 !! path = with_reports loaded files2 !! path.
Proof.
  intros Hpath. each_report_path Hpath. all: done.
Qed.

(** ** Runs that fail *)

(** X11. The aggregation engine writes all its reports or none: a run
    that does not return leaves every file as it was.  Without a
    checkpoint it raises [FileNotFoundError]; with a checkpoint that
    lacks some of the thirteen columns it raises a [KeyError] that names
    exactly the missing columns. *)
Theorem aggregation_fails_without_output
    (cast_varchar : value → option (option string))
    (cast_integer cast_timestamp : value → option (option Z))
    (w w' : world) (o : outcome unit) :
  generate_processed_alert_tables cast_varchar cast_integer cast_timestamp w = (o, w') →
  (o ≠ Return tt → fs w' = fs w ∧ ∃ e, o = Raise e)
  ∧ http_log w' = http_log w
  ∧ (fs w !! raw_alerts_csv = None → o = Raise (FileNotFoundError raw_alerts_csv))
  ∧ (∀ df c,
       fs w !! raw_alerts_csv = Some df → columns df ≠ [] →
       c ∈ fixed_columns → c ∉ columns df →
       ∃ missing,
         o = Raise (KeyError missing)
         ∧ ∀ c', c' ∈ missing ↔ c' ∈ fixed_columns ∧ c' ∉ columns df).
Proof.
  rewrite aggregation_cases. intros Hrun. split; [|split; [|split]].
  - intros Hfailed.
    destruct (fs w !! raw_alerts_csv) as [df|]; [|injection Hrun as <- <-; eauto].
    destruct (columns df); [injection Hrun as <- <-; eauto|].
    destruct (filter _ fixed_columns); [|injection Hrun as <- <-; eauto].
    destruct (mapM _ _); injection Hrun as <- <-; [done | eauto].
  - destruct (fs w !! raw_alerts_csv) as [df|]; [|by injection Hrun as <- <-].
    destruct (columns df); [by injection Hrun as <- <-|].
    destruct (filter _ fixed_columns); [|by injection Hrun as <- <-].
    destruct (mapM _ _); by injection Hrun as <- <-.
  - intros Hfile. rewrite Hfile in Hrun. by injection Hrun as <- _.
  - intros df c Hfile Hcolumns Hc Hmissing. rewrite Hfile in Hrun.
    destruct (columns df) as [|c0 cols] eqn:E; [done|]. rewrite <-E in *.
    assert (c ∈ filter (fun c => c ∉ columns df) fixed_columns) as Hin
      by (by apply list_elem_of_filter).
    destruct (filter (fun c => c ∉ columns df) fixed_columns) as [|m missing] eqn:Hf;
      [by apply elem_of_nil in Hin|].
    injection Hrun as <- _. exists (m :: missing). split; [done|].
    intros c'. rewrite <-Hf, list_elem_of_filter. tauto.
Qed.

Lemma aggregation_fails_without_output_witness :
  let w := {| fs := {[ raw_alerts_csv := short_checkpoint ]};
              stdout := []; http_log := [] |} in
  let run := generate_processed_alert_tables
               sample_cast_varchar sample_cast_integer sample_cast_timestamp w in
  fs w !! raw_alerts_csv = Some short_checkpoint
  ∧ columns short_checkpoint ≠ []
  ∧ "dismissed_reason" ∈ fixed_columns
  ∧ ("dismissed_reason" ∉ columns short_checkpoint)
  ∧ run.1 = Raise (KeyError ["dismissed_reason"; "dismissed_comment"])
  ∧ fs run.2 = fs w.
Proof.
  cbv zeta.
  set (w := {| fs := {[ raw_alerts_csv := short_checkpoint ]};
               stdout := []; http_log := [] |}).
  set (run := generate_processed_alert_tables
                sample_cast_varchar sample_cast_integer sample_cast_timestamp w).
  assert (fs w !! raw_alerts_csv = Some short_checkpoint) as Hfile
    by apply lookup_singleton_eq.
  assert (columns short_checkpoint ≠ []) as Hcolumns by done.
  assert ("dismissed_reason" ∈ fixed_columns) as Hfixed
    by (apply (bool_decide_unpack _); reflexivity).
  assert ("dismissed_reason" ∉ columns short_checkpoint) as Hmissing
    by (apply (bool_decide_unpack _); reflexivity).
  do 4 (split; [assumption|]).
  assert (run.1 = Raise (KeyError ["dismissed_reason"; "dismissed_comment"])) as Hout
    by reflexivity.
  split; [exact Hout|].
  destruct (aggregation_fails_without_output
              sample_cast_varchar sample_cast_integer sample_cast_timestamp
              w run.2 run.1) as [Hnothing _]; [apply surjective_pairing|].
  apply Hnothing. rewrite Hout. discriminate.
Defined.

(** ** A checkpoint without rows *)

Lemma select_columns_present (wanted : list string) (df : table) :
  Forall (fun c => c ∈ columns df) wanted →
  filter (fun c => c ∉ columns df) wanted = [].
Proof.
  intros Hall. induction Hall as [|c wanted Hc Hall IH]; [done|].
  by rewrite filter_cons_False by (by intros ?).
Qed.

(** X12. A checkpoint that has the thirteen columns, in any order and
    among any others, and no row: the run returns and writes the six
    reports, each with its header and no row; whatever reports were
    there before are replaced. *)
Theorem empty_table_gives_empty_reports
    (cast_varchar : value → option (option string))
    (cast_integer cast_timestamp : value → option (option Z))
    (w : world) (df : table) :
  fs w !! raw_alerts_csv = Some df →
  Forall (fun c => c ∈ columns df) fixed_columns →
  rows df = [] →
  ∃ w',
    generate_processed_alert_tables cast_varchar cast_integer cast_timestamp w
      = (Return tt, w')
    ∧ fs w' !! critical_alerts_csv
      = Some {| columns := columns_after_drop; rows := [] |}
    ∧ (∀ s, s ∈ ["open"; "dismissed"; "fixed"]%string →
            fs w' !! state_count_csv s
            = Some {| columns := ["repository"; s]; rows := [] |})
    ∧ fs w' !! all_count_csv
      = Some {| columns := ["repository"; "open"; "dismissed"; "fixed"]; rows := [] |}
    ∧ fs w' !! alerts_by_date_csv
      = Some {| columns := ["created_at"; "ghsa_id"]; rows := [] |}
    ∧ fs w' !! raw_alerts_csv = Some df.
Proof.
  intros Hfile Hpresent Hrows.
  rewrite aggregation_cases, Hfile.
  destruct (columns df) as [|c cols] eqn:Hc.
  { apply Forall_cons in Hpresent as [Hin _]. by apply elem_of_nil in Hin. }
  rewrite <-Hc in *. rewrite select_columns_present by done. rewrite Hrows. simpl mapM.
  eexists. split; [reflexivity|]. cbn [fs].
  split; [by lookup_report|]. split; [|split; [by lookup_report|]].
  - intros s Hs.
    repeat (apply elem_of_cons in Hs as [-> | Hs]; [by lookup_report|]).
    by apply elem_of_nil in Hs.
  - split; [by lookup_report|].
    rewrite with_reports_other; [done|].
    apply (bool_decide_unpack _). reflexivity.
Qed.

Lemma empty_table_gives_empty_reports_witness :
  let w := {| fs := {[ raw_alerts_csv := header_only_checkpoint ]};
              stdout := []; http_log := [] |} in
  fs w !! raw_alerts_csv = Some header_only_checkpoint
  ∧ Forall (fun c => c ∈ columns header_only_checkpoint) fixed_columns
  ∧ rows header_only_checkpoint = []
  ∧ ∃ w',
      generate_processed_alert_tables
        sample_cast_varchar sample_cast_integer sample_cast_timestamp w
        = (Return tt, w')
      ∧ fs w' !! all_count_csv
        = Some {| columns := ["repository"; "open"; "dismissed"; "fixed"]; rows := [] |}.
Proof.
  cbv zeta.
  set (w := {| fs := {[ raw_alerts_csv := header_only_checkpoint ]};
               stdout := []; http_log := [] |}).
  assert (fs w !! raw_alerts_csv = Some header_only_checkpoint) as Hfile
    by apply lookup_singleton_eq.
  assert (Forall (fun c => c ∈ columns header_only_checkpoint) fixed_columns)
    as Hpresent by (apply (bool_decide_unpack _); reflexivity).
  split; [exact Hfile|]. split; [exact Hpresent|]. split; [reflexivity|].
  destruct (empty_table_gives_empty_reports
              sample_cast_varchar sample_cast_integer sample_cast_timestamp
              w header_only_checkpoint Hfile Hpresent eq_refl)
    as (w' & Hrun & _ & _ & Hall & _).
  exists w'. split; [exact Hrun | exact Hall].
Defined.

(** ** Running the aggregation again *)

(** X13. The reports are a function of the checkpoint alone.  A run that
    returns has requested nothing and has left the checkpoint and every
    file that is not a report as they were; run again, it returns and
    changes no file; and run in any world with the same checkpoint, it
    writes the same reports over whatever was there. *)
Theorem aggregation_depends_on_checkpoint_only
    (cast_varchar : value → option (option string))
    (cast_integer cast_timestamp : value → option (option Z))
    (w w1 : world) :
  generate_processed_alert_tables cast_varchar cast_integer cast_timestamp w
    = (Return tt, w1) →
  http_log w1 = http_log w
  ∧ (∀ path, path ∉ report_paths → fs w1 !! path = fs w !! path)
  ∧ (∀ path, path ∈ report_paths → is_Some (fs w1 !! path))
  ∧ (∃ w2,
       generate_processed_alert_tables cast_varchar cast_integer cast_timestamp w1
         = (Return tt, w2)
       ∧ fs w2 = fs w1)
  ∧ (∀ w0 : world,
       fs w0 !! raw_alerts_csv = fs w !! raw_alerts_csv →
       ∃ w0',
         generate_processed_alert_tables cast_varchar cast_integer cast_timestamp w0
           = (Return tt, w0')
         ∧ ∀ path, path ∈ report_paths → fs w0' !! path = fs w1 !! path).
Proof.
  rewrite aggregation_cases. intros Hrun.
  destruct (fs w !! raw_alerts_csv) as [df|] eqn:Hfile; [|done].
  destruct (columns df) as [|c cols] eqn:Hc; [done|]. rewrite <-Hc in *.
  destruct (filter (fun c => c ∉ columns df) fixed_columns) eqn:Hmissing; [|done].
  destruct (mapM _ _) as [loaded|] eqn:Hloaded; [|done].
  injection Hrun as <-. cbn [fs stdout http_log].
  split; [done|]. split; [intros path; apply with_reports_other|].
  split; [intros path; apply with_reports_written|]. split.
  - rewrite aggregation_cases. cbn [fs].
    rewrite with_reports_other, Hfile, Hc, <-Hc, Hmissing, Hloaded
      by (apply (bool_decide_unpack _); reflexivity).
    eexists. split; [reflexivity|]. apply with_reports_idemp.
  - intros w0 Hsame. rewrite aggregation_cases, Hsame, Hc, <-Hc, Hmissing, Hloaded.
    eexists. split; [reflexivity|]. intros path. apply with_reports_same.
Qed.

Lemma aggregation_depends_on_checkpoint_only_witness :
  let w := {| fs := {[ raw_alerts_csv := null_severity_checkpoint ]};
              stdout := []; http_log := [] |} in
  let run := generate_processed_alert_tables
               sample_cast_varchar sample_cast_integer sample_cast_timestamp w in
  run = (Return tt, run.2)
  ∧ ∃ w2,
      generate_processed_alert_tables
        sample_cast_varchar sample_cast_integer sample_cast_timestamp run.2
        = (Return tt, w2)
      ∧ fs w2 = fs run.2.
Proof.
  cbv zeta.
  set (w := {| fs := {[ raw_alerts_csv := null_severity_checkpoint ]};
               stdout := []; http_log := [] |}).
  set (run := generate_processed_alert_tables
                sample_cast_varchar sample_cast_integer sample_cast_timestamp w).
  assert (run = (Return tt, run.2)) as Hrun by reflexivity.
  split; [exact Hrun|].
  destruct (aggregation_depends_on_checkpoint_only
              sample_cast_varchar sample_cast_integer sample_cast_timestamp
              w run.2 Hrun) as (_ & _ & _ & Hagain & _).
  exact Hagain.
Defined.

(** * Further properties of the statements *)

(** ** The [UPDATE] and [DELETE] statements *)

Lemma normalised_twice (r : alert_row) : normalised (normalised r) = normalised r.
Proof.
  unfold normalised. destruct (bool_decide_reflect (is_Some (dismissed_at r))) as [Hd|Hd].
  - rewrite bool_decide_eq_true_2; [by destruct r as [[] ?]|].
    by destruct r as [[] ?].
  - by rewrite bool_decide_eq_false_2.
Qed.

(** X14. The [UPDATE] statement keeps the number and the order of the
    rows, changes no column but [state], leaves a row that was never
    dismissed exactly as it was, and has no further effect when applied
    again. *)
Theorem update_changes_state_only (alerts : list alert_row) :
  length (update_state_dismissed alerts) = length alerts
  ∧ update_state_dismissed (update_state_dismissed alerts) = update_state_dismissed alerts
  ∧ (∀ i r,
       alerts !! i = Some r →
       ∃ r' : alert_row, update_state_dismissed alerts !! i = Some r'
             ∧ r' = set_state (state r') r
             ∧ (dismissed_at r = None → r' = r)).
Proof.
  split; [apply length_map|]. split.
  - unfold update_state_dismissed. rewrite <-list_fmap_compose.
    apply list_fmap_ext. intros i r _. apply normalised_twice.
  - intros i r Hi. rewrite update_state_dismissed_lookup, Hi. simpl.
    eexists. split; [reflexivity|].
    destruct (bool_decide_reflect (is_Some (dismissed_at r))) as [Hd|Hd].
    + split; [by destruct r as [[] ?]|]. intros Hnone. rewrite Hnone in Hd.
      by destruct Hd.
    + split; [by destruct r as [[] ?] | done].
Qed.

Lemma update_changes_state_only_witness :
  [stale_open_alert; null_severity_alert] !! 1 = Some null_severity_alert
  ∧ dismissed_at null_severity_alert = None
  ∧ update_state_dismissed [stale_open_alert; null_severity_alert] !! 1
    = Some null_severity_alert.
Proof.
  split; [reflexivity|]. split; [reflexivity|].
  destruct (update_changes_state_only [stale_open_alert; null_severity_alert])
    as (_ & _ & Hrows).
  destruct (Hrows 1 null_severity_alert eq_refl) as (r' & Hr' & _ & Hsame).
  rewrite Hr'. f_equal. apply Hsame. reflexivity.
Defined.

(** X15. The rows the reports are computed from are, in order, the rows
    of the loaded table whose severity is ['critical'] or NULL, each with
    its state normalised and without its severity, and no others. *)
Theorem critical_alerts_rows (loaded : list alert_row) :
  critical_alerts loaded
    = map (fun r => fields (normalised r))
        (filter (fun r : alert_row =>
                   severity r = Some "critical" ∨ severity r = None) loaded)
  ∧ (∀ x : alert_fields,
       x ∈ critical_alerts loaded ↔
       ∃ r : alert_row,
         r ∈ loaded
         ∧ (severity r = Some "critical" ∨ severity r = None)
         ∧ x = fields (normalised r))
  ∧ length (critical_alerts loaded) ≤ length loaded.
Proof.
  assert (critical_alerts loaded
          = map (fun r => fields (normalised r))
              (filter (fun r : alert_row =>
                         severity r = Some "critical" ∨ severity r = None) loaded))
    as Heq.
  { unfold critical_alerts, drop_column_severity, delete_not_critical,
      update_state_dismissed.
    change (fun r : alert_row =>
              if bool_decide (is_Some (dismissed_at r))
              then set_state (Some "dismissed") r else r) with normalised.
    induction loaded as [|r loaded IH]; [done|].
    change (map normalised (r :: loaded)) with (normalised r :: map normalised loaded).
    rewrite !filter_cons.
    assert (severity (normalised r) = severity r) as Hsev.
    { unfold normalised. case_bool_decide; [by destruct r as [[] ?] | done]. }
    destruct (decide (severity r = Some "critical" ∨ severity r = None)) as [Hk|Hk].
    - rewrite decide_True; [|rewrite Hsev; by destruct Hk as [-> | ->]].
      change (map ?f (?x :: ?l)) with (f x :: map f l). by rewrite IH.
    - rewrite decide_False; [done|]. rewrite Hsev.
      destruct (severity r) as [s|]; [|tauto]. simpl.
      destruct (String.eqb_spec s "critical") as [-> | Hs]; [tauto | done]. }
  split; [exact Heq|]. split.
  - intros x. rewrite Heq, list_elem_of_fmap. split.
    + intros (r & -> & Hin). apply list_elem_of_filter in Hin as [Hk Hin].
      by exists r.
    + intros (r & Hin & Hk & ->). exists r. split; [done|].
      by apply list_elem_of_filter.
  - rewrite Heq, length_map. apply length_filter.
Qed.

(** ** The count reports, in general *)

Lemma coalesce_pivot_sum (alerts : list alert_fields) (R : option string) (s : string) :
  coalesce (pivot_sum (count_by_repository_state alerts) R s) 0 = alert_count R s alerts.
Proof.
  rewrite pivot_sum_count. unfold alert_count.
  by destruct (alerts_in_state R s alerts).
Qed.

Lemma pivot_state_repositories (alerts : list alert_fields) :
  repo <$> pivot_state (count_by_repository_state alerts)
  = remove_dups ((fun g => g.1.1) <$> count_by_repository_state alerts).
Proof.
  unfold pivot_state. rewrite <-list_fmap_compose.
  rewrite (list_fmap_ext _ id) by done. apply list_fmap_id.
Qed.

Lemma critical_alert_count_NoDup (alerts : list alert_fields) :
  NoDup (repo <$> critical_alert_count alerts).
Proof.
  unfold critical_alert_count. rewrite order_by_desc_perm, pivot_state_repositories.
  apply NoDup_remove_dups.
Qed.

(** X16. The combined report has exactly one row for every repository
    that has a row in [alerts], whatever the states of its alerts, and no
    other row; the row carries the numbers of the repository's alerts
    that are open, dismissed and fixed (0 where there is none; alerts in
    any other state are not counted); and the rows are in descending
    order of the open count. *)
Theorem combined_report_rows (alerts : list alert_fields) :
  let report := all_count_report (critical_alert_count alerts) in
  (∀ R o d f,
     (R, o, d, f) ∈ report ↔
     (∃ r : alert_fields, r ∈ alerts ∧ repository r = R)
     ∧ o = alert_count R "open" alerts
     ∧ d = alert_count R "dismissed" alerts
     ∧ f = alert_count R "fixed" alerts)
  ∧ NoDup ((fun row => row.1.1.1) <$> report)
  ∧ Sorted (fun x y => (y.1.1.2 ≤ x.1.1.2)%Z) report.
Proof.
  cbv zeta. unfold all_count_report. split; [|split].
  - intros R o d f. rewrite elem_of_order_by_desc, list_elem_of_fmap. split.
    + intros (row & [= -> -> -> ->] & Hrow).
      apply elem_of_critical_alert_count, elem_of_pivot_state in Hrow
        as (Hrepo & Ho & Hd & Hf).
      rewrite Ho, Hd, Hf, !coalesce_pivot_sum. done.
    + intros (Hrepo & -> & -> & ->).
      exists {| repo := R;
                open := pivot_sum (count_by_repository_state alerts) R "open";
                dismissed := pivot_sum (count_by_repository_state alerts) R "dismissed";
                fixed := pivot_sum (count_by_repository_state alerts) R "fixed" |}.
      split; [cbn [repo open dismissed fixed]; by rewrite !coalesce_pivot_sum|].
      by apply elem_of_critical_alert_count, elem_of_pivot_state.
  - rewrite order_by_desc_perm, <-list_fmap_compose.
    apply (critical_alert_count_NoDup alerts).
  - apply (order_by_desc_sorted (fun row : option string * Z * Z * Z => Some row.1.1.2)).
Qed.

(** X17. For each of the three states, the per-state report has a row
    [(R, n)] exactly when repository [R] has [n > 0] alerts in that state;
    it has at most one row per repository and is in descending order of
    the count. *)
Theorem state_report_rows (alerts : list alert_fields) (s : string) :
  s ∈ ["open"; "dismissed"; "fixed"]%string →
  let report := state_count_report s (critical_alert_count alerts) in
  (∀ R n, (R, n) ∈ report ↔ n = alert_count R s alerts ∧ (0 < n)%Z)
  ∧ NoDup report.*1
  ∧ Sorted (fun x y => (y.2 ≤ x.2)%Z) report.
Proof.
  intros Hs. cbv zeta. unfold state_count_report.
  assert (∀ row, row ∈ critical_alert_count alerts →
                 state_column s row
                 = pivot_sum (count_by_repository_state alerts) (repo row) s)
    as Hcolumn.
  { intros row Hrow.
    apply elem_of_critical_alert_count, elem_of_pivot_state in Hrow
      as (_ & Ho & Hd & Hf).
    repeat (apply elem_of_cons in Hs as [-> | Hs]; [done|]).
    by apply elem_of_nil in Hs. }
  split; [|split].
  - intros R n. rewrite elem_of_order_by_desc, list_elem_of_fmap. split.
    + intros (row & [= -> ->] & Hrow). apply list_elem_of_filter in Hrow as [Hgt Hrow].
      rewrite (Hcolumn row Hrow) in *. rewrite coalesce_pivot_sum. split; [done|].
      rewrite <-coalesce_pivot_sum.
      destruct (pivot_sum (count_by_repository_state alerts) (repo row) s) as [n|];
        [|done].
      simpl in Hgt |- *. destruct (Z.ltb_spec 0 n); [done | done].
    + intros [-> Hpos].
      assert (alerts_in_state R s alerts ≠ []) as Hne.
      { intros E. unfold alert_count in Hpos. rewrite E in Hpos. simpl in Hpos. lia. }
      destruct (alerts_in_state R s alerts) as [|r l] eqn:E; [done|].
      assert (r ∈ alerts_in_state R s alerts) as Hr by (rewrite E; left).
      apply list_elem_of_filter in Hr as [[HR _] Hr].
      set (row := {| repo := R;
                     open := pivot_sum (count_by_repository_state alerts) R "open";
                     dismissed :=
                       pivot_sum (count_by_repository_state alerts) R "dismissed";
                     fixed := pivot_sum (count_by_repository_state alerts) R "fixed" |}).
      assert (row ∈ critical_alert_count alerts) as Hrow.
      { apply elem_of_critical_alert_count, elem_of_pivot_state.
        split; [by exists r | done]. }
      exists row. split.
      * by rewrite (Hcolumn row Hrow), coalesce_pivot_sum.
      * apply list_elem_of_filter. split; [|done].
        rewrite (Hcolumn row Hrow). simpl repo.
        pose proof (coalesce_pivot_sum alerts R s) as Hsum.
        destruct (pivot_sum (count_by_repository_state alerts) R s) as [n|];
          simpl in Hsum |- *.
        -- destruct (Z.ltb_spec 0 n); [done | lia].
        -- lia.
  - rewrite order_by_desc_perm, <-list_fmap_compose.
    pose proof (critical_alert_count_NoDup alerts) as Hnd. clear Hcolumn.
    revert Hnd. generalize (critical_alert_count alerts) as counts.
    induction counts as [|row rows IH]; intros Hnd; [constructor|].
    rewrite fmap_cons in Hnd. apply NoDup_cons in Hnd as [Hrow Hnd].
    rewrite filter_cons. destruct (decide _); [|by apply IH].
    rewrite fmap_cons. apply NoDup_cons. split; [|by apply IH].
    intros Hin. apply Hrow. apply list_elem_of_fmap in Hin as (row' & Heq & Hin).
    apply list_elem_of_filter in Hin as [_ Hin].
    apply list_elem_of_fmap. exists row'. split; [exact Heq | done].
  - apply (order_by_desc_sorted (fun row : option string * Z => Some row.2)).
Qed.

Lemma state_report_rows_witness :
  "fixed" ∈ ["open"; "dismissed"; "fixed"]%string
  ∧ ∀ R n,
      (R, n) ∈ state_count_report "fixed" (critical_alert_count sample_alerts) ↔
      n = alert_count R "fixed" sample_alerts ∧ (0 < n)%Z.
Proof.
  assert ("fixed" ∈ ["open"; "dismissed"; "fixed"]%string) as Hs
    by (apply (bool_decide_unpack _); reflexivity).
  split; [exact Hs|].
  destruct (state_report_rows sample_alerts "fixed" Hs) as [Hrows _].
  exact Hrows.
Defined.

(** ** The advisory timeline, in general *)

(** X18. An advisory has a row in the timeline exactly when some open
    alert references it: alerts that are dismissed or fixed, or have no
    state, bring no row.  The timestamp of the row is the latest
    [created_at] among the open alerts of the advisory that have one, and
    NULL when none has. *)
Theorem advisory_timeline_rows (alerts : list alert_fields) :
  (∀ g : option string,
     (∃ m, (m, g) ∈ alerts_by_date alerts) ↔
     (∃ r : alert_fields, r ∈ alerts ∧ state r = Some "open" ∧ ghsa_id r = g))
  ∧ (∀ (m : option Z) (g : option string),
       (m, g) ∈ alerts_by_date alerts →
       match m with
       | Some t =>
           (∃ r : alert_fields, r ∈ open_alerts_of g alerts ∧ created_at r = Some t)
           ∧ ∀ (r : alert_fields) (t' : Z),
               r ∈ open_alerts_of g alerts → created_at r = Some t' → (t' ≤ t)%Z
       | None =>
           ∀ r : alert_fields, r ∈ open_alerts_of g alerts → created_at r = None
       end).
Proof.
  destruct (alerts_by_date_rows alerts) as (_ & _ & Hrows). split.
  - intros g. split.
    + intros (m & Hin). apply Hrows in Hin as [Hne _].
      destruct (open_alerts_of g alerts) as [|r l] eqn:E; [done|].
      assert (r ∈ open_alerts_of g alerts) as Hr by (rewrite E; left).
      apply list_elem_of_filter in Hr as [[Hs Hg] Hr]. by exists r.
    + intros (r & Hr & Hs & Hg). eexists. apply Hrows. split; [|reflexivity].
      intros E. assert (r ∈ open_alerts_of g alerts) as Hin
        by (by apply list_elem_of_filter).
      rewrite E in Hin. by apply elem_of_nil in Hin.
  - intros m g Hin. apply Hrows in Hin as [_ Hm]. destruct m as [t|].
    + symmetry in Hm. apply sql_max_Some in Hm as [Hin Hmax]. split.
      * apply list_elem_of_fmap in Hin as (r & Ht & Hr). by exists r.
      * intros r t' Hr Ht'. apply Hmax. rewrite <-Ht'. by apply list_elem_of_fmap_2.
    + symmetry in Hm. intros r Hr.
      destruct (created_at r) as [t|] eqn:Ht; [|done].
      destruct (proj1 (sql_max_None _) Hm t). rewrite <-Ht.
      by apply list_elem_of_fmap_2.
Qed.

Lemma advisory_timeline_rows_witness :
  (Some 6%Z, Some "GHSA-2") ∈ alerts_by_date sample_alerts
  ∧ ∃ r : alert_fields,
      r ∈ open_alerts_of (Some "GHSA-2") sample_alerts ∧ created_at r = Some 6%Z.
Proof.
  assert ((Some 6%Z, Some "GHSA-2") ∈ alerts_by_date sample_alerts) as Hin
    by (apply (bool_decide_unpack _); reflexivity).
  split; [exact Hin|].
  destruct (advisory_timeline_rows sample_alerts) as [_ Hrows].
  exact (proj1 (Hrows _ _ Hin)).
Defined.

(** * The normalisation rule, from checkpoint to reports *)

(** A loaded row whose severity is ['critical'] or NULL is a row of the
    table the reports are computed from, with its state normalised. *)
Lemma elem_of_critical_alerts (loaded : list alert_row) (r : alert_row) :
  r ∈ loaded →
  severity r = Some "critical" ∨ severity r = None →
  fields (normalised r) ∈ critical_alerts loaded.
Proof.
  intros Hin Hsev. unfold critical_alerts, drop_column_severity.
  apply (list_elem_of_fmap_2 fields). apply delete_not_critical_keeps. split.
  - unfold update_state_dismissed. apply (list_elem_of_fmap_2 normalised _ _ Hin).
  - assert (severity (normalised r) = severity r) as ->; [|done].
    unfold normalised. case_bool_decide; [by destruct r as [[] ?] | done].
Qed.

(** A repository with an alert in state [s] has a row in the report of
    that state, with the number of its alerts in that state. *)
Lemma state_count_report_includes (alerts : list alert_fields) (s : string)
    (r : alert_fields) :
  s ∈ ["open"; "dismissed"; "fixed"]%string →
  r ∈ alerts →
  state r = Some s →
  (0 < alert_count (repository r) s alerts)%Z
  ∧ (repository r, alert_count (repository r) s alerts)
      ∈ state_count_report s (critical_alert_count alerts).
Proof.
  intros Hs Hr Hstate.
  assert (r ∈ alerts_in_state (repository r) s alerts) as Hin
    by (by apply list_elem_of_filter).
  assert (0 < alert_count (repository r) s alerts)%Z as Hpos.
  { unfold alert_count. destruct (alerts_in_state (repository r) s alerts);
      [by apply elem_of_nil in Hin | simpl; lia]. }
  split; [done|]. unfold state_count_report.
  apply elem_of_order_by_desc, list_elem_of_fmap.
  set (counts := count_by_repository_state alerts).
  set (row := {| repo := repository r;
                 open := pivot_sum counts (repository r) "open";
                 dismissed := pivot_sum counts (repository r) "dismissed";
                 fixed := pivot_sum counts (repository r) "fixed" |}).
  assert (state_column s row = pivot_sum counts (repository r) s) as Hcolumn.
  { repeat (apply elem_of_cons in Hs as [-> | Hs]; [done|]).
    by apply elem_of_nil in Hs. }
  pose proof (coalesce_pivot_sum alerts (repository r) s) as Hsum. fold counts in Hsum.
  exists row. split.
  - by rewrite Hcolumn, Hsum.
  - apply list_elem_of_filter. split.
    + rewrite Hcolumn.
      destruct (pivot_sum counts (repository r) s) as [n|]; simpl in Hsum |- *.
      * destruct (Z.ltb_spec 0 n); [done | lia].
      * lia.
    + apply elem_of_critical_alert_count, elem_of_pivot_state.
      split; [by exists r | done].
Qed.

Section NormalisationRule.
Variable cast_varchar : value → option (option string).
Variable cast_integer : value → option (option Z).
Variable cast_timestamp : value → option (option Z).

(** C1. Run on a checkpoint that loads, the aggregation engine returns,
    and every row of the checkpoint that is loaded with a [dismissed_at]
    that is not NULL is, whatever state it carried, a row with state
    ['dismissed'] of the [alerts] table after the [UPDATE], at the same
    position and with its other columns unchanged.  When the filter on
    severity keeps it, that is the row written to the critical report,
    and its repository has a row in the report of dismissed counts.  No
    row of the critical report has a dismissal date and a state other
    than ['dismissed']. *)
Theorem dismissed_at_forces_state_dismissed
    (w : world) (df : table) (loaded : list alert_row) :
  fs w !! raw_alerts_csv = Some df →
  columns df ≠ [] →
  filter (fun c => c ∉ columns df) fixed_columns = [] →
  loaded_rows cast_varchar cast_integer cast_timestamp df = Some loaded →
  ∃ (w' : world) (critical dismissed_counts : table),
    generate_processed_alert_tables cast_varchar cast_integer cast_timestamp w
      = (Return tt, w')
    ∧ fs w' !! critical_alerts_csv = Some critical
    ∧ fs w' !! state_count_csv "dismissed" = Some dismissed_counts
    ∧ (∀ (i : nat) (cells : list value),
         rows df !! i = Some cells →
         ∃ raw : alert_row,
           insert_row cast_varchar cast_integer cast_timestamp
             (map (cell (columns df) cells) fixed_columns) = Some raw
           ∧ loaded !! i = Some raw
           ∧ (is_Some (dismissed_at raw) →
              update_state_dismissed loaded !! i
                = Some (set_state (Some "dismissed") raw)
              ∧ (severity raw = Some "critical" ∨ severity raw = None →
                 cells_of_alert (set_state (Some "dismissed") raw) ∈ rows critical
                 ∧ ∃ n : Z,
                     (0 < n)%Z
                     ∧ [sql_value VStr (repository raw); VInt n]
                         ∈ rows dismissed_counts)))
    ∧ (∀ row : list value,
         row ∈ rows critical →
         cell (columns critical) row "dismissed_at" ≠ VNull →
         cell (columns critical) row "state" = VStr "dismissed").
Proof.
  intros Hfile Hcolumns Hpresent Hloaded.
  set (alerts := critical_alerts loaded).
  exists {| fs := with_reports loaded (fs w);
            stdout := stdout w ++ ["Generating processed alert tables..."];
            http_log := http_log w |},
    (critical_alerts_table alerts),
    (state_count_table "dismissed"
       (state_count_report "dismissed" (critical_alert_count alerts))).
  split; [|split; [|split; [|split]]].
  - rewrite aggregation_cases, Hfile. unfold loaded_rows in Hloaded.
    destruct (columns df) as [|c cols]; [done|]. by rewrite Hpresent, Hloaded.
  - cbn [fs]. lookup_report. done.
  - cbn [fs]. lookup_report. done.
  - intros i cells Hcells.
    unfold loaded_rows in Hloaded. apply mapM_Some in Hloaded.
    assert (map (fun r => map (cell (columns df) r) fixed_columns) (rows df) !! i
            = Some (map (cell (columns df) cells) fixed_columns)) as Hprojected
      by (by rewrite (list_lookup_fmap _ (rows df) i), Hcells).
    destruct (Forall2_lookup_l _ _ _ _ _ Hloaded Hprojected) as (raw & Hraw & Hinsert).
    exists raw. split; [done|]. split; [done|]. intros Hdismissed.
    assert (normalised raw = set_state (Some "dismissed") raw) as Hnormalised
      by (unfold normalised; by rewrite bool_decide_eq_true_2).
    split.
    { rewrite update_state_dismissed_lookup, Hraw. simpl.
      by rewrite bool_decide_eq_true_2. }
    intros Hseverity.
    assert (fields (set_state (Some "dismissed") raw) ∈ alerts) as Hin.
    { rewrite <-Hnormalised. apply elem_of_critical_alerts; [|done].
      by eapply list_elem_of_lookup_2. }
    split; [exact (list_elem_of_fmap_2 cells_of_alert _ _ Hin)|].
    destruct (state_count_report_includes alerts "dismissed" _
                ltac:(apply (bool_decide_unpack _); reflexivity) Hin)
      as [Hpos Hcount]; [by destruct raw as [[] ?]|].
    eexists. split; [exact Hpos|].
    apply (list_elem_of_fmap_2
             (fun row : option string * Z => [sql_value VStr row.1; VInt row.2])
             _ _ Hcount).
  - intros row Hrow Hdismissed. cbn [rows critical_alerts_table] in Hrow.
    apply list_elem_of_fmap in Hrow as (r & -> & Hr).
    pose proof (critical_report_dismissed_invariant loaded) as Hall.
    rewrite Forall_forall in Hall. specialize (Hall r Hr).
    assert (cell (columns (critical_alerts_table alerts)) (cells_of_alert r)
              "dismissed_at" = sql_value VTimestamp (dismissed_at r)) as Hcell
      by reflexivity.
    assert (cell (columns (critical_alerts_table alerts)) (cells_of_alert r) "state"
            = sql_value VStr (state r)) as -> by reflexivity.
    rewrite Hcell in Hdismissed.
    destruct (dismissed_at r) as [t|]; [|done]. by rewrite Hall.
Qed.
End NormalisationRule.

Lemma dismissed_at_forces_state_dismissed_witness :
  let w := {| fs := {[ raw_alerts_csv := stale_open_checkpoint ]};
              stdout := []; http_log := [] |} in
  fs w !! raw_alerts_csv = Some stale_open_checkpoint
  ∧ columns stale_open_checkpoint ≠ []
  ∧ filter (fun c => c ∉ columns stale_open_checkpoint) fixed_columns = []
  ∧ (∃ raw : alert_row,
       loaded_rows sample_cast_varchar sample_cast_integer sample_cast_timestamp
         stale_open_checkpoint = Some [raw]
       ∧ state raw = Some "open" ∧ is_Some (dismissed_at raw))
  ∧ ∃ (w' : world) (critical : table),
      generate_processed_alert_tables
        sample_cast_varchar sample_cast_integer sample_cast_timestamp w = (Return tt, w')
      ∧ fs w' !! critical_alerts_csv = Some critical
      ∧ ∀ row : list value,
          row ∈ rows critical →
          cell (columns critical) row "dismissed_at" ≠ VNull →
          cell (columns critical) row "state" = VStr "dismissed".
Proof.
  cbv zeta.
  assert (fs {| fs := {[ raw_alerts_csv := stale_open_checkpoint ]};
                stdout := []; http_log := [] |} !! raw_alerts_csv
          = Some stale_open_checkpoint) as Hfile by apply lookup_singleton_eq.
  assert (columns stale_open_checkpoint ≠ []) as Hcolumns by done.
  assert (filter (fun c => c ∉ columns stale_open_checkpoint) fixed_columns = [])
    as Hpresent by reflexivity.
  split; [exact Hfile|]. split; [exact Hcolumns|]. split; [exact Hpresent|].
  split.
  { eexists. split; [reflexivity|]. split; [reflexivity | by eexists]. }
  destruct (dismissed_at_forces_state_dismissed
              sample_cast_varchar sample_cast_integer sample_cast_timestamp
              _ stale_open_checkpoint _ Hfile Hcolumns Hpresent eq_refl)
    as (w' & critical & counts & Hrun & Hcritical & _ & _ & Hrows).
  exists w', critical. split; [exact Hrun|]. split; [exact Hcritical | exact Hrows].
Defined.

(** * A severity that is missing *)

(** C2. A dismissed alert whose severity is NULL is counted with the
    critical alerts of its repository.  Run on a checkpoint in which
    repository [B] has three open, no dismissed and two fixed critical
    alerts, and one dismissed alert without severity, the aggregation
    engine writes the row [(B, 3, 1, 2)] to the combined report, not
    [(B, 3, 0, 2)], and lists [B] in the report of dismissed counts. *)
Theorem null_severity_alert_counts_in_pivot :
  let run :=
    generate_processed_alert_tables
      sample_cast_varchar sample_cast_integer sample_cast_timestamp
      {| fs := {[ raw_alerts_csv := unrated_dismissed_checkpoint ]};
         stdout := []; http_log := [] |} in
  (∃ loaded : list alert_row,
     loaded_rows sample_cast_varchar sample_cast_integer sample_cast_timestamp
       unrated_dismissed_checkpoint = Some loaded
     ∧ length (critical_in_state "B" "open" loaded) = 3
     ∧ length (critical_in_state "B" "dismissed" loaded) = 0
     ∧ length (critical_in_state "B" "fixed" loaded) = 2)
  ∧ run.1 = Return tt
  ∧ rows <$> fs run.2 !! all_count_csv = Some [[VStr "B"; VInt 3; VInt 1; VInt 2]]
  ∧ rows <$> fs run.2 !! state_count_csv "dismissed" = Some [[VStr "B"; VInt 1]].
Proof.
  cbv zeta. split.
  { eexists. split; [reflexivity|]. split; [reflexivity|]. split; reflexivity. }
  split; [by vm_compute|]. split; by vm_compute.
Qed.

(** C5. An open alert whose severity is NULL enters the timeline with
    the critical alerts.  Run on a checkpoint in which advisory [GHSA-1]
    has two open critical alerts, created in January and in February,
    and an open alert without severity created in March, the aggregation
    engine writes one row for [GHSA-1] and it carries the date in March,
    not the one in February. *)
Theorem null_severity_alert_leads_timeline :
  let run :=
    generate_processed_alert_tables
      sample_cast_varchar sample_cast_integer dated_cast_timestamp
      {| fs := {[ raw_alerts_csv := unrated_latest_checkpoint ]};
         stdout := []; http_log := [] |} in
  (∃ loaded : list alert_row,
     loaded_rows sample_cast_varchar sample_cast_integer dated_cast_timestamp
       unrated_latest_checkpoint = Some loaded
     ∧ (fun r : alert_row => created_at r) <$> open_critical_of "GHSA-1" loaded
       = [Some 1704067200000000%Z; Some 1706745600000000%Z])
  ∧ (1704067200000000 < 1706745600000000 < 1709251200000000)%Z
  ∧ run.1 = Return tt
  ∧ rows <$> fs run.2 !! alerts_by_date_csv
    = Some [[VTimestamp 1709251200000000; VStr "GHSA-1"]].
Proof.
  cbv zeta. split.
  { eexists. split; [reflexivity|]. reflexivity. }
  split; [lia|]. split; by vm_compute.
Qed.

(** * Further properties of the whole job *)

(** X19. With a checkpoint in place that loads, the job requests nothing
    and leaves the checkpoint as it is: it prints that extraction is
    skipped, writes the reports of the checkpoint, and ends with
    ["Alert tables generated"]. *)
Theorem main_with_checkpoint_aggregates_only (api : github)
    (cast_varchar : value → option (option string))
    (cast_integer cast_timestamp : value → option (option Z))
    (fuel : nat) (token org : string) (w : world) (df : table)
    (loaded : list alert_row) :
  fs w !! raw_alerts_csv = Some df →
  Forall (fun c => c ∈ columns df) fixed_columns →
  mapM (insert_row cast_varchar cast_integer cast_timestamp)
       (map (fun r => map (cell (columns df) r) fixed_columns) (rows df))
    = Some loaded →
  main api cast_varchar cast_integer cast_timestamp fuel token org w =
    (Return tt,
     {| fs := with_reports loaded (fs w);
        stdout := stdout w
                    ++ [ "Generating tables for critical dependabot alerts...";
                         "Raw alerts file already exists, skipping...";
                         "Generating processed alert tables...";
                         "Alert tables generated" ];
        http_log := http_log w |})
  ∧ with_reports loaded (fs w) !! raw_alerts_csv = Some df.
Proof.
  intros Hfile Hpresent Hloaded. split.
  - unfold main. unfold bind at 1, print. unfold bind at 1.
    rewrite generate_raw_alerts_table_skip by (cbn [fs]; by rewrite Hfile).
    unfold bind at 1. rewrite aggregation_cases. cbn [fs stdout http_log].
    rewrite Hfile.
    destruct (columns df) as [|c cols] eqn:Hc.
    { apply Forall_cons in Hpresent as [Hin _]. by apply elem_of_nil in Hin. }
    rewrite <-Hc in *. rewrite select_columns_present by done. rewrite Hloaded.
    cbn [fs stdout http_log]. by rewrite <-!app_assoc.
  - rewrite with_reports_other; [done|]. apply (bool_decide_unpack _). reflexivity.
Qed.

Lemma main_with_checkpoint_aggregates_only_witness :
  let w := {| fs := {[ raw_alerts_csv := null_severity_checkpoint ]};
              stdout := []; http_log := [] |} in
  fs w !! raw_alerts_csv = Some null_severity_checkpoint
  ∧ Forall (fun c => c ∈ columns null_severity_checkpoint) fixed_columns
  ∧ http_log (main unauthorized_github
                sample_cast_varchar sample_cast_integer sample_cast_timestamp
                5 "t" "acme" w).2 = [].
Proof.
  cbv zeta.
  set (w := {| fs := {[ raw_alerts_csv := null_severity_checkpoint ]};
               stdout := []; http_log := [] |}).
  assert (fs w !! raw_alerts_csv = Some null_severity_checkpoint) as Hfile
    by apply lookup_singleton_eq.
  assert (Forall (fun c => c ∈ columns null_severity_checkpoint) fixed_columns)
    as Hpresent by (apply (bool_decide_unpack _); reflexivity).
  split; [exact Hfile|]. split; [exact Hpresent|].
  destruct (main_with_checkpoint_aggregates_only unauthorized_github
              sample_cast_varchar sample_cast_integer sample_cast_timestamp
              5 "t" "acme" w null_severity_checkpoint [null_severity_alert]
              Hfile Hpresent eq_refl) as [-> _].
  reflexivity.
Defined.

(** X20. Without a checkpoint, when listing the repositories raises, the
    job raises the same exception: the aggregation engine is not run, no
    file is written and no alert is requested. *)
Theorem main_stops_at_listing_failure (api : github)
    (cast_varchar : value → option (option string))
    (cast_integer cast_timestamp : value → option (option Z))
    (fuel : nat) (token org : string) (w : world) (e : exn) :
  fs w !! raw_alerts_csv = None →
  listing_outcome api fuel org token = Raise e →
  main api cast_varchar cast_integer cast_timestamp fuel token org w =
    (Raise e,
     {| fs := fs w;
        stdout := stdout w
                    ++ [ "Generating tables for critical dependabot alerts...";
                         "Generating raw alerts table..." ];
        http_log := http_log w ++ listing_requests api fuel org token |}).
Proof.
  intros Habsent Hlist. unfold main. unfold bind at 1, print. unfold bind at 1.
  unfold generate_raw_alerts_table.
  unfold bind at 1, os_path_exists. cbn [fs]. rewrite Habsent.
  rewrite bool_decide_eq_false_2 by (by intros [? ?]).
  unfold bind at 1, print. unfold bind at 1. rewrite listing_run, Hlist.
  cbn [fs stdout http_log add_requests]. by rewrite <-!app_assoc.
Qed.

Lemma main_stops_at_listing_failure_witness :
  fs initial_world !! raw_alerts_csv = None
  ∧ listing_outcome unauthorized_github 5 "acme" "t"
    = Raise (repos_failure "acme" "t" 1 (org_repos unauthorized_github "acme" "t" 1))
  ∧ fs (main unauthorized_github
          sample_cast_varchar sample_cast_integer sample_cast_timestamp
          5 "t" "acme" initial_world).2 = ∅.
Proof.
  split; [apply lookup_empty|]. split; [reflexivity|].
  rewrite (main_stops_at_listing_failure unauthorized_github
             sample_cast_varchar sample_cast_integer sample_cast_timestamp
             5 "t" "acme" initial_world
             (repos_failure "acme" "t" 1 (org_repos unauthorized_github "acme" "t" 1)));
    [reflexivity | apply lookup_empty | reflexivity].
Defined.

(** * Which fields become columns *)

Lemma has_dot_separator (key_string key : string) :
  has_dot (key_string +:+ "." +:+ key) = true.
Proof. induction key_string as [|a s IH]; simpl; [done|]. rewrite IH. apply orb_true_r. Qed.

Lemma dict_keys_set_inv {V} (k k' : string) (v : V) (d : dict V) :
  k ∈ dict_keys (dict_set k' v d) → k ∈ dict_keys d ∨ k = k'.
Proof.
  rewrite dict_keys_set. case_bool_decide; [by left|].
  rewrite elem_of_app, list_elem_of_singleton. tauto.
Qed.

(** Below the top level, flattening adds the key it was given or keys
    with a dot. *)
Lemma normalise_json_keys_inv :
  ∀ (data : json) (key_string : string) (acc : dict json) (k : string),
    key_string ≠ "" →
    k ∈ dict_keys (normalise_json data key_string acc) →
    k ∈ dict_keys acc ∨ k = key_string ∨ has_dot k = true.
Proof.
  fix IH 1. intros data key_string acc k Hkey.
  destruct data as [| | | | |members];
    try (simpl; intros [?|?]%dict_keys_set_inv; tauto).
  revert acc. induction members as [|[k' v] members IHm]; intros acc; [by left|].
  rewrite normalise_json_cons. intros [Hk | Hk]%IHm; [|tauto].
  destruct (String.eqb_spec key_string ""); [done|].
  apply IH in Hk as [?|[->|?]]; [tauto | | tauto |].
  - right. right. apply has_dot_separator.
  - by destruct key_string.
Qed.

Lemma normalise_json_object_keys_inv (members : list (string * json))
    (key_string : string) (acc : dict json) (k : string) :
  key_string ≠ "" →
  k ∈ dict_keys (normalise_json (JObj members) key_string acc) →
  k ∈ dict_keys acc ∨ has_dot k = true.
Proof.
  intros Hkey. revert acc.
  induction members as [|[k' v] members IHm]; intros acc; [by left|].
  rewrite normalise_json_cons. intros [Hk | Hk]%IHm; [|tauto].
  destruct (String.eqb_spec key_string ""); [done|].
  apply normalise_json_keys_inv in Hk as [?|[->|?]]; [tauto | | tauto |].
  - right. apply has_dot_separator.
  - by destruct key_string.
Qed.

Lemma normalise_json_nested_keys_inv (members : list (string * json))
    (acc : dict json) (k : string) :
  (∀ k1 v, (k1, v) ∈ members → is_dict v = true ∧ k1 ≠ "") →
  k ∈ dict_keys (normalise_json (JObj members) "" acc) →
  k ∈ dict_keys acc ∨ has_dot k = true.
Proof.
  revert acc. induction members as [|[k1 v] members IHm]; intros acc Hmembers;
    [by left|].
  rewrite normalise_json_cons. intros Hk.
  apply IHm in Hk as [Hk | Hk]; [| tauto | intros k2 v2 ?; apply Hmembers; by right].
  destruct (Hmembers k1 v ltac:(left)) as [Hdict Hk1].
  destruct v as [| | | | |sub]; try done. simpl String.eqb in Hk. cbv iota in Hk.
  by apply normalise_json_object_keys_inv in Hk.
Qed.

Lemma dict_merge_keys_inv {V} (a b : dict V) (k : string) :
  k ∈ dict_keys (dict_merge a b) → k ∈ dict_keys a ∨ k ∈ dict_keys b.
Proof.
  unfold dict_merge. revert a. induction b as [|[k' v'] b IH]; intros a; simpl.
  - by left.
  - intros [Hk | Hk]%IH; [|right; by right].
    apply dict_keys_set_inv in Hk as [?| ->]; [by left | right; left].
Qed.

(** X21. Only fields that are not objects become columns under their own
    name.  For a name without a dot, and alerts without an empty key, the
    checkpoint has the column exactly when some alert has the field with
    a value that is not an object: a field that is an object in every
    alert that has it (as [dismissed_by] is in every dismissed alert)
    gives no such column. *)
Theorem plain_column_iff_plain_field (alerts : list alert) (c : string) :
  has_dot c = false →
  (∀ a, a ∈ alerts → "" ∉ dict_keys a) →
  c ∈ columns (json_normalize alerts) ↔ ∃ a, a ∈ alerts ∧ has_field a c.
Proof.
  intros Hdot Hkeys.
  destruct (json_normalize_table alerts) as (_ & _ & _ & Hcolumns).
  rewrite Hcolumns. split.
  - intros (a & Ha & Hc). exists a. split; [done|].
    unfold normalise_json_ordered in Hc.
    apply dict_merge_keys_inv in Hc as [Hc | Hc].
    + apply list_elem_of_fmap in Hc as ([k v] & -> & Hin).
      apply list_elem_of_filter in Hin as [Hleaf Hin]. by exists v.
    + apply normalise_json_nested_keys_inv in Hc as [Hc | Hc].
      * by apply elem_of_nil in Hc.
      * congruence.
      * intros k1 v Hin. apply list_elem_of_filter in Hin as [Hdict Hin].
        split; [done|]. intros ->. apply (Hkeys a Ha).
        apply list_elem_of_fmap. by exists ("", v).
  - intros (a & Ha & Hfield). exists a. split; [done|].
    by apply normalise_json_ordered_keys.
Qed.

Lemma plain_column_iff_plain_field_witness :
  has_dot "dismissed_by" = false
  ∧ (∀ a, a ∈ [dismissed_sample_alert] → "" ∉ dict_keys a)
  ∧ ¬ (∃ a, a ∈ [dismissed_sample_alert] ∧ has_field a "dismissed_by")
  ∧ "dismissed_by" ∉ columns (json_normalize [dismissed_sample_alert]).
Proof.
  assert (has_dot "dismissed_by" = false) as Hdot by reflexivity.
  assert (∀ a, a ∈ [dismissed_sample_alert] → "" ∉ dict_keys a) as Hkeys.
  { intros a ->%list_elem_of_singleton. apply (bool_decide_unpack _). reflexivity. }
  assert (¬ (∃ a, a ∈ [dismissed_sample_alert] ∧ has_field a "dismissed_by"))
    as Hnone.
  { intros (a & ->%list_elem_of_singleton & v & Hin & Hleaf).
    apply list_elem_of_In in Hin. simpl in Hin.
    repeat (destruct Hin as [Hin | Hin]; [by simplify_eq|]).
    destruct Hin. }
  split; [exact Hdot|]. split; [exact Hkeys|]. split; [exact Hnone|].
  intros Hcolumn. apply Hnone.
  exact (proj1 (plain_column_iff_plain_field _ _ Hdot Hkeys) Hcolumn).
Defined.

(** X22. What the extraction writes, the aggregation can load: when some
    alert has all the fields read at top level with values that are not
    objects, and the three advisory fields inside [security_advisory],
    the projection onto the thirteen columns does not raise; it keeps one
    row per alert and thirteen cells per row. *)
Theorem checkpoint_has_the_fixed_columns (alerts : list alert) (a : alert) (w : world) :
  a ∈ alerts →
  Forall (has_field a) plain_fields →
  Forall (has_advisory_field a) advisory_fields →
  ∃ df,
    select_columns fixed_columns (json_normalize alerts) w = (Return df, w)
    ∧ columns df = fixed_columns
    ∧ length (rows df) = length alerts
    ∧ Forall (fun row => length row = 13) (rows df).
Proof.
  intros Ha Hplain Hadvisory.
  assert (Forall (fun c => c ∈ columns (json_normalize alerts)) fixed_columns)
    as Hpresent.
  { unfold plain_fields in Hplain. unfold advisory_fields in Hadvisory.
    repeat (apply Forall_cons in Hplain as [?%(fields_are_columns alerts a) Hplain];
            [|done]).
    repeat (apply Forall_cons in Hadvisory
              as [?%(fields_are_columns alerts a) Hadvisory]; [|done]).
    unfold fixed_columns. repeat (apply Forall_cons; split; [done|]).
    apply Forall_nil_2. }
  unfold select_columns. rewrite select_columns_present by done.
  eexists. split; [reflexivity|]. cbn [columns rows].
  split; [done|]. split.
  - rewrite length_map. apply json_normalize_table.
  - apply Forall_fmap, Forall_forall. intros row _. reflexivity.
Qed.

Lemma checkpoint_has_the_fixed_columns_witness :
  tag_repository "B" sample_alert ∈ [tag_repository "B" sample_alert]
  ∧ ∃ df,
      select_columns fixed_columns (json_normalize [tag_repository "B" sample_alert])
        initial_world = (Return df, initial_world)
      ∧ columns df = fixed_columns.
Proof.
  assert (tag_repository "B" sample_alert ∈ [tag_repository "B" sample_alert])
    as Hin by left.
  split; [exact Hin|].
  destruct (checkpoint_has_the_fixed_columns [tag_repository "B" sample_alert]
              (tag_repository "B" sample_alert) initial_world Hin)
    as (df & Hrun & Hcolumns & _).
  - unfold plain_fields. repeat (apply Forall_cons; split;
      [eexists; split;
         [apply list_elem_of_In; vm_compute;
          repeat (first [left; reflexivity | right])
         | reflexivity]|]).
    apply Forall_nil_2.
  - unfold advisory_fields. repeat (apply Forall_cons; split;
      [eexists _, _; split; [right; right; left|];
       split; [apply list_elem_of_In; simpl;
               repeat (first [left; reflexivity | right])
              | reflexivity]|]).
    apply Forall_nil_2.
  - exists df. split; [exact Hrun | exact Hcolumns].
Defined.
